(** * Reality-Lens vision service: pose decoding, ergonomic features and
      biomechanical risk scoring

    Shallow embedding of
      - [src/vision-service/src/services/risk_scoring.py]
      - [src/vision-service/src/ml/pose_pipeline.py]
    together with the properties its specification states about them, and
    of the code around them —
      - [src/vision-service/src/ml/model_loader.py] (default configuration,
        latency metrics)
      - [src/vision-service/src/services/posture_estimation.py]
      - [src/vision-service/src/routers/process.py] (the [/image] endpoint)
    — with further properties read off the code.

    Python [float]s are IEEE-754 binary64 values; they are embedded as Rocq's
    primitive [float]s, whose operations round exactly as the hardware does,
    so that [int(weighted_score * 25)] truncates here the very number it
    truncates there.  Python [int]s are [Z].  Dictionaries with string keys
    are [gmap string _]; the ordered [risk_levels] table, whose iteration
    order decides the result, is an association list.  Code that can raise
    returns a [result]; the calls into NumPy's numerical kernels, OpenCV and
    ONNX Runtime are parameters of the sections that use them. *)

From Stdlib Require Import ZArith Floats Lia.
From stdpp Require Import base option list gmap strings pretty.

#[local] Set Warnings "-inexact-float".
#[local] Open Scope Z_scope.

(* ===================================================================== *)
(** ** The fragment of the Python runtime the two modules rely on *)
(* ===================================================================== *)

Module Py.

(** Exceptions (all subclasses of [Exception]) that the embedded code can
    raise, and the text [str(e)] gives for them. *)
Inductive exn : Type :=
| ValueError (msg : string)
| OverflowError (msg : string)
| ZeroDivisionError (msg : string)
| IndexError (msg : string)
| RuntimeError (msg : string)
| AttributeError (msg : string).

Definition str (e : exn) : string :=
  match e with
  | ValueError m | OverflowError m | ZeroDivisionError m
  | IndexError m | RuntimeError m | AttributeError m => m
  end.

(** A computation either returns a value or raises. *)
Inductive result (A : Type) : Type :=
| Ok (a : A)
| Raise (e : exn).
#[global] Arguments Ok {A} a.
#[global] Arguments Raise {A} e.

#[global] Instance result_ret : MRet result := fun A a => Ok a.
#[global] Instance result_bind : MBind result := fun A B f m =>
  match m with
  | Ok a => f a
  | Raise e => Raise e
  end.

#[global] Instance result_fmap : FMap result := fun A B f m =>
  match m with
  | Ok a => Ok (f a)
  | Raise e => Raise e
  end.

Definition raises {A} (m : result A) : Prop := exists e, m = Raise e.

(** *** Numbers *)

(** The exact integer [z] as a (not yet rounded) binary float [z * 2^0]. *)
Definition Z2SF (z : Z) : spec_float :=
  match z with
  | Z0 => S754_zero false
  | Zpos p => S754_finite false p 0
  | Zneg p => S754_finite true p 0
  end.

(** [float(z)], the conversion Python applies to the [int] operand of a
    mixed [int]/[float] operation: round to nearest, ties to even.  The
    [OverflowError] of integers beyond the binary64 range (above 1.7e308)
    is not modelled; the integers converted below are ordinals and sums of
    ordinals. *)
Definition float_of_int (z : Z) : float :=
  SF2Prim (binary_normalize prec emax z 0 false).

(** [a / b] on two [int]s: the correctly rounded quotient, or
    [ZeroDivisionError]. *)
Definition int_truediv (a b : Z) : result float :=
  if b =? 0 then Raise (ZeroDivisionError "division by zero")
  else Ok (SF2Prim (SFdiv prec emax (Z2SF a) (Z2SF b))).

(** [a / b] on two [float]s: Python raises on a zero divisor where IEEE
    arithmetic (and NumPy) would return an infinity or a NaN. *)
Definition float_truediv (a b : float) : result float :=
  if (b =? 0)%float then Raise (ZeroDivisionError "float division by zero")
  else Ok (a / b)%float.

(** Magnitude of a finite float [m * 2^e], truncated toward zero. *)
Definition trunc_mantissa (m : positive) (e : Z) : Z :=
  match e with
  | Z0 => Zpos m
  | Zpos _ => Z.shiftl (Zpos m) e
  | Zneg _ => Z.shiftr (Zpos m) (- e)
  end.

(** [int(x)] on a [float]: truncation toward zero; NaN and the infinities
    raise. *)
Definition int (x : float) : result Z :=
  match Prim2SF x with
  | S754_zero _ => Ok 0
  | S754_finite s m e =>
      let a := trunc_mantissa m e in Ok (if s then - a else a)
  | S754_infinity _ =>
      Raise (OverflowError "cannot convert float infinity to integer")
  | S754_nan => Raise (ValueError "cannot convert float NaN to integer")
  end.

(** The integer nearest to [n / 2^k], ties to the even neighbour. *)
Definition half_even_shift (n : Z) (k : Z) : Z :=
  let d := 2 ^ k in
  let q := n / d in
  let r := n mod d in
  match (2 * r ?= d) with
  | Lt => q
  | Gt => q + 1
  | Eq => if Z.even q then q else q + 1
  end.

(** The integer nearest to [m * c * 2^e], ties to even. *)
Definition nearest_scaled (m : positive) (c e : Z) : Z :=
  match e with
  | Zneg _ => half_even_shift (Zpos m * c) (- e)
  | _ => Zpos m * c * 2 ^ e
  end.

(** [round(x)]: the nearest [int], ties to even. *)
Definition round (x : float) : result Z :=
  match Prim2SF x with
  | S754_zero _ => Ok 0
  | S754_finite s m e =>
      let a := nearest_scaled m 1 e in Ok (if s then - a else a)
  | S754_infinity _ =>
      Raise (OverflowError "cannot convert float infinity to integer")
  | S754_nan => Raise (ValueError "cannot convert float NaN to integer")
  end.

(** [round(x, 2)]: the float nearest to the two-decimal number nearest to
    the exact value of [x] (ties to even); zeros, infinities and NaN are
    returned unchanged. *)
Definition round2 (x : float) : float :=
  match Prim2SF x with
  | S754_finite s m e =>
      match nearest_scaled m 100 e with
      | Zpos k => SF2Prim (SFdiv prec emax (S754_finite s k 0) (Z2SF 100))
      | _ => SF2Prim (S754_zero s)
      end
  | _ => x
  end.

End Py.

Import Py.

(* ===================================================================== *)
(** ** [services/risk_scoring.py] *)
(* ===================================================================== *)

(** An [ergonomic_features] dictionary: a feature name is either not a key,
    or a key bound to [None], or a key bound to a number. *)
Abbreviation Features := (gmap string (option float)).

(** [d.get(key)]: [None] both for a missing key and for a key bound to
    [None]. *)
Definition feature_get (d : Features) (key : string) : option float :=
  default None (d !! key).

Module risk_scoring.

(** A [{"low": _, "medium": _, "high": _}] threshold dictionary. *)
Record Thresholds : Type := mkThresholds {
  low : float;
  medium : float;
  high : float
}.

(** The three attributes [__init__] reads out of the configuration. *)
Record BiomechanicalScorer : Type := mkScorer {
  thresholds : gmap string Thresholds;
  weights : gmap string float;
  risk_levels : list (string * (Z * Z))
}.

(** The scorer [__init__] builds from [_get_default_config], the
    configuration used when the YAML file is not found. *)
Definition default_scorer : BiomechanicalScorer :=
  {| thresholds :=
       <["neck_flexion" := mkThresholds 20 45 60]>
       (<["trunk_flexion" := mkThresholds 20 45 60]>
       (<["shoulder_abduction" := mkThresholds 45 90 135]> ∅));
     weights :=
       <["neck" := 0.20%float]>
       (<["trunk" := 0.25%float]>
       (<["upper_arm" := 0.20%float]>
       (<["lower_arm" := 0.15%float]> ∅)));
     risk_levels :=
       [ ("negligible", (0, 20));
         ("low", (21, 40));
         ("medium", (41, 60));
         ("high", (61, 80));
         ("very_high", (81, 100)) ] |}.

Record RebaResult : Type := mkReba {
  reba_score : Z;
  reba_neck_score : Z;
  reba_trunk_score : Z;
  reba_upper_arm_score : Z;
  reba_lower_arm_score : Z;
  reba_confidence : float
}.

Record RulaResult : Type := mkRula {
  rula_score : Z;
  group_a_score : Z;
  group_b_score : Z;
  rula_confidence : float
}.

(** The dictionary [compute_risk] returns; a key that a branch leaves out
    reads as [None], like a key bound to [None]. *)
Record RiskAssessment : Type := mkRisk {
  rula : option Z;
  reba : option Z;
  niosh : option Z;
  composite : option Z;
  confidence : option float;
  traffic_light : option string;
  risk_level : option string;
  details : option (RebaResult * RulaResult);
  error : option string
}.

Section Scorer.

Variable self : BiomechanicalScorer.

Definition _score_angle (angle : option float) (th : Thresholds) : Z :=
  match angle with
  | None => 0
  | Some angle =>
      if (angle <? low th)%float then 1
      else if (angle <? medium th)%float then 2
      else if (angle <? high th)%float then 3
      else 4
  end.

Definition _calculate_confidence (ergonomic_features : Features)
  : result float :=
  let available_features :=
    length (filter (fun v => is_Some v) (map_to_list ergonomic_features).*2) in
  let total_features := size ergonomic_features in
  if decide (total_features = 0%nat) then Ok 0%float
  else int_truediv (Z.of_nat available_features) (Z.of_nat total_features).

(** [self.thresholds.get(key, fallback)] *)
Definition thresholds_get (key : string) (fallback : Thresholds) : Thresholds :=
  default fallback (thresholds self !! key).

(** [self.weights.get(key, fallback)] *)
Definition weights_get (key : string) (fallback : float) : float :=
  default fallback (weights self !! key).

Definition calculate_reba_score (ergonomic_features : Features)
  : result RebaResult :=
  let neck_score :=
    _score_angle (feature_get ergonomic_features "neck_flexion")
      (thresholds_get "neck_flexion" (mkThresholds 20 45 60)) in
  let trunk_score :=
    _score_angle (feature_get ergonomic_features "trunk_flexion")
      (thresholds_get "trunk_flexion" (mkThresholds 20 45 60)) in
  let left_shoulder := feature_get ergonomic_features "left_shoulder_abduction" in
  let right_shoulder := feature_get ergonomic_features "right_shoulder_abduction" in
  let avg_shoulder :=
    match left_shoulder, right_shoulder with
    | Some l, Some r => Some ((l + r) / 2)%float
    | Some l, None => Some l
    | None, Some r => Some r
    | None, None => None
    end in
  let upper_arm_score :=
    _score_angle avg_shoulder
      (thresholds_get "shoulder_abduction" (mkThresholds 45 90 135)) in
  let left_elbow := feature_get ergonomic_features "left_elbow_flexion" in
  let right_elbow := feature_get ergonomic_features "right_elbow_flexion" in
  let avg_elbow :=
    match left_elbow, right_elbow with
    | Some l, Some r => Some ((l + r) / 2)%float
    | Some l, None => Some l
    | None, Some r => Some r
    | None, None => None
    end in
  let lower_arm_score :=
    _score_angle avg_elbow
      (thresholds_get "elbow_flexion" (mkThresholds 60 100 140)) in
  let weighted_score :=
    (float_of_int neck_score * weights_get "neck" 0.20 +
     float_of_int trunk_score * weights_get "trunk" 0.25 +
     float_of_int upper_arm_score * weights_get "upper_arm" 0.20 +
     float_of_int lower_arm_score * weights_get "lower_arm" 0.15)%float in
  reba_score ← int (weighted_score * 25)%float;
  confidence ← _calculate_confidence ergonomic_features;
  Ok {| reba_score := Z.min reba_score 100;
        reba_neck_score := neck_score;
        reba_trunk_score := trunk_score;
        reba_upper_arm_score := upper_arm_score;
        reba_lower_arm_score := lower_arm_score;
        reba_confidence := confidence |}.

Definition calculate_rula_score (ergonomic_features : Features)
  : result RulaResult :=
  let upper_arm_score :=
    _score_angle (feature_get ergonomic_features "left_shoulder_abduction")
      (thresholds_get "shoulder_abduction" (mkThresholds 45 90 135)) in
  let lower_arm_score :=
    _score_angle (feature_get ergonomic_features "left_elbow_flexion")
      (thresholds_get "elbow_flexion" (mkThresholds 60 100 140)) in
  let neck_score :=
    _score_angle (feature_get ergonomic_features "neck_flexion")
      (thresholds_get "neck_flexion" (mkThresholds 20 45 60)) in
  let trunk_score :=
    _score_angle (feature_get ergonomic_features "trunk_flexion")
      (thresholds_get "trunk_flexion" (mkThresholds 20 45 60)) in
  let group_a := upper_arm_score + lower_arm_score in
  let group_b := neck_score + trunk_score in
  rula_score ← int (float_of_int (group_a + group_b) * 12.5)%float;
  confidence ← _calculate_confidence ergonomic_features;
  Ok {| rula_score := Z.min rula_score 100;
        group_a_score := group_a;
        group_b_score := group_b;
        rula_confidence := confidence |}.

Fixpoint first_level (levels : list (string * (Z * Z))) (score : Z) : string :=
  match levels with
  | [] => "unknown"
  | (level, (min_score, max_score)) :: rest =>
      if (min_score <=? score) && (score <=? max_score) then level
      else first_level rest score
  end.

Definition get_risk_level (score : Z) : string :=
  first_level (risk_levels self) score.

Definition get_traffic_light (score : Z) : string :=
  if score <=? 40 then "green"
  else if score <=? 60 then "yellow"
  else "red".

End Scorer.

(** The two dictionaries with [None] scores: the one returned for empty
    features, and the one returned from the [except] clause. *)
Definition null_result : RiskAssessment :=
  {| rula := None; reba := None; niosh := None; composite := None;
     confidence := None; traffic_light := None; risk_level := None;
     details := None; error := None |}.

Definition error_result (e : exn) : RiskAssessment :=
  {| rula := None; reba := None; niosh := None; composite := None;
     confidence := None; traffic_light := None; risk_level := None;
     details := None; error := Some (str e) |}.

(** [compute_risk(inputs)], with the scorer [get_scorer()] returns passed
    explicitly. *)
Definition compute_risk (scorer : BiomechanicalScorer)
    (inputs : gmap string Features) : RiskAssessment :=
  let ergonomic_features := default ∅ (inputs !! "ergonomic_features") in
  if decide (size ergonomic_features = 0%nat) then null_result
  else
    let attempt :=
      reba_result ← calculate_reba_score scorer ergonomic_features;
      rula_result ← calculate_rula_score scorer ergonomic_features;
      quotient ← int_truediv (reba_score reba_result + rula_score rula_result) 2;
      composite_score ← int quotient;
      let composite_confidence :=
        ((reba_confidence reba_result + rula_confidence rula_result) / 2)%float in
      Ok {| rula := Some (rula_score rula_result);
            reba := Some (reba_score reba_result);
            niosh := None;
            composite := Some composite_score;
            confidence := Some (round2 composite_confidence);
            traffic_light := Some (get_traffic_light composite_score);
            risk_level := Some (get_risk_level scorer composite_score);
            details := Some (reba_result, rula_result);
            error := None |} in
    match attempt with
    | Ok assessment => assessment
    | Raise e => error_result e
    end.

End risk_scoring.

(* ===================================================================== *)
(** ** [ml/pose_pipeline.py] *)
(* ===================================================================== *)

Module pose_pipeline.

(** A keypoint dictionary as [extract_keypoints] builds it. *)
Record Keypoint : Type := mkKeypoint {
  kp_id : nat;
  kp_name : string;
  kp_x : float;
  kp_y : float;
  kp_confidence : float
}.

(** The element types the pipeline meets: [uint8] images, the [float32]
    batches [preprocess_image] builds and the [float32] tensors the
    session returns, and NumPy's default [float64]. *)
Inductive DType : Type := uint8 | float32 | float64.

(** A NumPy array: its element type, its shape and its elements in
    row-major order.  An element is given by its value — every [uint8]
    and every [float32] value is a binary64 number — which is also what
    [float(x)] makes of it when it is stored in a keypoint. *)
Record ndarray : Type := mkArray {
  dtype : DType;
  shape : list nat;
  data : list float
}.

Definition ndim (a : ndarray) : nat := length (shape a).

(** Every NumPy array holds as many elements as its shape announces. *)
Definition well_formed (a : ndarray) : Prop :=
  length (data a) = foldr Nat.mul 1%nat (shape a).

(** [a[i, j, :]] on an array [a] of shape [(d0, d1, d2)]; the indices
    are checked axis by axis. *)
Definition index_row (d0 d1 d2 : nat) (a : ndarray) (i j : nat)
  : result (list float) :=
  if decide (d0 <= i)%nat then
    Raise (IndexError ("index " +:+ pretty i +:+
                       " is out of bounds for axis 0 with size " +:+ pretty d0))
  else if decide (d1 <= j)%nat then
    Raise (IndexError ("index " +:+ pretty j +:+
                       " is out of bounds for axis 1 with size " +:+ pretty d1))
  else Ok (take d2 (drop ((i * d1 + j) * d2) (data a))).

(** [y, x, confidence = row] *)
Definition unpack3 (row : list float) : result (float * float * float) :=
  match row with
  | [y; x; confidence] => Ok (y, x, confidence)
  | _ =>
      if decide (length row < 3)%nat then
        Raise (ValueError ("not enough values to unpack (expected 3, got " +:+
                           pretty (length row) +:+ ")"))
      else Raise (ValueError "too many values to unpack (expected 3)")
  end.

(** The ["pose_estimation"] section of the model configuration; a [None]
    field is a key the section does not have. *)
Record PoseConfig : Type := mkPoseConfig {
  input_size : option (list nat);
  confidence_threshold : option float;
  keypoint_names : option (list string)
}.

Record Config : Type := mkConfig {
  pose_estimation : option PoseConfig
}.

(** The result dictionary of [process_image]. *)
Record ProcessResult : Type := mkProcessResult {
  success : bool;
  result_error : option string;
  keypoints : list Keypoint;
  ergonomic_features : Features;
  num_keypoints_detected : nat
}.

Definition np_pi : float := 3.141592653589793%float.

(** [np.clip(v, lo, hi)] on a scalar; a NaN passes through. *)
Definition np_clip (v lo hi : float) : float :=
  if (v <? lo)%float then lo else if (hi <? v)%float then hi else v.

(** [np.float32(x)]: the binary32 number nearest to [x] (ties to even; an
    infinity beyond the binary32 range), given by its value. *)
Definition np_float32 (x : float) : float :=
  match Prim2SF x with
  | S754_finite s m e => SF2Prim (binary_round 24 128 s m e)
  | _ => x
  end.

(** The value a Python [float] takes in an operation with an element of
    an array of type [dt]: NumPy (2.x) gives the Python operand the
    array's floating type, so that beside a [float32] it is rounded to
    binary32; beside an integer element both operands become [float64]. *)
Definition as_dtype (dt : DType) (x : float) : float :=
  match dt with
  | float32 => np_float32 x
  | uint8 | float64 => x
  end.

Section PosePipeline.

(** NumPy's numerical kernels are outside the repository. *)
Variable np_arctan2 : float -> float -> float.
Variable np_arccos : float -> float.
Variable np_degrees : float -> float.
Variable np_dot : float * float -> float * float -> float.
Variable np_linalg_norm : float * float -> float.

(** [self.config] *)
Variable config : Config.

Definition pose_config : PoseConfig :=
  default (mkPoseConfig None None None) (pose_estimation config).

(** The body of the [for idx in range(...)] loop of [extract_keypoints],
    entered with a [model_output] of shape [(d0, d1, d2)] and run over the
    indices [idxs] with the list built so far.  The test
    [confidence >= confidence_threshold] compares an element of the
    tensor with a Python [float]. *)
Fixpoint extract_loop (model_output : ndarray) (d0 d1 d2 : nat)
    (confidence_threshold : float)
    (keypoint_names : list string) (idxs : list nat)
    (keypoints : list Keypoint) : result (list Keypoint) :=
  match idxs with
  | [] => Ok keypoints
  | idx :: rest =>
      row ← index_row d0 d1 d2 model_output 0 idx;
      '(y, x, confidence) ← unpack3 row;
      let keypoints :=
        if (as_dtype (dtype model_output) confidence_threshold
            <=? confidence)%float then
          keypoints ++
            [ {| kp_id := idx;
                 kp_name :=
                   match keypoint_names !! idx with
                   | Some name => name
                   | None => "keypoint_" +:+ pretty idx
                   end;
                 kp_x := x;
                 kp_y := y;
                 kp_confidence := confidence |} ]
        else keypoints in
      extract_loop model_output d0 d1 d2 confidence_threshold keypoint_names
        rest keypoints
  end.

Definition extract_keypoints (model_output : ndarray) : result (list Keypoint) :=
  let confidence_threshold := default 0.3%float (confidence_threshold pose_config) in
  let keypoint_names := default [] (keypoint_names pose_config) in
  let keypoints := [] in
  match shape model_output with
  | [d0; d1; d2] =>
      (* model_output.ndim == 3 *)
      extract_loop model_output d0 d1 d2 confidence_threshold keypoint_names
        (seq 0 d1) keypoints
  | _ => Ok keypoints
  end.

Definition calculate_angle (p1 p2 p3 : float * float) : float :=
  let v1 := (p1.1 - p2.1, p1.2 - p2.2)%float in
  let v2 := (p3.1 - p2.1, p3.2 - p2.2)%float in
  let cos_angle :=
    (np_dot v1 v2 / (np_linalg_norm v1 * np_linalg_norm v2 + 1e-6))%float in
  let angle := np_arccos (np_clip cos_angle (-1) 1) in
  np_degrees angle.

Definition get_keypoint_by_name (keypoints : list Keypoint) (name : string)
  : option Keypoint :=
  find (fun kp => bool_decide (kp_name kp = name)) keypoints.

(** The eight [if ...: features[...] = ...] blocks of
    [calculate_ergonomic_features], in source order; each takes the
    keypoints its condition tests and the dictionary built so far. *)

Definition neck_flexion_block (nose left_shoulder right_shoulder : option Keypoint)
    (features : Features) : Features :=
  match nose, left_shoulder, right_shoulder with
  | Some nose, Some left_shoulder, Some right_shoulder =>
      let mid_shoulder_x := ((kp_x left_shoulder + kp_x right_shoulder) / 2)%float in
      let mid_shoulder_y := ((kp_y left_shoulder + kp_y right_shoulder) / 2)%float in
      let neck_angle :=
        abs (np_arctan2 (kp_y nose - mid_shoulder_y) (kp_x nose - mid_shoulder_x)) in
      <["neck_flexion" := Some (np_degrees neck_angle)]> features
  | _, _, _ => features
  end.

Definition trunk_flexion_block
    (left_shoulder left_hip right_shoulder right_hip : option Keypoint)
    (features : Features) : Features :=
  match left_shoulder, left_hip, right_shoulder, right_hip with
  | Some left_shoulder, Some left_hip, Some right_shoulder, Some right_hip =>
      let mid_shoulder_x := ((kp_x left_shoulder + kp_x right_shoulder) / 2)%float in
      let mid_shoulder_y := ((kp_y left_shoulder + kp_y right_shoulder) / 2)%float in
      let mid_hip_x := ((kp_x left_hip + kp_x right_hip) / 2)%float in
      let mid_hip_y := ((kp_y left_hip + kp_y right_hip) / 2)%float in
      let trunk_angle :=
        abs (np_arctan2 (mid_shoulder_y - mid_hip_y) (mid_shoulder_x - mid_hip_x)
             - np_pi / 2) in
      <["trunk_flexion" := Some (np_degrees trunk_angle)]> features
  | _, _, _, _ => features
  end.

Definition left_shoulder_abduction_block
    (left_shoulder left_elbow left_hip : option Keypoint)
    (features : Features) : Features :=
  match left_shoulder, left_elbow, left_hip with
  | Some left_shoulder, Some left_elbow, Some left_hip =>
      let angle :=
        calculate_angle (kp_x left_hip, kp_y left_hip)
          (kp_x left_shoulder, kp_y left_shoulder)
          (kp_x left_elbow, kp_y left_elbow) in
      <["left_shoulder_abduction" := Some angle]> features
  | _, _, _ => features
  end.

Definition right_shoulder_abduction_block
    (right_shoulder right_elbow right_hip : option Keypoint)
    (features : Features) : Features :=
  match right_shoulder, right_elbow, right_hip with
  | Some right_shoulder, Some right_elbow, Some right_hip =>
      let angle :=
        calculate_angle (kp_x right_hip, kp_y right_hip)
          (kp_x right_shoulder, kp_y right_shoulder)
          (kp_x right_elbow, kp_y right_elbow) in
      <["right_shoulder_abduction" := Some angle]> features
  | _, _, _ => features
  end.

Definition left_elbow_flexion_block
    (left_shoulder left_elbow left_wrist : option Keypoint)
    (features : Features) : Features :=
  match left_shoulder, left_elbow, left_wrist with
  | Some left_shoulder, Some left_elbow, Some left_wrist =>
      let angle :=
        calculate_angle (kp_x left_shoulder, kp_y left_shoulder)
          (kp_x left_elbow, kp_y left_elbow)
          (kp_x left_wrist, kp_y left_wrist) in
      <["left_elbow_flexion" := Some angle]> features
  | _, _, _ => features
  end.

Definition right_elbow_flexion_block
    (right_shoulder right_elbow right_wrist : option Keypoint)
    (features : Features) : Features :=
  match right_shoulder, right_elbow, right_wrist with
  | Some right_shoulder, Some right_elbow, Some right_wrist =>
      let angle :=
        calculate_angle (kp_x right_shoulder, kp_y right_shoulder)
          (kp_x right_elbow, kp_y right_elbow)
          (kp_x right_wrist, kp_y right_wrist) in
      <["right_elbow_flexion" := Some angle]> features
  | _, _, _ => features
  end.

Definition asymmetry_score_block (left_shoulder right_shoulder : option Keypoint)
    (features : Features) : Features :=
  match left_shoulder, right_shoulder with
  | Some left_shoulder, Some right_shoulder =>
      let left_side_height := kp_y left_shoulder in
      let right_side_height := kp_y right_shoulder in
      let asymmetry := abs (left_side_height - right_side_height) in
      <["asymmetry_score" := Some (asymmetry * 100)%float]> features
  | _, _ => features
  end.

(** The last block holds the one Python-level division, which raises on
    a zero divisor. *)
Definition reach_distance_ratio_block
    (left_shoulder right_shoulder left_wrist : option Keypoint)
    (features : Features) : result Features :=
  match left_shoulder, right_shoulder, left_wrist with
  | Some left_shoulder, Some right_shoulder, Some left_wrist =>
      let shoulder_width := abs (kp_x left_shoulder - kp_x right_shoulder) in
      let reach_distance := abs (kp_x left_wrist - kp_x left_shoulder) in
      if (0 <? shoulder_width)%float then
        ratio ← float_truediv reach_distance shoulder_width;
        Ok (<["reach_distance_ratio" := Some ratio]> features)
      else Ok features
  | _, _, _ => Ok features
  end.

Definition calculate_ergonomic_features (keypoints : list Keypoint)
  : result Features :=
  let features : Features :=
    <["neck_flexion" := None]>
    (<["trunk_flexion" := None]>
    (<["left_shoulder_abduction" := None]>
    (<["right_shoulder_abduction" := None]>
    (<["left_elbow_flexion" := None]>
    (<["right_elbow_flexion" := None]>
    (<["asymmetry_score" := None]>
    (<["reach_distance_ratio" := None]> ∅))))))) in
  let nose := get_keypoint_by_name keypoints "nose" in
  let left_shoulder := get_keypoint_by_name keypoints "left_shoulder" in
  let right_shoulder := get_keypoint_by_name keypoints "right_shoulder" in
  let left_elbow := get_keypoint_by_name keypoints "left_elbow" in
  let right_elbow := get_keypoint_by_name keypoints "right_elbow" in
  let left_wrist := get_keypoint_by_name keypoints "left_wrist" in
  let right_wrist := get_keypoint_by_name keypoints "right_wrist" in
  let left_hip := get_keypoint_by_name keypoints "left_hip" in
  let right_hip := get_keypoint_by_name keypoints "right_hip" in
  let features := neck_flexion_block nose left_shoulder right_shoulder features in
  let features :=
    trunk_flexion_block left_shoulder left_hip right_shoulder right_hip features in
  let features :=
    left_shoulder_abduction_block left_shoulder left_elbow left_hip features in
  let features :=
    right_shoulder_abduction_block right_shoulder right_elbow right_hip features in
  let features :=
    left_elbow_flexion_block left_shoulder left_elbow left_wrist features in
  let features :=
    right_elbow_flexion_block right_shoulder right_elbow right_wrist features in
  let features := asymmetry_score_block left_shoulder right_shoulder features in
  reach_distance_ratio_block left_shoulder right_shoulder left_wrist features.

(** *** Image loading, inference and the orchestrator

    [World] is the ambient state the first two stages work on: the file
    system, the loader's session and its latency metrics, the clock.  The
    calls into OpenCV and ONNX Runtime are taken as given:
    - [cv2_imread] is [cv2.imread], [None] for a file it cannot read;
    - [cv2_to_batch] is the conversion chain [cvtColor], [resize],
      [astype / 255], [expand_dims], which may raise;
    - [session_loaded] tells whether [model_loader.session] is set;
    - [session_run] is the timed [session.run] with the metrics update,
      returning [outputs[0]] or raising. *)
Variable World : Type.
Variable cv2_imread : string -> World -> option ndarray.
Variable cv2_to_batch : ndarray -> list nat -> result ndarray.
Variable session_loaded : World -> bool.
Variable session_run : ndarray -> World -> result ndarray * World.

Definition preprocess_image (image_path : string) (w : World) : result ndarray :=
  let target_size := default [192; 192]%nat (input_size pose_config) in
  match cv2_imread image_path w with
  | None => Raise (ValueError ("Failed to load image: " +:+ image_path))
  | Some img => cv2_to_batch img target_size
  end.

Definition run_inference (preprocessed_image : ndarray) (w : World)
  : result ndarray * World :=
  if negb (session_loaded w) then
    (Raise (RuntimeError "Model not loaded. Call model_loader.load_model() first."),
     w)
  else session_run preprocessed_image w.

Definition failure (e : exn) : ProcessResult :=
  {| success := false;
     result_error := Some (str e);
     keypoints := [];
     ergonomic_features := ∅;
     num_keypoints_detected := 0 |}.

Definition process_image (image_path : string) (w : World)
  : ProcessResult * World :=
  match preprocess_image image_path w with
  | Raise e => (failure e, w)
  | Ok preprocessed =>
      let '(model_output, w) := run_inference preprocessed w in
      match model_output with
      | Raise e => (failure e, w)
      | Ok model_output =>
          match
            keypoints ← extract_keypoints model_output;
            ergonomic_features ← calculate_ergonomic_features keypoints;
            Ok {| success := true;
                  result_error := None;
                  keypoints := keypoints;
                  ergonomic_features := ergonomic_features;
                  num_keypoints_detected := length keypoints |}
          with
          | Ok r => (r, w)
          | Raise e => (failure e, w)
          end
      end
  end.

Fixpoint process_batch_loop (image_paths : list string)
    (results : list ProcessResult) (w : World)
  : list ProcessResult * World :=
  match image_paths with
  | [] => (results, w)
  | image_path :: rest =>
      let '(r, w) := process_image image_path w in
      process_batch_loop rest (results ++ [r]) w
  end.

Definition process_batch (image_paths : list string) (w : World)
  : list ProcessResult * World :=
  process_batch_loop image_paths [] w.

End PosePipeline.

End pose_pipeline.

(* ===================================================================== *)
(** ** Vocabulary of the specification *)
(* ===================================================================== *)

Import risk_scoring pose_pipeline.

(** The eight feature fields of an [ErgonomicFeatures] record. *)
Definition feature_names : list string :=
  [ "neck_flexion"; "trunk_flexion";
    "left_shoulder_abduction"; "right_shoulder_abduction";
    "left_elbow_flexion"; "right_elbow_flexion";
    "asymmetry_score"; "reach_distance_ratio" ].

(** The record in which each of the eight fields is present and unknown. *)
Definition unknown_features : Features :=
  list_to_map ((fun k => (k, None)) <$> feature_names).

(** Every field the record has is unknown. *)
Definition all_unknown (f : Features) : Prop :=
  map_Forall (fun _ v => v = None) f.

(** [{"ergonomic_features": f}] *)
Definition inputs_of (f : Features) : gmap string Features :=
  {[ "ergonomic_features" := f ]}.

(** The score fields the edge policy speaks of are all null. *)
Definition scores_null (r : RiskAssessment) : Prop :=
  rula r = None /\ reba r = None /\ composite r = None /\
  traffic_light r = None /\ risk_level r = None.

(** The weights the scorer ends up using are the code's own defaults, be it
    through the configuration or through the fallbacks of [weights.get]. *)
Definition default_weights (scorer : BiomechanicalScorer) : Prop :=
  weights_get scorer "neck" 0.20 = 0.20%float /\
  weights_get scorer "trunk" 0.25 = 0.25%float /\
  weights_get scorer "upper_arm" 0.20 = 0.20%float /\
  weights_get scorer "lower_arm" 0.15 = 0.15%float.

(** Neither NaN nor an infinity. *)
Definition is_finite (x : float) : bool :=
  match Prim2SF x with
  | S754_zero _ | S754_finite _ _ _ => true
  | _ => false
  end.

(** The four weights the scorer ends up using are finite numbers. *)
Definition finite_weights (scorer : BiomechanicalScorer) : Prop :=
  is_finite (weights_get scorer "neck" 0.20) = true /\
  is_finite (weights_get scorer "trunk" 0.25) = true /\
  is_finite (weights_get scorer "upper_arm" 0.20) = true /\
  is_finite (weights_get scorer "lower_arm" 0.15) = true.

(** Thresholds in force for each joint group. *)
Definition neck_thresholds (scorer : BiomechanicalScorer) : Thresholds :=
  thresholds_get scorer "neck_flexion" (mkThresholds 20 45 60).
Definition trunk_thresholds (scorer : BiomechanicalScorer) : Thresholds :=
  thresholds_get scorer "trunk_flexion" (mkThresholds 20 45 60).
Definition shoulder_thresholds (scorer : BiomechanicalScorer) : Thresholds :=
  thresholds_get scorer "shoulder_abduction" (mkThresholds 45 90 135).
Definition elbow_thresholds (scorer : BiomechanicalScorer) : Thresholds :=
  thresholds_get scorer "elbow_flexion" (mkThresholds 60 100 140).

(** The angle an arm joint is scored on: the average of both sides when
    both are observed, else whichever side is observed. *)
Definition arm_angle (left right : option float) : option float :=
  match left, right with
  | Some l, Some r => Some ((l + r) / 2)%float
  | _, _ => left ∪ right
  end.

(** [Σ ordinal_i × weight_i] over neck, trunk, upper arm, lower arm. *)
Definition weighted_sum (scorer : BiomechanicalScorer)
    (neck trunk upper_arm lower_arm : Z) : float :=
  (float_of_int neck * weights_get scorer "neck" 0.20 +
   float_of_int trunk * weights_get scorer "trunk" 0.25 +
   float_of_int upper_arm * weights_get scorer "upper_arm" 0.20 +
   float_of_int lower_arm * weights_get scorer "lower_arm" 0.15)%float.

Definition clamp (lo hi k : Z) : Z := Z.max lo (Z.min k hi).

(** The REBA final as the specification words it:
    [round(weighted_sum × 25)] clamped to [0,100]. *)
Definition reba_as_specified (scorer : BiomechanicalScorer) (f : Features)
  : result Z :=
  let neck := _score_angle (feature_get f "neck_flexion") (neck_thresholds scorer) in
  let trunk := _score_angle (feature_get f "trunk_flexion") (trunk_thresholds scorer) in
  let upper_arm :=
    _score_angle (arm_angle (feature_get f "left_shoulder_abduction")
                            (feature_get f "right_shoulder_abduction"))
      (shoulder_thresholds scorer) in
  let lower_arm :=
    _score_angle (arm_angle (feature_get f "left_elbow_flexion")
                            (feature_get f "right_elbow_flexion"))
      (elbow_thresholds scorer) in
  k ← round (weighted_sum scorer neck trunk upper_arm lower_arm * 25)%float;
  Ok (clamp 0 100 k).

(** The RULA final as the specification words it:
    [round((group_A + group_B) × 12.5)] clamped to [0,100]. *)
Definition rula_as_specified (scorer : BiomechanicalScorer) (f : Features)
  : result Z :=
  let group_a :=
    _score_angle (feature_get f "left_shoulder_abduction") (shoulder_thresholds scorer) +
    _score_angle (feature_get f "left_elbow_flexion") (elbow_thresholds scorer) in
  let group_b :=
    _score_angle (feature_get f "neck_flexion") (neck_thresholds scorer) +
    _score_angle (feature_get f "trunk_flexion") (trunk_thresholds scorer) in
  k ← round (float_of_int (group_a + group_b) * 12.5)%float;
  Ok (clamp 0 100 k).

(** The composite as the specification words it: [round(avg(reba, rula))]. *)
Definition composite_as_specified (reba rula : Z) : result Z :=
  average ← int_truediv (reba + rula) 2;
  round average.

(** A float whose value is zero, of either sign. *)
Definition is_zero_float (x : float) : Prop :=
  exists s, Prim2SF x = S754_zero s.

(** The ordinals an assessed or unassessed joint can get. *)
Definition ordinals : list Z := [0; 1; 2; 3; 4].

(** Exhaustive run of the REBA arithmetic under the default weights: every
    combination of ordinals converts to an integer between 0 and 80. *)
Definition default_reba_in_range : bool :=
  forallb (fun n => forallb (fun t => forallb (fun u => forallb (fun l =>
    match
      int ((float_of_int n * 0.20 + float_of_int t * 0.25 +
            float_of_int u * 0.20 + float_of_int l * 0.15) * 25)%float
    with
    | Ok k => (0 <=? k) && (k <=? 80)
    | Raise _ => false
    end) ordinals) ordinals) ordinals) ordinals.

(** Exhaustive run of the RULA arithmetic: a sum [s] of four ordinals
    converts to [25 s / 2] rounded down. *)
Definition rula_truncates : bool :=
  forallb (fun s =>
    match int (float_of_int s * 12.5)%float with
    | Ok k => k =? 25 * s / 2
    | Raise _ => false
    end) (seqZ 0 17).

(** Exhaustive run of the composite arithmetic: the halved sum [s] of two
    scores converts to [s / 2] rounded down. *)
Definition composite_truncates : bool :=
  forallb (fun s =>
    match int_truediv s 2 ≫= int with
    | Ok k => k =? s / 2
    | Raise _ => false
    end) (seqZ 0 201).

(** [features[k] = v] when [o] holds a value [v]; nothing otherwise. *)
Definition with_field (k : string) (o : option float) (m : Features) : Features :=
  match o with
  | Some v => <[k := Some v]> m
  | None => m
  end.

(** What the extractor writes into each field, as a function of the
    keypoints the field is computed from. *)
Definition neck_flexion_of (np_arctan2 : float -> float -> float)
    (np_degrees : float -> float)
    (nose left_shoulder right_shoulder : option Keypoint) : option float :=
  n ← nose; l ← left_shoulder; r ← right_shoulder;
  let mx := ((kp_x l + kp_x r) / 2)%float in
  let my := ((kp_y l + kp_y r) / 2)%float in
  Some (np_degrees (abs (np_arctan2 (kp_y n - my)%float (kp_x n - mx)%float))).

Definition trunk_flexion_of (np_arctan2 : float -> float -> float)
    (np_degrees : float -> float)
    (left_shoulder left_hip right_shoulder right_hip : option Keypoint)
  : option float :=
  ls ← left_shoulder; lh ← left_hip; rs ← right_shoulder; rh ← right_hip;
  let sx := ((kp_x ls + kp_x rs) / 2)%float in
  let sy := ((kp_y ls + kp_y rs) / 2)%float in
  let hx := ((kp_x lh + kp_x rh) / 2)%float in
  let hy := ((kp_y lh + kp_y rh) / 2)%float in
  Some (np_degrees (abs (np_arctan2 (sy - hy)%float (sx - hx)%float - np_pi / 2)%float)).

(** The angle at [vertex] between the arms to [a] and to [b]. *)
Definition vertex_angle_of
    (angle : float * float -> float * float -> float * float -> float)
    (a vertex b : option Keypoint) : option float :=
  a ← a; v ← vertex; b ← b;
  Some (angle (kp_x a, kp_y a) (kp_x v, kp_y v) (kp_x b, kp_y b)).

Definition asymmetry_of (left_shoulder right_shoulder : option Keypoint)
  : option float :=
  l ← left_shoulder; r ← right_shoulder;
  Some (abs (kp_y l - kp_y r) * 100)%float.

Definition shoulder_width (l r : Keypoint) : float := abs (kp_x l - kp_x r).

Definition reach_ratio_of (left_shoulder right_shoulder left_wrist : option Keypoint)
  : option float :=
  l ← left_shoulder; r ← right_shoulder; w ← left_wrist;
  if (0 <? shoulder_width l r)%float
  then Some (abs (kp_x w - kp_x l) / shoulder_width l r)%float
  else None.

(** The keypoints each feature is computed from (specification, 4.2). *)
Definition required_keypoints (feature : string) : list string :=
  match feature with
  | "neck_flexion" => ["nose"; "left_shoulder"; "right_shoulder"]
  | "trunk_flexion" => ["left_shoulder"; "right_shoulder"; "left_hip"; "right_hip"]
  | "left_shoulder_abduction" => ["left_shoulder"; "left_hip"; "left_elbow"]
  | "right_shoulder_abduction" => ["right_shoulder"; "right_hip"; "right_elbow"]
  | "left_elbow_flexion" => ["left_elbow"; "left_shoulder"; "left_wrist"]
  | "right_elbow_flexion" => ["right_elbow"; "right_shoulder"; "right_wrist"]
  | "asymmetry_score" => ["left_shoulder"; "right_shoulder"]
  | "reach_distance_ratio" => ["left_wrist"; "left_shoulder"; "right_shoulder"]
  | _ => []
  end%string.

(** A keypoint of that name is in the set. *)
Definition present (kps : list Keypoint) (name : string) : Prop :=
  is_Some (get_keypoint_by_name kps name).

(** Both shoulders are in the set, a positive distance apart along x. *)
Definition shoulders_apart (kps : list Keypoint) : Prop :=
  exists l r,
    get_keypoint_by_name kps "left_shoulder" = Some l /\
    get_keypoint_by_name kps "right_shoulder" = Some r /\
    (0 <? shoulder_width l r)%float = true.

(** The name given to the keypoint at tensor index [idx]: the supplied one,
    or [keypoint_<idx>] when the list of names is too short. *)
Definition keypoint_name (names : list string) (idx : nat) : string :=
  if decide (idx < length names)%nat then nth idx names ""
  else "keypoint_" +:+ pretty idx.

(** The keypoint a [K × 3] tensor holds at index [idx], as rows of
    [(y, x, confidence)], when its confidence reaches the threshold. *)
Definition decoded_at (T : ndarray) (threshold : float) (names : list string)
    (idx : nat) : option Keypoint :=
  y ← data T !! (3 * idx)%nat;
  x ← data T !! (3 * idx + 1)%nat;
  c ← data T !! (3 * idx + 2)%nat;
  if (threshold <=? c)%float
  then Some (mkKeypoint idx (keypoint_name names idx) x y c)
  else None.

(** Sample tensors: three keypoints in a [float64] tensor, the middle one
    below the default threshold; a rank-3 tensor whose rows have two
    entries; and a [float32] tensor, as the session returns them, whose
    third keypoint has the confidence [np.float32(0.7)], which is below
    0.7. *)
Definition three_keypoints : ndarray :=
  mkArray float64 [1; 3; 3]%nat
    [ 0.2; 0.5; 0.9;   0.35; 0.4; 0.1;   0.35; 0.6; 0.85 ]%float.

Definition short_rows : ndarray :=
  mkArray float32 [1; 1; 2]%nat [ 0.25; 0.5 ]%float.

Definition model_tensor : ndarray :=
  mkArray float32 [1; 3; 3]%nat
    [ 0.25; 0.5; 0.875;   0.375; 0.4375; 0.125;
      0.375; 0.625; 0.699999988079071044921875 ]%float.

Definition nose_named : Config :=
  mkConfig (Some (mkPoseConfig None (Some 0.3%float) (Some ["nose"]))).

(** The same names with the threshold 0.7. *)
Definition nose_above_0_7 : Config :=
  mkConfig (Some (mkPoseConfig None (Some 0.7%float) (Some ["nose"]))).

(** A sample environment for the orchestrator: the world counts the
    inferences run; every file is readable except ["missing.png"];
    the session is loaded and returns [three_keypoints]; the numerical
    kernels are stand-ins. *)
Definition sample_imread (image_path : string) (w : nat) : option ndarray :=
  if decide (image_path = "missing.png") then None
  else Some (mkArray uint8 [1; 1; 3]%nat [0; 0; 0]%float).

Definition sample_to_batch (img : ndarray) (target_size : list nat)
  : result ndarray :=
  Ok (mkArray float32 (1%nat :: shape img) (data img)).

Definition sample_session_run (image : ndarray) (w : nat)
  : result ndarray * nat :=
  (Ok three_keypoints, S w).

Definition sample_process_image : string -> nat -> ProcessResult * nat :=
  process_image (fun _ _ => 0%float) (fun _ => 0%float) (fun a => a)
    (fun _ _ => 0%float) (fun _ => 0%float)
    nose_named nat sample_imread sample_to_batch (fun _ => true)
    sample_session_run.

Definition sample_process_batch : list string -> nat -> list ProcessResult * nat :=
  process_batch (fun _ _ => 0%float) (fun _ => 0%float) (fun a => a)
    (fun _ _ => 0%float) (fun _ => 0%float)
    nose_named nat sample_imread sample_to_batch (fun _ => true)
    sample_session_run.

(** The keypoints of the specification's first scenario: nose and both
    shoulders, no hips. *)
Definition head_and_shoulders : list Keypoint :=
  [ mkKeypoint 0 "nose" 0.5 0.2 0.9;
    mkKeypoint 5 "left_shoulder" 0.4 0.35 0.85;
    mkKeypoint 6 "right_shoulder" 0.6 0.35 0.85 ].

(** The extractor run with stand-ins for the numerical kernels. *)
Definition sample_extract : list Keypoint -> result Features :=
  calculate_ergonomic_features (fun _ _ => 0%float) (fun _ => 0%float)
    (fun a => a) (fun _ _ => 0%float) (fun _ => 0%float).

(** Sample records. *)
Definition right_elbow_only : Features :=
  <["right_elbow_flexion" := Some 30%float]> unknown_features.

Definition neck_only : Features :=
  <["neck_flexion" := Some 50%float]> unknown_features.

Definition bent_worker : Features :=
  <["trunk_flexion" := Some 70%float]>
  (<["left_shoulder_abduction" := Some 30%float]>
  (<["right_elbow_flexion" := Some 150%float]> unknown_features)).

(* ===================================================================== *)
(** ** [services/risk_scoring.py]: the configuration and the shared scorer *)
(* ===================================================================== *)

Module scorer_config.

(** The ["risk_scoring"] section of the configuration; a [None] field is a
    key the section does not have. *)
Record RiskScoring : Type := mkRiskScoring {
  reba_weights : option (gmap string float);
  risk_levels_table : option (list (string * (Z * Z)))
}.

(** A configuration mapping; a section that is present is a mapping
    itself. *)
Record ScorerConfig : Type := mkScorerConfig {
  ergonomic_thresholds : option (gmap string Thresholds);
  risk_scoring_section : option RiskScoring
}.

(** What [yaml.safe_load] makes of a file: [None] for an empty document;
    a value of another type than a mapping (a list, a string, a number),
    given by the name of that type; a mapping whose ["risk_scoring"]
    entry, if there is one, is a mapping; or a mapping whose
    ["risk_scoring"] entry is of another type ([NoneType] for a key
    without a value), given by the name of that type. *)
Inductive Document : Type :=
| DocumentNone
| DocumentOther (type_name : string)
| DocumentMapping (config : ScorerConfig)
| DocumentSection (type_name : string).

Definition _get_default_config : ScorerConfig :=
  {| ergonomic_thresholds :=
       Some (<["neck_flexion" := mkThresholds 20 45 60]>
            (<["trunk_flexion" := mkThresholds 20 45 60]>
            (<["shoulder_abduction" := mkThresholds 45 90 135]> ∅)));
     risk_scoring_section :=
       Some {| reba_weights :=
                 Some (<["neck" := 0.20%float]>
                      (<["trunk" := 0.25%float]>
                      (<["upper_arm" := 0.20%float]>
                      (<["lower_arm" := 0.15%float]> ∅))));
               risk_levels_table :=
                 Some [ ("negligible", (0, 20));
                        ("low", (21, 40));
                        ("medium", (41, 60));
                        ("high", (61, 80));
                        ("very_high", (81, 100)) ] |} |}.

(** The three attribute assignments of [__init__]:
    [config.get("ergonomic_thresholds", {})],
    [config.get("risk_scoring", {}).get("reba_weights", {})] and
    [config.get("risk_scoring", {}).get("risk_levels", {})]. *)
Definition scorer_of_config (config : ScorerConfig) : BiomechanicalScorer :=
  {| thresholds := default ∅ (ergonomic_thresholds config);
     weights := default ∅ (risk_scoring_section config ≫= reba_weights);
     risk_levels := default [] (risk_scoring_section config ≫= risk_levels_table) |}.

Section Loading.

(** The file system as the scorer sees it: whether a path exists, and
    what [yaml.safe_load] makes of the file there (the document, or the
    exception raised while opening or parsing it). *)
Variable World : Type.
Variable path_exists : string -> World -> bool.
Variable yaml_safe_load : string -> World -> result Document.

Definition _load_config (config_path : string) (w : World)
  : result Document :=
  if negb (path_exists config_path w)
  then Ok (DocumentMapping _get_default_config)
  else yaml_safe_load config_path w.

(** [self.config.get(...)], the first thing [__init__] does with the
    document, raises when the document is not a mapping, and
    [self.config.get("risk_scoring", {}).get(...)] when that entry is
    there and is not one. *)
Definition __init__ (config_path : string) (w : World)
  : result BiomechanicalScorer :=
  config ← _load_config config_path w;
  match config with
  | DocumentNone =>
      Raise (AttributeError "'NoneType' object has no attribute 'get'")
  | DocumentOther type_name =>
      Raise (AttributeError
               ("'" +:+ type_name +:+ "' object has no attribute 'get'"))
  | DocumentMapping config => Ok (scorer_of_config config)
  | DocumentSection type_name =>
      Raise (AttributeError
               ("'" +:+ type_name +:+ "' object has no attribute 'get'"))
  end.

(** [get_scorer()], on the module-level [_scorer]. *)
Definition get_scorer (_scorer : option BiomechanicalScorer) (w : World)
  : result BiomechanicalScorer * option BiomechanicalScorer :=
  match _scorer with
  | None =>
      match __init__ "src/config/models.yaml" w with
      | Ok scorer => (Ok scorer, Some scorer)
      | Raise e => (Raise e, None)
      end
  | Some scorer => (Ok scorer, Some scorer)
  end.

(** [compute_risk(inputs)] as the module runs it: the scorer is fetched
    before the [try], so that a configuration that cannot be loaded makes
    the call raise. *)
Definition compute_risk_call (inputs : gmap string Features)
    (_scorer : option BiomechanicalScorer) (w : World)
  : result RiskAssessment * option BiomechanicalScorer :=
  let '(scorer, _scorer) := get_scorer _scorer w in
  (scorer ≫= fun scorer => Ok (compute_risk scorer inputs), _scorer).

End Loading.

End scorer_config.

(* ===================================================================== *)
(** ** [ml/model_loader.py]: default configuration and latency metrics *)
(* ===================================================================== *)

Module model_loader.

(** The ["pose_estimation"] section of [ModelLoader._get_default_config],
    as far as the pipeline reads it: it has no ["keypoint_names"]. *)
Definition _get_default_config : Config :=
  mkConfig (Some (mkPoseConfig (Some [192; 192]%nat) (Some 0.3%float) None)).

(** [self.metrics] *)
Record Metrics : Type := mkMetrics {
  latency_p50 : float;
  latency_p95 : float;
  latency_p99 : float;
  inference_count : Z;
  latencies : list float
}.

(** The dictionary [__init__] starts from. *)
Definition initial_metrics : Metrics := mkMetrics 0 0 0 0 [].

(** The dictionary [get_metrics] returns. *)
Record MetricsReport : Type := mkMetricsReport {
  report_inference_count : Z;
  latency_p50_ms : float;
  latency_p95_ms : float;
  latency_p99_ms : float;
  throughput_fps : float
}.

(** [sorted(l)]: the stable ascending sort, by insertion of each element
    behind those not greater than it.  On a list without NaN every stable
    sort that compares with [<] returns this list; with a NaN in it the
    order Python's merge sort leaves depends on its runs and may differ
    from this one.  The latencies are differences of two clock readings,
    and what is stated of the sorted list below is stated for lists
    without NaN or does not depend on the order. *)
Fixpoint insort (x : float) (l : list float) : list float :=
  match l with
  | [] => [x]
  | y :: rest => if (x <? y)%float then x :: y :: rest else y :: insort x rest
  end.

Definition sorted (l : list float) : list float :=
  foldl (fun acc x => insort x acc) [] l.

(** [l[i]] on a list, with Python's negative indices. *)
Definition getitem (l : list float) (i : Z) : result float :=
  let n := Z.of_nat (length l) in
  let j := if i <? 0 then i + n else i in
  match (if (0 <=? j) && (j <? n) then l !! Z.to_nat j else None) with
  | Some x => Ok x
  | None => Raise (IndexError "list index out of range")
  end.

(** [l[-k:]] for a positive [k]. *)
Definition last_n (k : nat) (l : list float) : list float :=
  drop (length l - k) l.

Definition update_metrics (self : Metrics) (latency_ms : float) : result Metrics :=
  let inference_count := inference_count self + 1 in
  let latencies := latencies self ++ [latency_ms] in
  let latencies :=
    if decide (1000 < length latencies)%nat then last_n 1000 latencies
    else latencies in
  if decide (0 < length latencies)%nat then
    let sorted_latencies := sorted latencies in
    let n := Z.of_nat (length sorted_latencies) in
    i50 ← int (float_of_int n * 0.5)%float;
    p50 ← getitem sorted_latencies i50;
    i95 ← int (float_of_int n * 0.95)%float;
    p95 ← getitem sorted_latencies i95;
    i99 ← int (float_of_int n * 0.99)%float;
    p99 ← getitem sorted_latencies i99;
    Ok {| latency_p50 := p50; latency_p95 := p95; latency_p99 := p99;
          inference_count := inference_count; latencies := latencies |}
  else
    Ok {| latency_p50 := latency_p50 self; latency_p95 := latency_p95 self;
          latency_p99 := latency_p99 self;
          inference_count := inference_count; latencies := latencies |}.

Definition get_metrics (self : Metrics) : result MetricsReport :=
  throughput ←
    (if (0 <? latency_p50 self)%float
     then float_truediv 1000 (latency_p50 self)
     else Ok 0%float);
  Ok {| report_inference_count := inference_count self;
        latency_p50_ms := round2 (latency_p50 self);
        latency_p95_ms := round2 (latency_p95 self);
        latency_p99_ms := round2 (latency_p99 self);
        throughput_fps := round2 throughput |}.

End model_loader.

(* ===================================================================== *)
(** ** [services/posture_estimation.py] *)
(* ===================================================================== *)

Module posture_estimation.

Import model_loader.

(** The module-level [_model_loader] and [_pose_pipeline]: whether each
    is set. *)
Record Globals : Type := mkGlobals {
  _model_loader : bool;
  _pose_pipeline : bool
}.

(** The state at import time: both are [None]. *)
Definition initial_globals : Globals := mkGlobals false false.

(** An element of ["postures"]. *)
Record Posture : Type := mkPosture {
  posture_keypoints : list Keypoint;
  posture_ergonomic_features : Features;
  num_keypoints : nat
}.

(** The dictionary [estimate_posture] returns; [None] for ["metrics"] is
    the empty dictionary, [None] for the other two a key left out. *)
Record PostureResult : Type := mkPostureResult {
  postures : list Posture;
  metrics : option MetricsReport;
  warning : option string;
  posture_error : option string
}.

Section Service.

Variable np_arctan2 : float -> float -> float.
Variable np_arccos : float -> float.
Variable np_degrees : float -> float.
Variable np_dot : float * float -> float * float -> float.
Variable np_linalg_norm : float * float -> float.
Variable config : Config.
Variable World : Type.
Variable cv2_imread : string -> World -> option ndarray.
Variable cv2_to_batch : ndarray -> list nat -> result ndarray.
Variable session_loaded : World -> bool.
Variable session_run : ndarray -> World -> result ndarray * World.

(** [ModelLoader()], which reads the loader's configuration and may raise
    doing so; [ModelLoader.load_model], which reads the model file and
    builds the session; and the loader's [metrics] dictionary as the
    world holds it.  [load_model] returns [False] for a missing model
    file and for whatever is raised inside its [try], and raises itself
    where it reads [self.config] before the [try]: on a configuration
    document that is not a mapping. *)
Variable ModelLoader : World -> result unit.
Variable load_model : World -> result bool * World.
Variable loader_metrics : World -> Metrics.

(** The function returns [None] and works on the two globals, which are
    given back next to the outcome: an exception leaves them as they are
    at the statement that raised.  One of the constructor leaves both as
    they were; one of [load_model] comes after [_model_loader] has been
    assigned, and before [_pose_pipeline] is. *)
Definition initialize_models (g : Globals) (w : World)
  : result unit * Globals * World :=
  if negb (_model_loader g) then
    match ModelLoader w with
    | Raise e => (Raise e, g, w)
    | Ok _ =>
        let g := {| _model_loader := true;
                    _pose_pipeline := _pose_pipeline g |} in
        let '(loaded, w) := load_model w in
        match loaded with
        | Raise e => (Raise e, g, w)
        | Ok loaded =>
            (Ok (), {| _model_loader := true; _pose_pipeline := loaded |}, w)
        end
    end
  else (Ok (), g, w).

Definition estimate_posture (g : Globals) (file_path : string) (w : World)
  : PostureResult * World :=
  if negb (_pose_pipeline g) then
    ({| postures := [];
        metrics := None;
        warning := Some "Model not loaded - place ONNX model in models/ directory";
        posture_error := None |}, w)
  else
    let '(result, w) :=
      process_image np_arctan2 np_arccos np_degrees np_dot np_linalg_norm
        config World cv2_imread cv2_to_batch session_loaded session_run
        file_path w in
    if success result then
      match get_metrics (loader_metrics w) with
      | Ok report =>
          ({| postures :=
                [ {| posture_keypoints := keypoints result;
                     posture_ergonomic_features := ergonomic_features result;
                     num_keypoints := num_keypoints_detected result |} ];
              metrics := Some report;
              warning := None;
              posture_error := None |}, w)
      | Raise e =>
          ({| postures := []; metrics := None; warning := None;
              posture_error := Some (str e) |}, w)
      end
    else
      ({| postures := []; metrics := None; warning := None;
          posture_error := result_error result |}, w).

End Service.

End posture_estimation.

(* ===================================================================== *)
(** ** [routers/process.py] *)
(* ===================================================================== *)

Module process_router.

Import scorer_config posture_estimation.

(** The dictionary the [/image] endpoint returns. *)
Record ImageResponse : Type := mkImageResponse {
  status : string;
  posture : option PostureResult;
  risk_assessment : option RiskAssessment;
  response_error : option string
}.

Section Router.

Variable np_arctan2 : float -> float -> float.
Variable np_arccos : float -> float.
Variable np_degrees : float -> float.
Variable np_dot : float * float -> float * float -> float.
Variable np_linalg_norm : float * float -> float.
Variable config : Config.
Variable World : Type.
Variable cv2_imread : string -> World -> option ndarray.
Variable cv2_to_batch : ndarray -> list nat -> result ndarray.
Variable session_loaded : World -> bool.
Variable session_run : ndarray -> World -> result ndarray * World.
Variable loader_metrics : World -> model_loader.Metrics.
Variable path_exists : string -> World -> bool.
Variable yaml_safe_load : string -> World -> result Document.

(** The upload copied into a named temporary file, whose path is
    returned; and [Path(tmp_path).unlink(missing_ok=True)].  Either may
    raise. *)
Variable UploadFile : Type.
Variable save_upload : UploadFile -> World -> result string * World.
Variable unlink : string -> World -> result unit * World.

Definition error_response (e : exn) : ImageResponse :=
  {| status := "error"; posture := None; risk_assessment := None;
     response_error := Some (str e) |}.

Definition process_image (file : UploadFile) (g : Globals)
    (_scorer : option BiomechanicalScorer) (w : World)
  : ImageResponse * option BiomechanicalScorer * World :=
  let '(tmp_path, w) := save_upload file w in
  match tmp_path with
  | Raise e => (error_response e, _scorer, w)
  | Ok tmp_path =>
      let '(posture_result, w) :=
        estimate_posture np_arctan2 np_arccos np_degrees np_dot np_linalg_norm
          config World cv2_imread cv2_to_batch session_loaded session_run
          loader_metrics g tmp_path w in
      let '(risk_result, _scorer) :=
        match postures posture_result with
        | first_posture :: _ =>
            compute_risk_call World path_exists yaml_safe_load
              {[ "ergonomic_features" := posture_ergonomic_features first_posture ]}
              _scorer w
        | [] => (Ok null_result, _scorer)
        end in
      match risk_result with
      | Raise e => (error_response e, _scorer, w)
      | Ok risk_result =>
          let '(unlinked, w) := unlink tmp_path w in
          match unlinked with
          | Raise e => (error_response e, _scorer, w)
          | Ok _ =>
              ({| status := "success";
                  posture := Some posture_result;
                  risk_assessment := Some risk_result;
                  response_error := None |}, _scorer, w)
          end
      end
  end.

End Router.

End process_router.

(* ===================================================================== *)
(** ** Vocabulary of the further properties *)
(* ===================================================================== *)

Import scorer_config model_loader posture_estimation.

(** The range of a [risk_levels] entry holds the score. *)
Definition holds_score (score : Z) (entry : string * (Z * Z)) : Prop :=
  entry.2.1 <= score <= entry.2.2.

(** A NaN. *)
Definition is_nan (x : float) : bool :=
  match Prim2SF x with
  | S754_nan => true
  | _ => false
  end.

(** One of the four weights the scorer ends up using is a NaN. *)
Definition nan_weight (scorer : BiomechanicalScorer) : Prop :=
  is_nan (weights_get scorer "neck" 0.20) = true \/
  is_nan (weights_get scorer "trunk" 0.25) = true \/
  is_nan (weights_get scorer "upper_arm" 0.20) = true \/
  is_nan (weights_get scorer "lower_arm" 0.15) = true.

(** The REBA arithmetic under the default weights. *)
Definition default_reba_of (n t u l : Z) : result Z :=
  int ((float_of_int n * 0.20 + float_of_int t * 0.25 +
        float_of_int u * 0.20 + float_of_int l * 0.15) * 25)%float.

Definition result_le (a b : result Z) : bool :=
  match a, b with
  | Ok a, Ok b => a <=? b
  | _, _ => false
  end.

(** The four features whose angle RULA reads. *)
Definition rula_features : list string :=
  [ "left_shoulder_abduction"; "left_elbow_flexion";
    "neck_flexion"; "trunk_flexion" ].

(** The six features the two score computations read. *)
Definition scored_features : list string :=
  [ "neck_flexion"; "trunk_flexion";
    "left_shoulder_abduction"; "right_shoulder_abduction";
    "left_elbow_flexion"; "right_elbow_flexion" ].

(** The score fields of two assessments are the same. *)
Definition same_scores (r r' : RiskAssessment) : Prop :=
  rula r = rula r' /\ reba r = reba r' /\ niosh r = niosh r' /\
  composite r = composite r' /\ traffic_light r = traffic_light r' /\
  risk_level r = risk_level r' /\ error r = error r'.

(** A file system for the scorer's configuration: the world is the
    document in [src/config/models.yaml], if the file is there. *)
Definition sample_path_exists (config_path : string) (w : option Document)
  : bool :=
  bool_decide (is_Some w).

Definition sample_yaml_safe_load (config_path : string)
    (w : option Document) : result Document :=
  match w with
  | Some document => Ok document
  | None => Raise (ValueError "no such file")
  end.

(** A configuration that sets the risk levels only. *)
Definition levels_only : ScorerConfig :=
  mkScorerConfig None
    (Some (mkRiskScoring None (Some [("fine", (0, 50)); ("bad", (51, 100))]))).

(** The number of fields of a record that hold a value. *)
Definition observed (f : Features) : nat :=
  length (filter (fun v => is_Some v) (map_to_list f).*2).

(** The composite confidence of an eight-field record, by the number of
    fields that hold a value. *)
Definition confidence_by_observed : list float :=
  [ 0; 0.12; 0.25; 0.38; 0.5; 0.62; 0.75; 0.88; 1 ]%float.

(** The keypoints of a list that do not bear the name. *)
Definition none_named (name : string) (kps : list Keypoint) : Prop :=
  Forall (fun kp => kp_name kp <> name) kps.

(** The nine keypoint names the feature extractor looks up. *)
Definition joint_names : list string :=
  [ "nose"; "left_shoulder"; "right_shoulder"; "left_elbow"; "right_elbow";
    "left_wrist"; "right_wrist"; "left_hip"; "right_hip" ].

(** A configuration that names three keypoints, at two thresholds. *)
Definition three_named (threshold : float) : Config :=
  mkConfig (Some (mkPoseConfig None (Some threshold)
                    (Some ["nose"; "left_eye"; "right_eye"]))).

(** The keypoint bears the name the decoder makes up for its index. *)
Definition synthesized_name (kp : Keypoint) : Prop :=
  kp_name kp = "keypoint_" +:+ pretty (kp_id kp).

(** The assessment of a record whose fields are all unknown, under the
    default configuration. *)
Definition all_zero_assessment : RiskAssessment :=
  {| rula := Some 0; reba := Some 0; niosh := None; composite := Some 0;
     confidence := Some 0%float;
     traffic_light := Some "green";
     risk_level := Some "negligible";
     details := Some (mkReba 0 0 0 0 0 0, mkRula 0 0 0 0);
     error := None |}.

(** The keypoint's confidence reaches the threshold. *)
Definition confident (threshold : float) (kp : Keypoint) : Prop :=
  (threshold <=? kp_confidence kp)%float = true.

#[global] Instance confident_dec (threshold : float) (kp : Keypoint) :
  Decision (confident threshold kp) :=
  decide ((threshold <=? kp_confidence kp)%float = true).

(** The extractor and the orchestrator run with stand-ins for the
    numerical kernels, under the loader's default configuration. *)
Definition default_extract_keypoints : ndarray -> result (list Keypoint) :=
  extract_keypoints model_loader._get_default_config.

(** A world without a session. *)
Definition stub_process_batch : list string -> nat -> list ProcessResult * nat :=
  process_batch (fun _ _ => 0%float) (fun _ => 0%float) (fun a => a)
    (fun _ _ => 0%float) (fun _ => 0%float)
    nose_named nat sample_imread sample_to_batch (fun _ => false)
    sample_session_run.

(** Ascending order: each element is at most every later one. *)
Fixpoint ascending (l : list float) : Prop :=
  match l with
  | [] => True
  | x :: rest => Forall (fun y => (x <=? y)%float = true) rest /\ ascending rest
  end.

(** No element is a NaN. *)
Definition all_numbers (l : list float) : Prop :=
  Forall (fun x => is_nan x = false) l.

(** The metrics after three inferences. *)
Definition three_inferences : Metrics :=
  mkMetrics 12.5 30.25 30.25 3 [30.25; 8; 12.5]%float.

(** The stub response of [estimate_posture]. *)
Definition stub_posture : PostureResult :=
  {| postures := [];
     metrics := None;
     warning := Some "Model not loaded - place ONNX model in models/ directory";
     posture_error := None |}.

(** A world that counts inferences, in which the model file is missing. *)
Definition missing_model (w : nat) : result bool * nat := (Ok false, w).

Definition sample_initialize_models
  : Globals -> nat -> result unit * Globals * nat :=
  initialize_models nat (fun _ => Ok ()) missing_model.

(** The same world with an empty configuration file for the loader:
    [self.config] is [None]. *)
Definition empty_config (w : nat) : result bool * nat :=
  (Raise (AttributeError "'NoneType' object has no attribute 'get'"), w).

Definition empty_config_initialize_models
  : Globals -> nat -> result unit * Globals * nat :=
  initialize_models nat (fun _ => Ok ()) empty_config.

Definition sample_estimate_posture : Globals -> string -> nat -> PostureResult * nat :=
  estimate_posture (fun _ _ => 0%float) (fun _ => 0%float) (fun a => a)
    (fun _ _ => 0%float) (fun _ => 0%float)
    nose_named nat sample_imread sample_to_batch (fun _ => true)
    sample_session_run (fun _ => initial_metrics).

(** A tensor of rank 4, one confident keypoint in it, and an orchestrator
    whose session returns it. *)
Definition rank_four : ndarray :=
  mkArray float32 [1; 1; 1; 3]%nat [ 0.25; 0.5; 0.875 ]%float.

Definition rank_four_process_image : string -> nat -> ProcessResult * nat :=
  process_image (fun _ _ => 0%float) (fun _ => 0%float) (fun a => a)
    (fun _ _ => 0%float) (fun _ => 0%float)
    nose_named nat sample_imread sample_to_batch (fun _ => true)
    (fun _ w => (Ok rank_four, S w)).

(* ===================================================================== *)
(** ** Facts about binary64 comparison and conversion *)
(* ===================================================================== *)

Ltac compare_cases :=
  repeat match goal with
  | H : context [Z.compare ?a ?b] |- _ =>
      destruct (Z.compare_spec a b); simpl in H
  | |- context [Z.compare ?a ?b] =>
      destruct (Z.compare_spec a b); simpl
  | H : context [Pos.compare_cont Eq ?a ?b] |- _ =>
      change (Pos.compare_cont Eq a b) with (Pos.compare a b) in H;
      destruct (Pos.compare_spec a b); simpl in H
  | |- context [Pos.compare_cont Eq ?a ?b] =>
      change (Pos.compare_cont Eq a b) with (Pos.compare a b);
      destruct (Pos.compare_spec a b); simpl
  end.

Lemma SFleb_ltb_trans (x y z : spec_float) :
  SFleb x y = true -> SFltb y z = true -> SFltb x z = true.
Proof.
  unfold SFleb, SFltb.
  destruct x as [[]|[]| |[] mx ex], y as [[]|[]| |[] my ey],
           z as [[]|[]| |[] mz ez];
    simpl; try congruence; intros Hxy Hyz;
    compare_cases; subst; try congruence; try lia.
Qed.

Lemma float_le_lt_trans (x y z : float) :
  (x <=? y)%float = true -> (y <? z)%float = true -> (x <? z)%float = true.
Proof. rewrite FloatAxioms.leb_spec, !FloatAxioms.ltb_spec. apply SFleb_ltb_trans. Qed.

(** A float that equals zero is not above zero. *)
Lemma float_eq_zero_not_pos (x : float) :
  (x =? 0)%float = true -> (0 <? x)%float = false.
Proof.
  rewrite FloatAxioms.eqb_spec, FloatAxioms.ltb_spec. unfold SFeqb, SFltb.
  change (Prim2SF 0) with (S754_zero false).
  destruct (Prim2SF x) as [[]|[]| |[] m e]; simpl; congruence.
Qed.

Lemma float_pos_not_zero (x : float) :
  (0 <? x)%float = true -> (x =? 0)%float = false.
Proof.
  intros H. destruct (x =? 0)%float eqn:E; [|done].
  apply float_eq_zero_not_pos in E. congruence.
Qed.

(** An absolute value that is a number is above zero unless it is zero. *)
Lemma float_abs_pos_iff_nonzero (x : float) :
  (abs x =? abs x)%float = true ->
  ((0 <? abs x)%float = true <-> (abs x =? 0)%float = false).
Proof.
  rewrite FloatAxioms.ltb_spec, !FloatAxioms.eqb_spec, abs_spec.
  unfold SFeqb, SFltb. change (Prim2SF 0) with (S754_zero false).
  destruct (Prim2SF x) as [s|s| |s m e]; simpl; try done.
Qed.

(* ===================================================================== *)
(** ** Angle-to-ordinal scoring *)
(* ===================================================================== *)

Lemma score_angle_range (angle : option float) (th : Thresholds) :
  0 <= _score_angle angle th <= 4.
Proof.
  unfold _score_angle. destruct angle as [a|]; [|lia].
  repeat case_match; lia.
Qed.

(** C6.  [_score_angle] gives 0 to a missing angle and otherwise runs the
    cascade 1 if angle < low, 2 if angle < medium, 3 if angle < high, else
    4; and it is monotonic non-decreasing in the angle: [a1 <= a2] implies
    [ordinal a1 <= ordinal a2].  Monotonicity holds for every threshold
    triple, in particular for those with low <= medium <= high. *)
Theorem score_angle_cascade_monotone (th : Thresholds) :
  _score_angle None th = 0 /\
  (forall a,
     ((a <? low th)%float = true -> _score_angle (Some a) th = 1) /\
     ((a <? low th)%float = false -> (a <? medium th)%float = true ->
        _score_angle (Some a) th = 2) /\
     ((a <? low th)%float = false -> (a <? medium th)%float = false ->
        (a <? high th)%float = true -> _score_angle (Some a) th = 3) /\
     ((a <? low th)%float = false -> (a <? medium th)%float = false ->
        (a <? high th)%float = false -> _score_angle (Some a) th = 4)) /\
  (forall a1 a2,
     (a1 <=? a2)%float = true ->
     _score_angle (Some a1) th <= _score_angle (Some a2) th).
Proof.
  split; [reflexivity|]. split.
  - intros a. unfold _score_angle.
    repeat split; intros; repeat case_match; congruence.
  - intros a1 a2 Hle.
    pose proof (float_le_lt_trans a1 a2 (low th) Hle) as Hl.
    pose proof (float_le_lt_trans a1 a2 (medium th) Hle) as Hm.
    pose proof (float_le_lt_trans a1 a2 (high th) Hle) as Hh.
    unfold _score_angle.
    destruct (a2 <? low th)%float; [rewrite Hl by done; lia|].
    destruct (a2 <? medium th)%float;
      [rewrite Hm by done; destruct (a1 <? low th)%float; lia|].
    destruct (a2 <? high th)%float;
      [rewrite Hh by done; repeat case_match; lia|].
    repeat case_match; lia.
Qed.

Lemma score_angle_cascade_monotone_witness :
  (30 <=? 50)%float = true /\
  _score_angle (Some 30%float) (mkThresholds 20 45 60)
    <= _score_angle (Some 50%float) (mkThresholds 20 45 60).
Proof.
  split; [reflexivity|].
  apply (score_angle_cascade_monotone (mkThresholds 20 45 60)).
  reflexivity.
Defined.

(* ===================================================================== *)
(** ** Completeness ratio *)
(* ===================================================================== *)

Lemma int_truediv_nonzero (a b : Z) :
  b <> 0 -> int_truediv a b = Ok (SF2Prim (SFdiv prec emax (Z2SF a) (Z2SF b))).
Proof. intros Hb. unfold int_truediv. by apply Z.eqb_neq in Hb as ->. Qed.

(** The guard on an empty dictionary is the only division by zero in
    sight: [_calculate_confidence] always returns. *)
Lemma calculate_confidence_total (f : Features) :
  exists c, _calculate_confidence f = Ok c.
Proof.
  unfold _calculate_confidence. case_decide; [eauto|].
  rewrite int_truediv_nonzero by lia. eauto.
Qed.

Lemma no_value_observed (l : list (string * option float)) :
  Forall (fun kv => kv.2 = None) l ->
  filter (fun v : option float => is_Some v) (l.*2) = [].
Proof.
  induction 1 as [|[k v] l Hv _ IH]; [done|]. simpl in *. subst v.
  rewrite filter_cons_False; [done|]. by intros [? ?].
Qed.

Lemma calculate_confidence_unknown (f : Features) :
  all_unknown f -> _calculate_confidence f = Ok 0%float.
Proof.
  intros Hf. unfold _calculate_confidence. case_decide; [done|].
  rewrite no_value_observed.
  - rewrite int_truediv_nonzero by lia. simpl.
    destruct (Z.of_nat (size f)) eqn:E; [lia|reflexivity|lia].
  - apply map_Forall_to_list in Hf. eapply Forall_impl; [exact Hf|].
    by intros [k v].
Qed.

(* ===================================================================== *)
(** ** Scoring a record of unknowns *)
(* ===================================================================== *)

Lemma zero_ordinal_weighs_nothing (w : float) :
  is_finite w = true -> is_zero_float (float_of_int 0 * w).
Proof.
  unfold is_finite, is_zero_float. rewrite mul_spec.
  change (Prim2SF (float_of_int 0)) with (S754_zero false).
  destruct (Prim2SF w) as [s|s| |s m e]; simpl; try done; eauto.
Qed.

Lemma zero_add_zero (a b : float) :
  is_zero_float a -> is_zero_float b -> is_zero_float (a + b).
Proof.
  intros [sa Ha] [sb Hb]. unfold is_zero_float.
  rewrite add_spec, Ha, Hb. destruct sa, sb; simpl; eauto.
Qed.

Lemma zero_scaled (a c : float) :
  is_finite c = true -> is_zero_float a -> is_zero_float (a * c).
Proof.
  unfold is_finite. intros Hc [sa Ha]. unfold is_zero_float.
  rewrite mul_spec, Ha.
  destruct (Prim2SF c) as [s|s| |s m e]; simpl; try done; eauto.
Qed.

(** A product that is zero leaves the [1e-6] term as the whole sum. *)
Lemma zero_product_plus_epsilon (n1 n2 : float) :
  is_zero_float n1 -> is_finite n2 = true ->
  (n1 * n2 + 1e-6)%float = 1e-6%float.
Proof.
  intros Hn1 Hn2. destruct (zero_scaled n1 n2 Hn2 Hn1) as [s Hs].
  apply Prim2SF_inj. rewrite add_spec, Hs.
  destruct (Prim2SF 1e-6) as [?|?| |? ? ?] eqn:E;
    try (vm_compute in E; discriminate E).
  reflexivity.
Qed.

Lemma int_of_zero (a : float) : is_zero_float a -> int a = Ok 0.
Proof. intros [s Ha]. unfold int. by rewrite Ha. Qed.

Lemma feature_get_unknown (f : Features) (k : string) :
  all_unknown f -> feature_get f k = None.
Proof.
  intros Hf. unfold feature_get.
  destruct (f !! k) as [v|] eqn:E; [|done]. simpl. by apply (Hf k).
Qed.

Lemma reba_of_unknown (scorer : BiomechanicalScorer) (f : Features) :
  all_unknown f -> finite_weights scorer ->
  calculate_reba_score scorer f = Ok (mkReba 0 0 0 0 0 0).
Proof.
  intros Hf (Hn & Ht & Hu & Hl). unfold calculate_reba_score.
  rewrite !feature_get_unknown by done. simpl _score_angle.
  rewrite int_of_zero.
  - simpl. rewrite calculate_confidence_unknown by done. reflexivity.
  - apply zero_scaled; [reflexivity|].
    repeat apply zero_add_zero; by apply zero_ordinal_weighs_nothing.
Qed.

Lemma rula_of_unknown (scorer : BiomechanicalScorer) (f : Features) :
  all_unknown f -> calculate_rula_score scorer f = Ok (mkRula 0 0 0 0).
Proof.
  intros Hf. unfold calculate_rula_score.
  rewrite !feature_get_unknown by done. simpl _score_angle.
  change (int (float_of_int (0 + 0 + (0 + 0)) * 12.5)) with (Ok 0 : result Z).
  simpl. rewrite calculate_confidence_unknown by done. reflexivity.
Qed.

Lemma inputs_of_get (f : Features) :
  default ∅ (inputs_of f !! "ergonomic_features") = f.
Proof. unfold inputs_of. by rewrite lookup_singleton_eq. Qed.

(** C1 (amended).  [compute_risk] returns null scores when no features are
    supplied or the features record is empty.  A non-empty record whose
    fields are all unknown is scored like any other: with finite weights
    every ordinal is 0, so rula = reba = composite = 0 at confidence 0.0,
    the traffic light is green and the band is the one the table gives
    score 0. *)
Theorem compute_risk_empty_versus_unknown (scorer : BiomechanicalScorer) :
  compute_risk scorer ∅ = null_result /\
  compute_risk scorer (inputs_of ∅) = null_result /\
  scores_null null_result /\
  forall f : Features,
    f <> ∅ -> all_unknown f -> finite_weights scorer ->
    compute_risk scorer (inputs_of f) =
      {| rula := Some 0; reba := Some 0; niosh := None; composite := Some 0;
         confidence := Some 0%float;
         traffic_light := Some "green";
         risk_level := Some (get_risk_level scorer 0);
         details := Some (mkReba 0 0 0 0 0 0, mkRula 0 0 0 0);
         error := None |}.
Proof.
  split; [reflexivity|]. split; [reflexivity|]. split; [by repeat split|].
  intros f Hne Hf Hw. unfold compute_risk. rewrite inputs_of_get.
  case_decide as Hsize; [by apply map_size_empty_iff in Hsize|].
  rewrite reba_of_unknown, rula_of_unknown by done. reflexivity.
Qed.

Lemma unknown_features_all_unknown : all_unknown unknown_features.
Proof.
  apply map_Forall_to_list. vm_compute map_to_list.
  repeat constructor.
Qed.

Lemma unknown_features_nonempty : unknown_features <> ∅.
Proof.
  intros H. apply (f_equal size) in H. vm_compute in H. discriminate.
Qed.

Lemma default_scorer_finite_weights : finite_weights default_scorer.
Proof. repeat split; reflexivity. Qed.

Lemma compute_risk_empty_versus_unknown_witness :
  unknown_features <> ∅ /\ all_unknown unknown_features /\
  finite_weights default_scorer /\
  risk_level (compute_risk default_scorer (inputs_of unknown_features))
    = Some "negligible".
Proof.
  split; [exact unknown_features_nonempty|].
  split; [exact unknown_features_all_unknown|].
  split; [exact default_scorer_finite_weights|].
  destruct (compute_risk_empty_versus_unknown default_scorer)
    as (_ & _ & _ & H).
  rewrite (H unknown_features unknown_features_nonempty
             unknown_features_all_unknown default_scorer_finite_weights).
  reflexivity.
Defined.

(** C1 (as stated) fails: the record whose eight fields are all unknown is
    not empty, and the default scorer gives it the scores 0, 0, 0, a green
    light and the band "negligible". *)
Lemma unknown_features_get_zero_scores :
  all_unknown unknown_features /\
  dom unknown_features = list_to_set feature_names /\
  rula (compute_risk default_scorer (inputs_of unknown_features)) = Some 0 /\
  reba (compute_risk default_scorer (inputs_of unknown_features)) = Some 0 /\
  composite (compute_risk default_scorer (inputs_of unknown_features)) = Some 0 /\
  traffic_light (compute_risk default_scorer (inputs_of unknown_features))
    = Some "green" /\
  risk_level (compute_risk default_scorer (inputs_of unknown_features))
    = Some "negligible" /\
  ~ scores_null (compute_risk default_scorer (inputs_of unknown_features)).
Proof.
  split; [exact unknown_features_all_unknown|]. split.
  - unfold unknown_features. rewrite dom_list_to_map_L.
    by rewrite <- list_fmap_compose.
  - repeat (split; [vm_compute; reflexivity|]).
    intros (H & _). vm_compute in H. discriminate.
Qed.

(* ===================================================================== *)
(** ** The three truncations *)
(* ===================================================================== *)

Lemma ordinal_in_table (k : Z) : 0 <= k <= 4 -> In k ordinals.
Proof.
  intros H. unfold ordinals. simpl.
  assert (k = 0 \/ k = 1 \/ k = 2 \/ k = 3 \/ k = 4) by lia. intuition.
Qed.

Lemma default_reba_arithmetic (n t u l : Z) :
  0 <= n <= 4 -> 0 <= t <= 4 -> 0 <= u <= 4 -> 0 <= l <= 4 ->
  exists k,
    int ((float_of_int n * 0.20 + float_of_int t * 0.25 +
          float_of_int u * 0.20 + float_of_int l * 0.15) * 25)%float = Ok k /\
    0 <= k <= 80.
Proof.
  intros Hn Ht Hu Hl.
  assert (default_reba_in_range = true) as H by (vm_compute; reflexivity).
  unfold default_reba_in_range in H.
  rewrite forallb_forall in H. specialize (H n (ordinal_in_table n Hn)).
  rewrite forallb_forall in H. specialize (H t (ordinal_in_table t Ht)).
  rewrite forallb_forall in H. specialize (H u (ordinal_in_table u Hu)).
  rewrite forallb_forall in H. specialize (H l (ordinal_in_table l Hl)).
  destruct (int _) as [k|e]; [|done].
  exists k. split; [done|]. lia.
Qed.

Lemma rula_arithmetic (s : Z) :
  0 <= s <= 16 -> int (float_of_int s * 12.5)%float = Ok (25 * s / 2).
Proof.
  intros Hs.
  assert (rula_truncates = true) as H by (vm_compute; reflexivity).
  unfold rula_truncates in H. rewrite forallb_forall in H.
  specialize (H s). destruct (int _) as [k|e].
  - f_equal. apply Z.eqb_eq, H, list_elem_of_In, elem_of_seqZ. lia.
  - exfalso. assert (false = true); [|done].
    apply H, list_elem_of_In, elem_of_seqZ. lia.
Qed.

Lemma composite_arithmetic (s : Z) :
  0 <= s <= 200 -> int_truediv s 2 ≫= int = Ok (s / 2).
Proof.
  intros Hs.
  assert (composite_truncates = true) as H by (vm_compute; reflexivity).
  unfold composite_truncates in H. rewrite forallb_forall in H.
  specialize (H s). destruct (int_truediv s 2 ≫= int) as [k|e].
  - f_equal. apply Z.eqb_eq, H, list_elem_of_In, elem_of_seqZ. lia.
  - exfalso. assert (false = true); [|done].
    apply H, list_elem_of_In, elem_of_seqZ. lia.
Qed.

(* ===================================================================== *)
(** ** REBA *)
(* ===================================================================== *)

Lemma arm_angle_chain (left right : option float) :
  match left, right with
  | Some l, Some r => Some ((l + r) / 2)%float
  | Some l, None => Some l
  | None, Some r => Some r
  | None, None => None
  end = arm_angle left right.
Proof. by destruct left, right. Qed.

Lemma calculate_reba_score_unfold (scorer : BiomechanicalScorer) (f : Features) :
  let neck := _score_angle (feature_get f "neck_flexion") (neck_thresholds scorer) in
  let trunk := _score_angle (feature_get f "trunk_flexion") (trunk_thresholds scorer) in
  let upper_arm :=
    _score_angle (arm_angle (feature_get f "left_shoulder_abduction")
                            (feature_get f "right_shoulder_abduction"))
      (shoulder_thresholds scorer) in
  let lower_arm :=
    _score_angle (arm_angle (feature_get f "left_elbow_flexion")
                            (feature_get f "right_elbow_flexion"))
      (elbow_thresholds scorer) in
  calculate_reba_score scorer f =
    (k ← int (weighted_sum scorer neck trunk upper_arm lower_arm * 25)%float;
     c ← _calculate_confidence f;
     Ok (mkReba (Z.min k 100) neck trunk upper_arm lower_arm c)).
Proof.
  unfold calculate_reba_score. rewrite !arm_angle_chain. reflexivity.
Qed.

Lemma calculate_reba_score_default (scorer : BiomechanicalScorer) (f : Features) :
  default_weights scorer ->
  exists r, calculate_reba_score scorer f = Ok r /\ 0 <= reba_score r <= 80.
Proof.
  intros (Hn & Ht & Hu & Hl). rewrite calculate_reba_score_unfold.
  unfold weighted_sum. rewrite Hn, Ht, Hu, Hl.
  edestruct default_reba_arithmetic as (k & -> & Hk);
    [apply score_angle_range..|].
  destruct (calculate_confidence_total f) as [c ->].
  eexists. split; [reflexivity|]. simpl. lia.
Qed.

(** C3 (amended).  The REBA score is [int(weighted_sum × 25)] — truncated
    toward zero, not rounded — capped at 100 by [min], where
    [weighted_sum = Σ ordinal_i × weight_i] over neck, trunk, upper arm and
    lower arm, and each arm ordinal is taken on the average of both side
    angles when both are observed, on the one observed side otherwise, and
    is 0 when neither is.  Under the default weights the score always
    exists and lies between 0 and 80. *)
Theorem reba_score_truncates_weighted_sum
    (scorer : BiomechanicalScorer) (f : Features) :
  let neck := _score_angle (feature_get f "neck_flexion") (neck_thresholds scorer) in
  let trunk := _score_angle (feature_get f "trunk_flexion") (trunk_thresholds scorer) in
  let upper_arm :=
    _score_angle (arm_angle (feature_get f "left_shoulder_abduction")
                            (feature_get f "right_shoulder_abduction"))
      (shoulder_thresholds scorer) in
  let lower_arm :=
    _score_angle (arm_angle (feature_get f "left_elbow_flexion")
                            (feature_get f "right_elbow_flexion"))
      (elbow_thresholds scorer) in
  (forall r, calculate_reba_score scorer f = Ok r ->
     reba_neck_score r = neck /\ reba_trunk_score r = trunk /\
     reba_upper_arm_score r = upper_arm /\ reba_lower_arm_score r = lower_arm /\
     exists k,
       int (weighted_sum scorer neck trunk upper_arm lower_arm * 25)%float = Ok k /\
       reba_score r = Z.min k 100) /\
  (default_weights scorer ->
     exists r, calculate_reba_score scorer f = Ok r /\ 0 <= reba_score r <= 80) /\
  _score_angle (arm_angle None None) (shoulder_thresholds scorer) = 0 /\
  _score_angle (arm_angle None None) (elbow_thresholds scorer) = 0.
Proof.
  intros neck trunk upper_arm lower_arm. split; [|split; [|done]].
  - intros r. rewrite calculate_reba_score_unfold.
    fold neck trunk upper_arm lower_arm.
    destruct (int _) as [k|e]; [|done]. simpl.
    destruct (_calculate_confidence f) as [c|e]; [|done]. simpl.
    intros [= <-]. simpl. eauto 10.
  - apply calculate_reba_score_default.
Qed.

Lemma default_scorer_default_weights : default_weights default_scorer.
Proof. repeat split; reflexivity. Qed.

Lemma reba_score_truncates_weighted_sum_witness :
  calculate_reba_score default_scorer bent_worker
    = Ok (mkReba 44 0 4 1 4 0.375) /\
  reba_score (mkReba 44 0 4 1 4 0.375) = Z.min 44 100 /\
  default_weights default_scorer.
Proof.
  assert (calculate_reba_score default_scorer bent_worker
            = Ok (mkReba 44 0 4 1 4 0.375)) as Hrun by (vm_compute; reflexivity).
  split; [exact Hrun|]. split; [|exact default_scorer_default_weights].
  destruct (reba_score_truncates_weighted_sum default_scorer bent_worker)
    as (Hshape & Htotal & _).
  destruct (Htotal default_scorer_default_weights) as (r & Hr & _).
  destruct (Hshape _ Hrun) as (_ & _ & _ & _ & k & Hk & ->).
  vm_compute in Hk. by injection Hk as <-.
Defined.

(** C3 (as stated) fails.  With only the right elbow observed, at 30
    degrees, the weighted sum times 25 is 3.75: the code returns 3 where
    rounding gives 4. *)
Lemma reba_truncates_where_rounding_is_specified :
  calculate_reba_score default_scorer right_elbow_only
    = Ok (mkReba 3 0 0 0 1 0.125) /\
  reba_as_specified default_scorer right_elbow_only = Ok 4.
Proof. split; vm_compute; reflexivity. Qed.

(** Binary rounding makes the gap wider than the fractions suggest: for
    ordinals 0, 4, 1, 4 the exact weighted sum times 25 is 45, the computed
    product lies just below it, and the code returns 44. *)
Lemma reba_truncation_of_inexact_product :
  calculate_reba_score default_scorer bent_worker
    = Ok (mkReba 44 0 4 1 4 0.375) /\
  reba_as_specified default_scorer bent_worker = Ok 45.
Proof. split; vm_compute; reflexivity. Qed.

(* ===================================================================== *)
(** ** RULA *)
(* ===================================================================== *)

Lemma calculate_rula_score_unfold (scorer : BiomechanicalScorer) (f : Features) :
  let group_a :=
    _score_angle (feature_get f "left_shoulder_abduction") (shoulder_thresholds scorer) +
    _score_angle (feature_get f "left_elbow_flexion") (elbow_thresholds scorer) in
  let group_b :=
    _score_angle (feature_get f "neck_flexion") (neck_thresholds scorer) +
    _score_angle (feature_get f "trunk_flexion") (trunk_thresholds scorer) in
  exists c,
    _calculate_confidence f = Ok c /\
    calculate_rula_score scorer f =
      Ok (mkRula (Z.min (25 * (group_a + group_b) / 2) 100) group_a group_b c).
Proof.
  intros group_a group_b.
  destruct (calculate_confidence_total f) as [c Hc]. exists c. split; [done|].
  unfold calculate_rula_score.
  fold (shoulder_thresholds scorer) (elbow_thresholds scorer)
       (neck_thresholds scorer) (trunk_thresholds scorer).
  fold group_a group_b. rewrite rula_arithmetic, Hc; [done|].
  pose proof (score_angle_range (feature_get f "left_shoulder_abduction")
                (shoulder_thresholds scorer)).
  pose proof (score_angle_range (feature_get f "left_elbow_flexion")
                (elbow_thresholds scorer)).
  pose proof (score_angle_range (feature_get f "neck_flexion")
                (neck_thresholds scorer)).
  pose proof (score_angle_range (feature_get f "trunk_flexion")
                (trunk_thresholds scorer)).
  unfold group_a, group_b. lia.
Qed.

Lemma rula_score_range (scorer : BiomechanicalScorer) (f : Features) (r : RulaResult) :
  calculate_rula_score scorer f = Ok r -> 0 <= rula_score r <= 100.
Proof.
  destruct (calculate_rula_score_unfold scorer f) as (c & _ & ->).
  intros [= <-]. simpl.
  pose proof (score_angle_range (feature_get f "left_shoulder_abduction")
                (shoulder_thresholds scorer)).
  pose proof (score_angle_range (feature_get f "left_elbow_flexion")
                (elbow_thresholds scorer)).
  pose proof (score_angle_range (feature_get f "neck_flexion")
                (neck_thresholds scorer)).
  pose proof (score_angle_range (feature_get f "trunk_flexion")
                (trunk_thresholds scorer)).
  split; [|lia]. apply Z.min_glb; [|lia].
  apply Z.div_pos; lia.
Qed.

Lemma feature_get_insert_ne (f : Features) (k k' : string) (v : option float) :
  k <> k' -> feature_get (<[k := v]> f) k' = feature_get f k'.
Proof. intros H. unfold feature_get. by rewrite lookup_insert_ne. Qed.

(** C4 (amended).  The RULA score always exists and is
    [int((group_A + group_B) × 12.5)] — truncated, not rounded, that is
    [25 (group_A + group_B) / 2] rounded down — capped at 100 by [min], so
    it lies in [0,100]; group_A is the sum of the left shoulder abduction
    and left elbow flexion ordinals, whatever the right-side angles are,
    and group_B is the sum of the neck and trunk flexion ordinals. *)
Theorem rula_score_truncates_group_sum
    (scorer : BiomechanicalScorer) (f : Features) :
  let group_a :=
    _score_angle (feature_get f "left_shoulder_abduction") (shoulder_thresholds scorer) +
    _score_angle (feature_get f "left_elbow_flexion") (elbow_thresholds scorer) in
  let group_b :=
    _score_angle (feature_get f "neck_flexion") (neck_thresholds scorer) +
    _score_angle (feature_get f "trunk_flexion") (trunk_thresholds scorer) in
  (exists r,
     calculate_rula_score scorer f = Ok r /\
     group_a_score r = group_a /\ group_b_score r = group_b /\
     int (float_of_int (group_a + group_b) * 12.5)%float
       = Ok (25 * (group_a + group_b) / 2) /\
     rula_score r = Z.min (25 * (group_a + group_b) / 2) 100 /\
     0 <= rula_score r <= 100) /\
  (forall right_shoulder right_elbow : option float,
     group_a_score <$>
       calculate_rula_score scorer
         (<["right_shoulder_abduction" := right_shoulder]>
            (<["right_elbow_flexion" := right_elbow]> f))
     = Ok group_a).
Proof.
  intros group_a group_b. split.
  - destruct (calculate_rula_score_unfold scorer f) as (c & _ & Hr).
    eexists. split; [exact Hr|]. simpl. repeat split; try done.
    + apply rula_arithmetic.
      pose proof (score_angle_range (feature_get f "left_shoulder_abduction")
                    (shoulder_thresholds scorer)).
      pose proof (score_angle_range (feature_get f "left_elbow_flexion")
                    (elbow_thresholds scorer)).
      pose proof (score_angle_range (feature_get f "neck_flexion")
                    (neck_thresholds scorer)).
      pose proof (score_angle_range (feature_get f "trunk_flexion")
                    (trunk_thresholds scorer)).
      unfold group_a, group_b. lia.
    + by apply (rula_score_range scorer f _ Hr).
    + by apply (rula_score_range scorer f _ Hr).
  - intros rs re.
    destruct (calculate_rula_score_unfold scorer
                (<["right_shoulder_abduction" := rs]>
                   (<["right_elbow_flexion" := re]> f))) as (c & _ & ->).
    simpl. by rewrite !feature_get_insert_ne.
Qed.

(** C4 (as stated) fails.  With only the neck observed, at 50 degrees, the
    ordinals sum to 3 and 3 × 12.5 = 37.5: the code returns 37 where
    rounding, to even or half up, gives 38. *)
Lemma rula_truncates_where_rounding_is_specified :
  calculate_rula_score default_scorer neck_only = Ok (mkRula 37 0 3 0.125) /\
  rula_as_specified default_scorer neck_only = Ok 38.
Proof. split; vm_compute; reflexivity. Qed.

(* ===================================================================== *)
(** ** Composite *)
(* ===================================================================== *)

Lemma reba_score_capped (scorer : BiomechanicalScorer) (f : Features) (r : RebaResult) :
  calculate_reba_score scorer f = Ok r -> reba_score r <= 100.
Proof.
  rewrite calculate_reba_score_unfold.
  destruct (int _) as [k|e]; [|done]. simpl.
  destruct (_calculate_confidence f) as [c|e]; [|done]. simpl.
  intros [= <-]. simpl. lia.
Qed.

(** C5 (amended).  Whenever the REBA and RULA finals are both present (and
    the REBA final is not negative, as under any non-negative weights), the
    composite is their integer average [(reba + rula) / 2] rounded down —
    the truncation of the true average, not its rounding — and the
    composite confidence is the average of the two confidences rounded to
    two decimals. *)
Theorem composite_is_integer_average
    (scorer : BiomechanicalScorer) (inputs : gmap string Features) (a b : Z) :
  reba (compute_risk scorer inputs) = Some a ->
  rula (compute_risk scorer inputs) = Some b ->
  0 <= a ->
  composite (compute_risk scorer inputs) = Some ((a + b) / 2) /\
  exists reba_result rula_result,
    details (compute_risk scorer inputs) = Some (reba_result, rula_result) /\
    reba_score reba_result = a /\ rula_score rula_result = b /\
    confidence (compute_risk scorer inputs) =
      Some (round2 ((reba_confidence reba_result
                     + rula_confidence rula_result) / 2)%float).
Proof.
  unfold compute_risk. case_decide; [done|].
  destruct (calculate_reba_score scorer _) as [ra|e] eqn:Hra; [|done].
  destruct (calculate_rula_score scorer _) as [ru|e] eqn:Hru; [|done].
  cbn [mbind result_bind].
  pose proof (reba_score_capped _ _ _ Hra).
  pose proof (rula_score_range _ _ _ Hru).
  destruct (int_truediv (reba_score ra + rula_score ru) 2) as [q|e] eqn:Hq;
    cbn [mbind result_bind]; [|done].
  destruct (int q) as [c|e] eqn:Hc; cbn [mbind result_bind]; [|done].
  cbn [reba rula composite details confidence].
  intros [= <-] [= <-] Hpos. split; [|by eauto 10].
  pose proof (composite_arithmetic (reba_score ra + rula_score ru)) as Hs.
  rewrite Hq in Hs. cbn [mbind result_bind] in Hs. rewrite Hc in Hs.
  f_equal. assert (Ok c = Ok ((reba_score ra + rula_score ru) / 2)) as Heq
    by (apply Hs; lia). by injection Heq.
Qed.

Lemma composite_is_integer_average_witness :
  reba (compute_risk default_scorer (inputs_of right_elbow_only)) = Some 3 /\
  rula (compute_risk default_scorer (inputs_of right_elbow_only)) = Some 0 /\
  0 <= 3 /\
  composite (compute_risk default_scorer (inputs_of right_elbow_only)) = Some 1.
Proof.
  assert (reba (compute_risk default_scorer (inputs_of right_elbow_only)) = Some 3)
    as Ha by (vm_compute; reflexivity).
  assert (rula (compute_risk default_scorer (inputs_of right_elbow_only)) = Some 0)
    as Hb by (vm_compute; reflexivity).
  assert (0 <= 3) as Hpos by lia.
  split; [exact Ha|]. split; [exact Hb|]. split; [exact Hpos|].
  exact (proj1 (composite_is_integer_average default_scorer
                  (inputs_of right_elbow_only) 3 0 Ha Hb Hpos)).
Defined.

(** C5 (as stated) fails.  With only the right elbow observed the finals
    are REBA 3 and RULA 0, whose average is 1.5: the code returns the
    composite 1 where rounding, to even or half up, gives 2. *)
Lemma composite_truncates_where_rounding_is_specified :
  reba (compute_risk default_scorer (inputs_of right_elbow_only)) = Some 3 /\
  rula (compute_risk default_scorer (inputs_of right_elbow_only)) = Some 0 /\
  composite (compute_risk default_scorer (inputs_of right_elbow_only)) = Some 1 /\
  composite_as_specified 3 0 = Ok 2.
Proof. repeat split; vm_compute; reflexivity. Qed.

(* ===================================================================== *)
(** ** Ergonomic feature extraction *)
(* ===================================================================== *)

Lemma float_truediv_guarded (a b : float) :
  (0 <? b)%float = true -> float_truediv a b = Ok (a / b)%float.
Proof.
  intros Hb. unfold float_truediv. by rewrite float_pos_not_zero.
Qed.

Lemma float_truediv_by_zero (a b : float) :
  (b =? 0)%float = true -> raises (float_truediv a b).
Proof. intros Hb. unfold float_truediv. rewrite Hb. by eexists. Qed.

Lemma lookup_with_field_ne (k k' : string) (o : option float) (m : Features) :
  k <> k' -> with_field k o m !! k' = m !! k'.
Proof. intros Hk. destruct o; simpl; [by rewrite lookup_insert_ne|done]. Qed.

Lemma lookup_with_field_eq (k : string) (o : option float) (m : Features) :
  m !! k = Some None -> with_field k o m !! k = Some o.
Proof. intros Hk. destruct o; simpl; [by rewrite lookup_insert_eq|done]. Qed.

Lemma dom_with_field (k : string) (o : option float) (m : Features) :
  k ∈ dom m -> dom (with_field k o m) = dom m.
Proof.
  intros Hk. destruct o; simpl; [|done]. rewrite dom_insert_L.
  apply subseteq_union_1_L. by apply singleton_subseteq_l.
Qed.

Lemma feature_names_distinct : NoDup feature_names.
Proof. apply (bool_decide_unpack _). vm_compute. reflexivity. Qed.

Lemma unknown_features_dom : dom unknown_features = list_to_set feature_names.
Proof.
  unfold unknown_features. rewrite dom_list_to_map_L.
  by rewrite <- list_fmap_compose.
Qed.

Lemma unknown_features_lookup (k : string) :
  k ∈ feature_names -> unknown_features !! k = Some None.
Proof.
  intros Hk. unfold unknown_features.
  apply elem_of_list_to_map_1.
  - rewrite <- list_fmap_compose. apply feature_names_distinct.
  - apply list_elem_of_fmap. by exists k.
Qed.

Lemma with_field_keeps_names (k : string) (o : option float) (m : Features) :
  dom m = list_to_set feature_names -> k ∈ feature_names ->
  dom (with_field k o m) = list_to_set feature_names.
Proof.
  intros Hm Hk. rewrite dom_with_field; [done|].
  rewrite Hm. by apply elem_of_list_to_set.
Qed.

Ltac feature_key := apply list_elem_of_In; simpl; tauto.

(** When each field formula yields a value. *)
Lemma is_Some_None_False {A} : is_Some (@None A) <-> False.
Proof. split; [by intros [? ?]|done]. Qed.

Lemma is_Some_Some_True {A} (a : A) : is_Some (Some a) <-> True.
Proof. split; [done|eauto]. Qed.

Ltac option_cases :=
  repeat match goal with
  | o : option Keypoint |- _ => destruct o
  end;
  cbn [mbind option_bind];
  rewrite ?is_Some_None_False, ?is_Some_Some_True; tauto.

Lemma neck_flexion_computed (atan2 : float -> float -> float)
    (deg : float -> float) (n l r : option Keypoint) :
  is_Some (neck_flexion_of atan2 deg n l r)
  <-> is_Some n /\ is_Some l /\ is_Some r.
Proof. unfold neck_flexion_of. option_cases. Qed.

Lemma trunk_flexion_computed (atan2 : float -> float -> float)
    (deg : float -> float) (ls lh rs rh : option Keypoint) :
  is_Some (trunk_flexion_of atan2 deg ls lh rs rh)
  <-> is_Some ls /\ is_Some lh /\ is_Some rs /\ is_Some rh.
Proof. unfold trunk_flexion_of. option_cases. Qed.

Lemma vertex_angle_computed
    (angle : float * float -> float * float -> float * float -> float)
    (a v b : option Keypoint) :
  is_Some (vertex_angle_of angle a v b)
  <-> is_Some a /\ is_Some v /\ is_Some b.
Proof. unfold vertex_angle_of. option_cases. Qed.

Lemma asymmetry_computed (l r : option Keypoint) :
  is_Some (asymmetry_of l r) <-> is_Some l /\ is_Some r.
Proof. unfold asymmetry_of. option_cases. Qed.

Lemma reach_ratio_computed (l r w : option Keypoint) :
  is_Some (reach_ratio_of l r w)
  <-> is_Some w /\
      exists l' r', l = Some l' /\ r = Some r' /\
                    (0 <? shoulder_width l' r')%float = true.
Proof.
  unfold reach_ratio_of.
  destruct l as [l|], r as [r|], w as [w|]; cbn [mbind option_bind];
    rewrite ?is_Some_None_False, ?is_Some_Some_True;
    try (split; [done|]; intros (? & ? & ? & ? & ? & ?); done);
    try (split; [done|]; by intros (? & ?)).
  destruct (0 <? shoulder_width l r)%float eqn:Hw;
    rewrite ?is_Some_None_False, ?is_Some_Some_True.
  - split; [|done]. intros _. split; [done|]. by exists l, r.
  - split; [done|]. intros (_ & ? & ? & [= <-] & [= <-] & ?). congruence.
Qed.

Section Extractor.

Variable np_arctan2 : float -> float -> float.
Variable np_arccos : float -> float.
Variable np_degrees : float -> float.
Variable np_dot : float * float -> float * float -> float.
Variable np_linalg_norm : float * float -> float.

#[local] Abbreviation angle :=
  (calculate_angle np_arccos np_degrees np_dot np_linalg_norm).
#[local] Abbreviation extract :=
  (calculate_ergonomic_features np_arctan2 np_arccos np_degrees np_dot
     np_linalg_norm).

Lemma neck_flexion_block_field (n l r : option Keypoint) (m : Features) :
  neck_flexion_block np_arctan2 np_degrees n l r m
  = with_field "neck_flexion" (neck_flexion_of np_arctan2 np_degrees n l r) m.
Proof. by destruct n, l, r. Qed.

Lemma trunk_flexion_block_field (ls lh rs rh : option Keypoint) (m : Features) :
  trunk_flexion_block np_arctan2 np_degrees ls lh rs rh m
  = with_field "trunk_flexion"
      (trunk_flexion_of np_arctan2 np_degrees ls lh rs rh) m.
Proof. by destruct ls, lh, rs, rh. Qed.

Lemma left_shoulder_abduction_block_field (ls le lh : option Keypoint) (m : Features) :
  left_shoulder_abduction_block np_arccos np_degrees np_dot np_linalg_norm ls le lh m
  = with_field "left_shoulder_abduction" (vertex_angle_of angle lh ls le) m.
Proof. by destruct ls, le, lh. Qed.

Lemma right_shoulder_abduction_block_field (rs re rh : option Keypoint) (m : Features) :
  right_shoulder_abduction_block np_arccos np_degrees np_dot np_linalg_norm rs re rh m
  = with_field "right_shoulder_abduction" (vertex_angle_of angle rh rs re) m.
Proof. by destruct rs, re, rh. Qed.

Lemma left_elbow_flexion_block_field (ls le lw : option Keypoint) (m : Features) :
  left_elbow_flexion_block np_arccos np_degrees np_dot np_linalg_norm ls le lw m
  = with_field "left_elbow_flexion" (vertex_angle_of angle ls le lw) m.
Proof. by destruct ls, le, lw. Qed.

Lemma right_elbow_flexion_block_field (rs re rw : option Keypoint) (m : Features) :
  right_elbow_flexion_block np_arccos np_degrees np_dot np_linalg_norm rs re rw m
  = with_field "right_elbow_flexion" (vertex_angle_of angle rs re rw) m.
Proof. by destruct rs, re, rw. Qed.

Lemma asymmetry_score_block_field (ls rs : option Keypoint) (m : Features) :
  asymmetry_score_block ls rs m
  = with_field "asymmetry_score" (asymmetry_of ls rs) m.
Proof. by destruct ls, rs. Qed.

(** The guard [shoulder_width > 0] keeps the division from raising. *)
Lemma reach_distance_ratio_block_field (ls rs lw : option Keypoint) (m : Features) :
  reach_distance_ratio_block ls rs lw m
  = Ok (with_field "reach_distance_ratio" (reach_ratio_of ls rs lw) m).
Proof.
  destruct ls as [l|], rs as [r|], lw as [w|]; try done. simpl.
  unfold shoulder_width.
  destruct (0 <? abs (kp_x l - kp_x r))%float eqn:Hw; [|done].
  by rewrite (float_truediv_guarded _ _ Hw).
Qed.

Lemma calculate_ergonomic_features_run (kps : list Keypoint) :
  let nose := get_keypoint_by_name kps "nose" in
  let ls := get_keypoint_by_name kps "left_shoulder" in
  let rs := get_keypoint_by_name kps "right_shoulder" in
  let le := get_keypoint_by_name kps "left_elbow" in
  let re := get_keypoint_by_name kps "right_elbow" in
  let lw := get_keypoint_by_name kps "left_wrist" in
  let rw := get_keypoint_by_name kps "right_wrist" in
  let lh := get_keypoint_by_name kps "left_hip" in
  let rh := get_keypoint_by_name kps "right_hip" in
  exists f,
    extract kps = Ok f /\
    dom f = list_to_set feature_names /\
    f !! "neck_flexion" = Some (neck_flexion_of np_arctan2 np_degrees nose ls rs) /\
    f !! "trunk_flexion" = Some (trunk_flexion_of np_arctan2 np_degrees ls lh rs rh) /\
    f !! "left_shoulder_abduction" = Some (vertex_angle_of angle lh ls le) /\
    f !! "right_shoulder_abduction" = Some (vertex_angle_of angle rh rs re) /\
    f !! "left_elbow_flexion" = Some (vertex_angle_of angle ls le lw) /\
    f !! "right_elbow_flexion" = Some (vertex_angle_of angle rs re rw) /\
    f !! "asymmetry_score" = Some (asymmetry_of ls rs) /\
    f !! "reach_distance_ratio" = Some (reach_ratio_of ls rs lw).
Proof.
  intros nose ls rs le re lw rw lh rh.
  unfold calculate_ergonomic_features.
  change (<["neck_flexion":=None]> _) with unknown_features.
  cbv zeta. fold nose ls rs le re lw rw lh rh.
  rewrite reach_distance_ratio_block_field, asymmetry_score_block_field,
    right_elbow_flexion_block_field, left_elbow_flexion_block_field,
    right_shoulder_abduction_block_field, left_shoulder_abduction_block_field,
    trunk_flexion_block_field, neck_flexion_block_field.
  eexists. split; [reflexivity|]. split.
  - repeat (apply with_field_keeps_names; [|feature_key]).
    apply unknown_features_dom.
  - repeat split;
      rewrite ?lookup_with_field_ne by done;
      (rewrite lookup_with_field_eq; [done|]);
      rewrite ?lookup_with_field_ne by done;
      apply unknown_features_lookup; feature_key.
Qed.

Lemma calculate_ergonomic_features_total (kps : list Keypoint) :
  exists f, extract kps = Ok f.
Proof.
  destruct (calculate_ergonomic_features_run kps) as (f & Hf & _). eauto.
Qed.

Lemma feature_get_lookup (f : Features) (k : string) (o : option float) :
  f !! k = Some o -> feature_get f k = o.
Proof. intros H. unfold feature_get. by rewrite H. Qed.

(** C7.  Each ergonomic feature is computed exactly when all the
    keypoints it requires are found by name — and, for
    [reach_distance_ratio], the shoulders are a positive width apart, so
    that it is absent when the shoulder width is 0 (for a width that is a
    number, positive and non-zero are the same); and a feature's value
    depends on nothing but the keypoints it requires, so that a keypoint
    missing for one feature leaves the unrelated features as they are. *)
Theorem feature_present_iff_required_keypoints (kps : list Keypoint) :
  exists f,
    extract kps = Ok f /\
    (forall feature,
       feature ∈ feature_names ->
       (is_Some (feature_get f feature) <->
        Forall (present kps) (required_keypoints feature) /\
        (feature = "reach_distance_ratio" -> shoulders_apart kps))) /\
    (forall l r,
       get_keypoint_by_name kps "left_shoulder" = Some l ->
       get_keypoint_by_name kps "right_shoulder" = Some r ->
       (shoulder_width l r =? 0)%float = true ->
       feature_get f "reach_distance_ratio" = None) /\
    (forall l r,
       (shoulder_width l r =? shoulder_width l r)%float = true ->
       ((0 <? shoulder_width l r)%float = true <->
        (shoulder_width l r =? 0)%float = false)) /\
    (forall kps' f' feature,
       extract kps' = Ok f' ->
       feature ∈ feature_names ->
       Forall (fun name => get_keypoint_by_name kps' name
                           = get_keypoint_by_name kps name)
              (required_keypoints feature) ->
       feature_get f' feature = feature_get f feature).
Proof.
  destruct (calculate_ergonomic_features_run kps)
    as (f & Hf & _ & Hn & Ht & Hls & Hrs & Hle & Hre & Ha & Hr).
  exists f. split; [exact Hf|].
  apply feature_get_lookup in Hn, Ht, Hls, Hrs, Hle, Hre, Ha, Hr.
  split; [|split; [|split]].
  - intros feature Hin. unfold feature_names in Hin.
    unfold present, shoulders_apart.
    repeat (apply elem_of_cons in Hin as [->|Hin]);
      [..|by apply elem_of_nil in Hin];
      cbn [required_keypoints]; rewrite ?Forall_cons, ?Forall_nil.
    + rewrite Hn, neck_flexion_computed. split; [|tauto].
      intros H. split; [tauto|done].
    + rewrite Ht, trunk_flexion_computed. split; [|tauto].
      intros H. split; [tauto|done].
    + rewrite Hls, vertex_angle_computed. split; [|tauto].
      intros H. split; [tauto|done].
    + rewrite Hrs, vertex_angle_computed. split; [|tauto].
      intros H. split; [tauto|done].
    + rewrite Hle, vertex_angle_computed. split; [|tauto].
      intros H. split; [tauto|done].
    + rewrite Hre, vertex_angle_computed. split; [|tauto].
      intros H. split; [tauto|done].
    + rewrite Ha, asymmetry_computed. split; [|tauto].
      intros H. split; [tauto|done].
    + rewrite Hr, reach_ratio_computed. split.
      * intros (Hw & l & r & Hl & Hrr & Hpos).
        rewrite Hl, Hrr. repeat split; eauto.
      * intros ((Hw & _) & Hs). split; [done|].
        by destruct (Hs eq_refl) as (l & r & Hl & Hrr & Hpos); eauto.
  - intros l r Hl Hrr Hz. rewrite Hr, Hl, Hrr. unfold reach_ratio_of.
    cbn [mbind option_bind].
    destruct (get_keypoint_by_name kps "left_wrist");
      cbn [mbind option_bind]; [|done].
    by rewrite (float_eq_zero_not_pos _ Hz).
  - intros l r. apply float_abs_pos_iff_nonzero.
  - intros kps' f' feature Hf' Hin Hsame.
    destruct (calculate_ergonomic_features_run kps')
      as (f'' & Hf'' & _ & Hn' & Ht' & Hls' & Hrs' & Hle' & Hre' & Ha' & Hr').
    rewrite Hf' in Hf''. injection Hf'' as <-.
    apply feature_get_lookup in Hn', Ht', Hls', Hrs', Hle', Hre', Ha', Hr'.
    unfold feature_names in Hin.
    repeat (apply elem_of_cons in Hin as [->|Hin]);
      [..|by apply elem_of_nil in Hin];
      cbn [required_keypoints] in Hsame;
      rewrite ?Forall_cons in Hsame;
      [rewrite Hn, Hn'|rewrite Ht, Ht'|rewrite Hls, Hls'|rewrite Hrs, Hrs'
      |rewrite Hle, Hle'|rewrite Hre, Hre'|rewrite Ha, Ha'|rewrite Hr, Hr'];
      repeat match goal with
      | H : _ /\ _ |- _ => destruct H
      end; congruence.
Qed.

Lemma np_clip_unit_range (v : float) :
  (np_clip v (-1) 1 <? -1)%float = false /\
  (1 <? np_clip v (-1) 1)%float = false.
Proof.
  unfold np_clip.
  destruct (v <? -1)%float eqn:Hlo; [by split|].
  destruct (1 <? v)%float eqn:Hhi; [by split|]. by split.
Qed.

(** C8.  The feature extractor returns a features record for every
    keypoint set and never raises: the one division that could raise is
    reached only with a shoulder width above zero, the vertex angle hands
    [arccos] a cosine whose denominator carries the [1e-6] term and which
    is clipped to [-1, 1] (for an arm of length zero the denominator is
    exactly [1e-6]), and a missing keypoint shows as an unknown field —
    with no keypoints at all, as the record of eight unknowns. *)
Theorem extractor_total_and_guarded (kps : list Keypoint) :
  (exists f, extract kps = Ok f) /\
  ~ raises (extract kps) /\
  (forall a b, (b =? 0)%float = true -> raises (float_truediv a b)) /\
  (forall f ratio,
     extract kps = Ok f ->
     feature_get f "reach_distance_ratio" = Some ratio ->
     exists l r w,
       get_keypoint_by_name kps "left_shoulder" = Some l /\
       get_keypoint_by_name kps "right_shoulder" = Some r /\
       get_keypoint_by_name kps "left_wrist" = Some w /\
       (0 <? shoulder_width l r)%float = true /\
       float_truediv (abs (kp_x w - kp_x l)) (shoulder_width l r) = Ok ratio) /\
  (forall p1 p2 p3,
     let v1 := (p1.1 - p2.1, p1.2 - p2.2)%float in
     let v2 := (p3.1 - p2.1, p3.2 - p2.2)%float in
     let cosine :=
       np_clip (np_dot v1 v2 / (np_linalg_norm v1 * np_linalg_norm v2 + 1e-6))
         (-1) 1 in
     angle p1 p2 p3 = np_degrees (np_arccos cosine) /\
     (cosine <? -1)%float = false /\ (1 <? cosine)%float = false /\
     (is_zero_float (np_linalg_norm v1) ->
      is_finite (np_linalg_norm v2) = true ->
      (np_linalg_norm v1 * np_linalg_norm v2 + 1e-6)%float = 1e-6%float)) /\
  extract [] = Ok unknown_features.
Proof.
  split; [apply calculate_ergonomic_features_total|].
  split.
  { destruct (calculate_ergonomic_features_total kps) as [f Hf].
    intros [e He]. congruence. }
  split; [apply float_truediv_by_zero|]. split; [|split].
  - intros f ratio Hf Hratio.
    destruct (calculate_ergonomic_features_run kps)
      as (f' & Hf' & _ & _ & _ & _ & _ & _ & _ & _ & Hr).
    rewrite Hf in Hf'. injection Hf' as <-.
    apply feature_get_lookup in Hr. rewrite Hr in Hratio.
    unfold reach_ratio_of in Hratio.
    destruct (get_keypoint_by_name kps "left_shoulder") as [l|]; [|done].
    destruct (get_keypoint_by_name kps "right_shoulder") as [r|]; [|done].
    destruct (get_keypoint_by_name kps "left_wrist") as [w|]; [|done].
    cbn [mbind option_bind] in Hratio.
    destruct (0 <? shoulder_width l r)%float eqn:Hw; [|done].
    injection Hratio as <-. exists l, r, w. repeat split; try done.
    by apply float_truediv_guarded.
  - intros p1 p2 p3 v1 v2 cosine. split; [reflexivity|].
    destruct (np_clip_unit_range
                (np_dot v1 v2 / (np_linalg_norm v1 * np_linalg_norm v2 + 1e-6)))
      as [Hlo Hhi].
    split; [exact Hlo|]. split; [exact Hhi|].
    apply zero_product_plus_epsilon.
  - reflexivity.
Qed.

Lemma compute_risk_not_null (scorer : BiomechanicalScorer) (f : Features) :
  f <> ∅ -> compute_risk scorer (inputs_of f) <> null_result.
Proof.
  intros Hne. unfold compute_risk. rewrite inputs_of_get.
  case_decide as Hsize; [by apply map_size_empty_iff in Hsize|].
  destruct (calculate_reba_score scorer f) as [ra|e]; [|done].
  destruct (calculate_rula_score scorer f) as [ru|e]; [|done].
  cbn [mbind result_bind].
  destruct (int_truediv _ 2) as [q|e]; [|done]. cbn [mbind result_bind].
  destruct (int q) as [c|e]; done.
Qed.

Lemma compute_risk_scores (scorer : BiomechanicalScorer) (f : Features) :
  f <> ∅ -> default_weights scorer ->
  exists a b,
    reba (compute_risk scorer (inputs_of f)) = Some a /\
    rula (compute_risk scorer (inputs_of f)) = Some b /\
    composite (compute_risk scorer (inputs_of f)) = Some ((a + b) / 2) /\
    0 <= a <= 80 /\ 0 <= b <= 100.
Proof.
  intros Hne Hw. unfold compute_risk. rewrite inputs_of_get.
  case_decide as Hsize; [by apply map_size_empty_iff in Hsize|].
  destruct (calculate_reba_score_default scorer f Hw) as (ra & -> & Hra).
  destruct (calculate_rula_score scorer f) as [ru|e] eqn:Hru.
  2:{ destruct (calculate_rula_score_unfold scorer f) as (c & _ & Hc).
      congruence. }
  pose proof (rula_score_range _ _ _ Hru) as Hrange.
  cbn [mbind result_bind].
  pose proof (composite_arithmetic (reba_score ra + rula_score ru)) as Hs.
  destruct (int_truediv _ 2) as [q|e]; cbn [mbind result_bind] in *;
    [|by discriminate Hs; lia].
  destruct (int q) as [c|e]; [|by discriminate Hs; lia].
  cbn. exists (reba_score ra), (rula_score ru). repeat split; try done; try lia.
  f_equal. assert (Ok c = Ok ((reba_score ra + rula_score ru) / 2)) as Heq
    by (apply Hs; lia). by injection Heq.
Qed.

(** C10.  Whatever the keypoints, the extractor's record has exactly the
    eight feature keys, each bound to a value or to [None]; it is never
    the empty record, so [compute_risk] never takes its empty-features
    branch on it: the result is not the all-null dictionary, and under
    the default weights it carries actual scores. *)
Theorem extractor_record_has_eight_keys (kps : list Keypoint) :
  exists f,
    extract kps = Ok f /\
    dom f = list_to_set feature_names /\
    size f = 8%nat /\
    (forall k, k ∈ feature_names -> exists v : option float, f !! k = Some v) /\
    f <> ∅ /\
    (forall scorer, compute_risk scorer (inputs_of f) <> null_result) /\
    (forall scorer,
       default_weights scorer ->
       exists a b,
         reba (compute_risk scorer (inputs_of f)) = Some a /\
         rula (compute_risk scorer (inputs_of f)) = Some b /\
         composite (compute_risk scorer (inputs_of f)) = Some ((a + b) / 2) /\
         0 <= a <= 80 /\ 0 <= b <= 100).
Proof.
  destruct (calculate_ergonomic_features_run kps) as (f & Hf & Hdom & _).
  assert (size f = 8%nat) as Hsize.
  { rewrite <- size_dom, Hdom, size_list_to_set by apply feature_names_distinct.
    reflexivity. }
  assert (f <> ∅) as Hne.
  { intros ->. by rewrite map_size_empty in Hsize. }
  exists f. repeat split; try done.
  - intros k Hk. apply (elem_of_list_to_set (C := gset string)) in Hk.
    rewrite <- Hdom in Hk. apply elem_of_dom in Hk as [v Hv]. eauto.
  - intros scorer. by apply compute_risk_not_null.
  - intros scorer Hw. by apply compute_risk_scores.
Qed.

End Extractor.

(** Scenario 1 of the specification: with nose and shoulders only, the neck
    flexion is computed and the trunk flexion is unknown. *)
Lemma feature_present_iff_required_keypoints_witness :
  "neck_flexion" ∈ feature_names /\ "trunk_flexion" ∈ feature_names /\
  exists f,
    sample_extract head_and_shoulders = Ok f /\
    is_Some (feature_get f "neck_flexion") /\
    ~ is_Some (feature_get f "trunk_flexion").
Proof.
  assert ("neck_flexion" ∈ feature_names) as Hneck by feature_key.
  assert ("trunk_flexion" ∈ feature_names) as Htrunk by feature_key.
  split; [exact Hneck|]. split; [exact Htrunk|].
  destruct (feature_present_iff_required_keypoints
              (fun _ _ => 0%float) (fun _ => 0%float) (fun a => a)
              (fun _ _ => 0%float) (fun _ => 0%float) head_and_shoulders)
    as (f & Hf & Hiff & _).
  exists f. split; [exact Hf|]. split.
  - apply (Hiff _ Hneck). split; [|done].
    cbn [required_keypoints]. repeat constructor; by eexists.
  - intros Hsome. apply (Hiff _ Htrunk) in Hsome as [Hreq _].
    cbn [required_keypoints] in Hreq.
    apply Forall_cons in Hreq as [_ Hreq]. apply Forall_cons in Hreq as [_ Hreq].
    apply Forall_cons in Hreq as [[kp Hkp] _]. vm_compute in Hkp. discriminate.
Defined.

(** The guarded division on a sample: shoulders 0.2 apart, wrist 0.15 from
    the left shoulder. *)
Lemma extractor_total_and_guarded_witness :
  exists f ratio,
    sample_extract
      (mkKeypoint 9 "left_wrist" 0.25 0.65 0.75 :: head_and_shoulders) = Ok f /\
    feature_get f "reach_distance_ratio" = Some ratio /\
    float_truediv (abs (0.25 - 0.4)) (abs (0.4 - 0.6)) = Ok ratio.
Proof.
  pose (kps := mkKeypoint 9 "left_wrist" 0.25 0.65 0.75 :: head_and_shoulders).
  destruct (calculate_ergonomic_features_run
              (fun _ _ => 0%float) (fun _ => 0%float) (fun a => a)
              (fun _ _ => 0%float) (fun _ => 0%float) kps)
    as (f & Hf & _ & _ & _ & _ & _ & _ & _ & _ & Hratio).
  apply feature_get_lookup in Hratio.
  change (reach_ratio_of _ _ _)
    with (Some (abs (0.25 - 0.4) / abs (0.4 - 0.6))%float) in Hratio.
  destruct (extractor_total_and_guarded
              (fun _ _ => 0%float) (fun _ => 0%float) (fun a => a)
              (fun _ _ => 0%float) (fun _ => 0%float) kps)
    as (_ & _ & _ & Hguard & _).
  destruct (Hguard f _ Hf Hratio) as (l & r & w & Hl & Hr & Hw & Hpos & Hdiv).
  vm_compute in Hl, Hr, Hw. injection Hl as <-. injection Hr as <-.
  injection Hw as <-.
  exists f, (abs (0.25 - 0.4) / abs (0.4 - 0.6))%float.
  split; [exact Hf|]. split; [exact Hratio|]. exact Hdiv.
Defined.

(** The record extracted from the first scenario, scored by the default
    scorer. *)
Lemma extractor_record_has_eight_keys_witness :
  default_weights default_scorer /\
  exists f a b,
    sample_extract head_and_shoulders = Ok f /\
    size f = 8%nat /\
    reba (compute_risk default_scorer (inputs_of f)) = Some a /\
    rula (compute_risk default_scorer (inputs_of f)) = Some b.
Proof.
  split; [exact default_scorer_default_weights|].
  destruct (extractor_record_has_eight_keys
              (fun _ _ => 0%float) (fun _ => 0%float) (fun a => a)
              (fun _ _ => 0%float) (fun _ => 0%float) head_and_shoulders)
    as (f & Hf & _ & Hsize & _ & _ & _ & Hscores).
  destruct (Hscores default_scorer default_scorer_default_weights)
    as (a & b & Ha & Hb & _).
  exists f, a, b. by repeat split.
Defined.

(* ===================================================================== *)
(** ** Keypoint decoding *)
(* ===================================================================== *)

Lemma keypoint_name_lookup (names : list string) (idx : nat) :
  match names !! idx with
  | Some name => name
  | None => "keypoint_" +:+ pretty idx
  end = keypoint_name names idx.
Proof.
  unfold keypoint_name. case_decide as Hlt.
  - destruct (lookup_lt_is_Some_2 names idx Hlt) as [name Hname].
    rewrite Hname. symmetry. by apply nth_lookup_Some with (d := ""%string).
  - by rewrite lookup_ge_None_2 by lia.
Qed.

Lemma take3_drop (l : list float) (n : nat) :
  (n + 3 <= length l)%nat ->
  exists a b c,
    l !! n = Some a /\ l !! (n + 1)%nat = Some b /\ l !! (n + 2)%nat = Some c /\
    take 3 (drop n l) = [a; b; c].
Proof.
  intros Hlen.
  destruct (lookup_lt_is_Some_2 l n) as [a Ha]; [lia|].
  destruct (lookup_lt_is_Some_2 l (n + 1)) as [b Hb]; [lia|].
  destruct (lookup_lt_is_Some_2 l (n + 2)) as [c Hc]; [lia|].
  exists a, b, c. repeat split; try done.
  apply list_eq. intros i. rewrite lookup_take.
  destruct (decide (i < 3)%nat) as [Hi|Hi]; [|by rewrite lookup_ge_None_2 by (simpl; lia)].
  rewrite lookup_drop.
  assert (i = 0 \/ i = 1 \/ i = 2)%nat as [-> | [-> | ->]] by lia; simpl.
  - by rewrite Nat.add_0_r.
  - done.
  - done.
Qed.

Section Decoder.

Variables (T : ndarray) (B K : nat).
Hypothesis T_well_formed : well_formed T.
Hypothesis T_shape : shape T = [B; K; 3%nat].
Hypothesis T_batch : (0 < B)%nat.

Lemma row_of_keypoint (idx : nat) :
  (idx < K)%nat ->
  exists y x c,
    data T !! (3 * idx)%nat = Some y /\
    data T !! (3 * idx + 1)%nat = Some x /\
    data T !! (3 * idx + 2)%nat = Some c /\
    index_row B K 3 T 0 idx ≫= unpack3 = Ok (y, x, c).
Proof.
  intros Hidx. unfold index_row.
  rewrite decide_False by lia. rewrite decide_False by lia.
  assert (length (data T) = B * (K * 3))%nat as Hlen.
  { unfold well_formed in T_well_formed. rewrite T_shape in T_well_formed.
    simpl in T_well_formed. lia. }
  replace ((0 * K + idx) * 3)%nat with (3 * idx)%nat by lia.
  destruct (take3_drop (data T) (3 * idx)) as (y & x & c & Hy & Hx & Hc & ->);
    [nia|].
  exists y, x, c. by repeat split.
Qed.

Lemma extract_loop_decodes (t : float) (names : list string)
    (idxs : list nat) (acc : list Keypoint) :
  Forall (fun idx => idx < K)%nat idxs ->
  extract_loop T B K 3 t names idxs acc
  = Ok (acc ++ omap (decoded_at T (as_dtype (dtype T) t) names) idxs).
Proof.
  intros Hidxs. revert acc.
  induction Hidxs as [|idx idxs Hidx _ IH]; intros acc; simpl.
  { by rewrite app_nil_r. }
  destruct (row_of_keypoint idx Hidx) as (y & x & c & Hy & Hx & Hc & Hrow).
  destruct (index_row B K 3 T 0 idx) as [row|e]; [|done].
  cbn [mbind result_bind] in *. rewrite Hrow. cbn [mbind result_bind].
  rewrite IH. f_equal. unfold decoded_at at 2.
  rewrite Hy, Hx, Hc. cbn [mbind option_bind].
  rewrite keypoint_name_lookup.
  destruct (as_dtype (dtype T) t <=? c)%float; [by rewrite <- app_assoc|done].
Qed.

End Decoder.

Lemma decoded_at_Some (T : ndarray) (t : float) (names : list string)
    (idx : nat) (kp : Keypoint) :
  decoded_at T t names idx = Some kp <->
  exists y x c,
    data T !! (3 * idx)%nat = Some y /\
    data T !! (3 * idx + 1)%nat = Some x /\
    data T !! (3 * idx + 2)%nat = Some c /\
    (t <=? c)%float = true /\
    kp = mkKeypoint idx (keypoint_name names idx) x y c.
Proof.
  unfold decoded_at. split.
  - destruct (data T !! (3 * idx)%nat) as [y|]; cbn [mbind option_bind]; [|done].
    destruct (data T !! (3 * idx + 1)%nat) as [x|]; cbn [mbind option_bind]; [|done].
    destruct (data T !! (3 * idx + 2)%nat) as [c|]; cbn [mbind option_bind]; [|done].
    destruct (t <=? c)%float eqn:Hle; [|done].
    intros [= <-]. by exists y, x, c.
  - intros (y & x & c & -> & -> & -> & Hle & ->). cbn [mbind option_bind].
    by rewrite Hle.
Qed.

Lemma decoded_ids_in_order (T : ndarray) (t : float) (names : list string)
    (idxs : list nat) :
  sublist (kp_id <$> omap (decoded_at T t names) idxs) idxs.
Proof.
  induction idxs as [|idx idxs IH]; simpl; [constructor|].
  destruct (decoded_at T t names idx) as [kp|] eqn:Hkp.
  - apply decoded_at_Some in Hkp as (y & x & c & _ & _ & _ & _ & ->).
    by constructor.
  - by constructor.
Qed.

Lemma extract_keypoints_other_rank (config : Config) (T : ndarray) :
  ndim T <> 3%nat -> extract_keypoints config T = Ok [].
Proof.
  unfold extract_keypoints, ndim. intros Hrank.
  destruct (shape T) as [|d0 [|d1 [|d2 [|d3 rest]]]]; try done.
Qed.

Lemma extract_keypoints_well_shaped (config : Config) (T : ndarray) (B K : nat) :
  well_formed T -> shape T = [B; K; 3%nat] -> (0 < B)%nat ->
  extract_keypoints config T
  = Ok (omap (decoded_at T
                (as_dtype (dtype T)
                   (default 0.3%float (confidence_threshold (pose_config config))))
                (default [] (keypoint_names (pose_config config))))
          (seq 0 K)).
Proof.
  intros Hwf Hshape HB. unfold extract_keypoints. rewrite Hshape.
  rewrite (extract_loop_decodes T B K Hwf Hshape HB); [done|].
  apply Forall_forall. intros idx Hidx. apply elem_of_seq in Hidx. lia.
Qed.

(** C2 (amended).  On a tensor of shape [B, K, 3] with [B >= 1] (the
    specified [1, K, 3] in particular) the decoder returns, in index
    order, exactly the keypoints whose confidence is at least the
    threshold as the comparison takes it — the configured number for a
    [float64] tensor, that number rounded to binary32 for the [float32]
    tensors the model returns — each with its tensor index as id, its
    row's [x], [y] and confidence, and the supplied name at that index or
    [keypoint_<id>] when the list of names is too short.  On a tensor of
    rank other than 3 it returns the empty list without raising. *)
Theorem extract_keypoints_decodes (config : Config) (T : ndarray) :
  let configured :=
    default 0.3%float (confidence_threshold (pose_config config)) in
  let threshold := as_dtype (dtype T) configured in
  let names := default [] (keypoint_names (pose_config config)) in
  well_formed T ->
  (forall B K : nat,
     shape T = [B; K; 3%nat] -> (0 < B)%nat ->
     exists kps,
       extract_keypoints config T = Ok kps /\
       (forall kp,
          kp ∈ kps <->
          exists idx y x c,
            (idx < K)%nat /\
            data T !! (3 * idx)%nat = Some y /\
            data T !! (3 * idx + 1)%nat = Some x /\
            data T !! (3 * idx + 2)%nat = Some c /\
            (threshold <=? c)%float = true /\
            kp = mkKeypoint idx (keypoint_name names idx) x y c) /\
       sublist (kp_id <$> kps) (seq 0 K)) /\
  (dtype T = float32 -> threshold = np_float32 configured) /\
  (dtype T = float64 -> threshold = configured) /\
  (ndim T <> 3%nat -> extract_keypoints config T = Ok []).
Proof.
  intros configured threshold names Hwf. split; [|split; [|split]].
  - intros B K Hshape HB.
    rewrite (extract_keypoints_well_shaped config T B K Hwf Hshape HB).
    fold configured threshold names.
    eexists. split; [reflexivity|]. split.
    + intros kp. rewrite list_elem_of_omap. split.
      * intros (idx & Hidx & Hkp). apply elem_of_seq in Hidx.
        apply decoded_at_Some in Hkp as (y & x & c & Hy & Hx & Hc & Hle & ->).
        exists idx, y, x, c. repeat split; try done. lia.
      * intros (idx & y & x & c & Hidx & Hy & Hx & Hc & Hle & ->).
        exists idx. split; [apply elem_of_seq; lia|].
        apply decoded_at_Some. by exists y, x, c.
    + apply decoded_ids_in_order.
  - unfold threshold. by intros ->.
  - unfold threshold. by intros ->.
  - apply extract_keypoints_other_rank.
Qed.

Lemma extract_keypoints_decodes_witness :
  well_formed model_tensor /\
  shape model_tensor = [1; 3; 3]%nat /\ (0 < 1)%nat /\
  dtype model_tensor = float32 /\
  exists kps,
    extract_keypoints nose_named model_tensor = Ok kps /\
    sublist (kp_id <$> kps) (seq 0 3) /\
    as_dtype (dtype model_tensor)
      (default 0.3%float (confidence_threshold (pose_config nose_named)))
    = np_float32 0.3.
Proof.
  assert (well_formed model_tensor) as Hwf by reflexivity.
  assert (shape model_tensor = [1; 3; 3]%nat) as Hshape by reflexivity.
  assert (0 < 1)%nat as HB by lia.
  assert (dtype model_tensor = float32) as Hdtype by reflexivity.
  split; [exact Hwf|]. split; [exact Hshape|]. split; [exact HB|].
  split; [exact Hdtype|].
  destruct (extract_keypoints_decodes nose_named model_tensor Hwf)
    as (Hdec & Hsingle & _).
  destruct (Hdec 1%nat 3%nat Hshape HB) as (kps & Hkps & _ & Horder).
  exists kps. split; [exact Hkps|]. split; [exact Horder|].
  exact (Hsingle Hdtype).
Defined.

(** C2 (as stated) fails, twice.  A tensor of shape [1, 1, 2] has rank 3,
    but unpacking its two-entry row into [y, x, confidence] raises.  And
    on a [float32] tensor the threshold 0.7 is compared as
    [np.float32(0.7)], which is below 0.7: the third keypoint of
    [model_tensor], whose confidence is that number, is returned though
    its confidence is below the threshold. *)
Lemma extract_keypoints_departs_from_specification :
  (well_formed short_rows /\ ndim short_rows = 3%nat /\
   raises (extract_keypoints nose_named short_rows) /\
   extract_keypoints nose_named short_rows
   = Raise (ValueError "not enough values to unpack (expected 3, got 2)")) /\
  (well_formed model_tensor /\ ndim model_tensor = 3%nat /\
   dtype model_tensor = float32 /\
   confidence_threshold (pose_config nose_above_0_7) = Some 0.7%float /\
   (0.699999988079071044921875 <? 0.7)%float = true /\
   (0.7 <=? 0.699999988079071044921875)%float = false /\
   extract_keypoints nose_above_0_7 model_tensor
   = Ok [ mkKeypoint 0 "nose" 0.5 0.25 0.875;
          mkKeypoint 2 "keypoint_2" 0.625 0.375 0.699999988079071044921875 ]).
Proof.
  split.
  - repeat split. by eexists.
  - repeat (split; [reflexivity|]). vm_compute. reflexivity.
Qed.

(** The run on [three_keypoints]: the first name is supplied, the third is
    synthesized, the second keypoint is below the threshold. *)
Lemma extract_keypoints_three :
  extract_keypoints nose_named three_keypoints
  = Ok [ mkKeypoint 0 "nose" 0.5 0.2 0.9;
         mkKeypoint 2 "keypoint_2" 0.6 0.35 0.85 ].
Proof. vm_compute. reflexivity. Qed.

(* ===================================================================== *)
(** ** The orchestrator *)
(* ===================================================================== *)

Section Orchestrator.

Variable np_arctan2 : float -> float -> float.
Variable np_arccos : float -> float.
Variable np_degrees : float -> float.
Variable np_dot : float * float -> float * float -> float.
Variable np_linalg_norm : float * float -> float.
Variable config : Config.
Variable World : Type.
Variable cv2_imread : string -> World -> option ndarray.
Variable cv2_to_batch : ndarray -> list nat -> result ndarray.
Variable session_loaded : World -> bool.
Variable session_run : ndarray -> World -> result ndarray * World.

#[local] Abbreviation run_features :=
  (calculate_ergonomic_features np_arctan2 np_arccos np_degrees np_dot
     np_linalg_norm).
#[local] Abbreviation load_image :=
  (preprocess_image config World cv2_imread cv2_to_batch).
#[local] Abbreviation infer :=
  (run_inference World session_loaded session_run).
#[local] Abbreviation run_image :=
  (process_image np_arctan2 np_arccos np_degrees np_dot np_linalg_norm
     config World cv2_imread cv2_to_batch session_loaded session_run).
#[local] Abbreviation run_batch_loop :=
  (process_batch_loop np_arctan2 np_arccos np_degrees np_dot np_linalg_norm
     config World cv2_imread cv2_to_batch session_loaded session_run).
#[local] Abbreviation run_batch :=
  (process_batch np_arctan2 np_arccos np_degrees np_dot np_linalg_norm
     config World cv2_imread cv2_to_batch session_loaded session_run).

Lemma process_batch_loop_acc (paths : list string) (acc : list ProcessResult)
    (w : World) :
  run_batch_loop paths acc w
  = (acc ++ (run_batch_loop paths [] w).1, (run_batch_loop paths [] w).2).
Proof.
  revert acc w. induction paths as [|p paths IH]; intros acc w; simpl.
  { by rewrite app_nil_r. }
  destruct (run_image p w) as [r w1].
  rewrite (IH (acc ++ [r])), (IH [r]). simpl. by rewrite <- app_assoc.
Qed.

Lemma process_batch_cons (p : string) (paths : list string) (w : World) :
  run_batch (p :: paths) w
  = ((run_image p w).1 :: (run_batch paths (run_image p w).2).1,
     (run_batch paths (run_image p w).2).2).
Proof.
  unfold process_batch. simpl. destruct (run_image p w) as [r w1].
  by rewrite process_batch_loop_acc.
Qed.

Lemma process_batch_length (paths : list string) (w : World) :
  length (run_batch paths w).1 = length paths.
Proof.
  revert w. induction paths as [|p paths IH]; intros w; [done|].
  rewrite process_batch_cons. simpl. by rewrite IH.
Qed.

Lemma process_batch_lookup (paths : list string) (w : World) (i : nat)
    (p : string) :
  paths !! i = Some p ->
  (run_batch paths w).1 !! i
  = Some (run_image p (run_batch (take i paths) w).2).1.
Proof.
  revert w i. induction paths as [|q paths IH]; intros w i Hp; [done|].
  rewrite process_batch_cons. destruct i as [|i]; simpl in *.
  - by injection Hp as ->.
  - rewrite process_batch_cons. simpl. by apply IH.
Qed.

(** C9.  [process_image] always returns a result dictionary: an exception
    raised by any stage — loading, inference, decoding, feature
    extraction — is turned into
    [{success: false, error, keypoints: [], ergonomic_features: {}}]
    instead of propagating.  [process_batch] returns one result per
    input, the i-th being that of [process_image] on the i-th input, so
    that a failure on one input leaves the following inputs processed. *)
Theorem process_image_contains_exceptions (image_path : string) (w : World) :
  (forall e,
     failure e = mkProcessResult false (Some (str e)) [] ∅ 0) /\
  (success (run_image image_path w).1 = true \/
   exists e, (run_image image_path w).1 = failure e) /\
  (forall e,
     load_image image_path w = Raise e ->
     run_image image_path w = (failure e, w)) /\
  (cv2_imread image_path w = None ->
   run_image image_path w
   = (failure (ValueError ("Failed to load image: " +:+ image_path)), w)) /\
  (forall image e w2,
     load_image image_path w = Ok image ->
     infer image w = (Raise e, w2) ->
     run_image image_path w = (failure e, w2)) /\
  (forall image model_output w2 e,
     load_image image_path w = Ok image ->
     infer image w = (Ok model_output, w2) ->
     extract_keypoints config model_output = Raise e ->
     run_image image_path w = (failure e, w2)) /\
  (forall image model_output w2 kps e,
     load_image image_path w = Ok image ->
     infer image w = (Ok model_output, w2) ->
     extract_keypoints config model_output = Ok kps ->
     run_features kps = Raise e ->
     run_image image_path w = (failure e, w2)) /\
  (forall image model_output w2 kps f,
     load_image image_path w = Ok image ->
     infer image w = (Ok model_output, w2) ->
     extract_keypoints config model_output = Ok kps ->
     run_features kps = Ok f ->
     run_image image_path w
     = (mkProcessResult true None kps f (length kps), w2)) /\
  (forall image_paths : list string,
     length (run_batch image_paths w).1 = length image_paths /\
     forall i p,
       image_paths !! i = Some p ->
       (run_batch image_paths w).1 !! i
       = Some (run_image p (run_batch (take i image_paths) w).2).1).
Proof.
  split; [done|].
  split; [|split; [|split; [|split; [|split; [|split; [|split]]]]]].
  - unfold process_image.
    destruct (load_image image_path w) as [image|e]; [|by eauto].
    destruct (infer image w) as [[model_output|e] w2]; [|by eauto].
    destruct (extract_keypoints config model_output) as [kps|e]; [|by eauto].
    cbn [mbind result_bind].
    destruct (run_features kps) as [f|e]; cbn [mbind result_bind]; eauto.
  - intros e H. unfold process_image. by rewrite H.
  - intros H. unfold process_image, preprocess_image. by rewrite H.
  - intros image e w2 H1 H2. unfold process_image. by rewrite H1, H2.
  - intros image model_output w2 e H1 H2 H3. unfold process_image.
    by rewrite H1, H2, H3.
  - intros image model_output w2 kps e H1 H2 H3 H4. unfold process_image.
    rewrite H1, H2, H3. cbn [mbind result_bind]. by rewrite H4.
  - intros image model_output w2 kps f H1 H2 H3 H4. unfold process_image.
    rewrite H1, H2, H3. cbn [mbind result_bind]. by rewrite H4.
  - intros image_paths. split.
    + apply process_batch_length.
    + intros i p. apply process_batch_lookup.
Qed.

End Orchestrator.

(** A batch of three with an unreadable file in the middle. *)
Lemma process_image_contains_exceptions_witness :
  sample_imread "missing.png" 0%nat = None /\
  sample_process_image "missing.png" 0%nat
    = (mkProcessResult false (Some "Failed to load image: missing.png") [] ∅ 0,
       0%nat) /\
  ["a.png"; "missing.png"; "b.png"] !! 2%nat = Some "b.png" /\
  (sample_process_batch ["a.png"; "missing.png"; "b.png"] 0%nat).1 !! 2%nat
    = Some (sample_process_image "b.png"
              (sample_process_batch (take 2 ["a.png"; "missing.png"; "b.png"])
                 0%nat).2).1 /\
  success <$> (sample_process_batch ["a.png"; "missing.png"; "b.png"] 0%nat).1
    = [true; false; true].
Proof.
  assert (sample_imread "missing.png" 0%nat = None) as Hread by reflexivity.
  assert (["a.png"; "missing.png"; "b.png"] !! 2%nat = Some "b.png")
    as Hthird by reflexivity.
  destruct (process_image_contains_exceptions
              (fun _ _ => 0%float) (fun _ => 0%float) (fun a => a)
              (fun _ _ => 0%float) (fun _ => 0%float)
              nose_named nat sample_imread sample_to_batch (fun _ => true)
              sample_session_run "missing.png" 0%nat)
    as (_ & _ & _ & Hload & _ & _ & _ & _ & Hbatch).
  split; [exact Hread|]. split; [exact (Hload Hread)|].
  split; [exact Hthird|].
  destruct (Hbatch ["a.png"; "missing.png"; "b.png"]) as [_ Hith].
  split; [exact (Hith 2%nat "b.png" Hthird)|].
  vm_compute. reflexivity.
Defined.

(* ===================================================================== *)
(** ** Further properties: risk bands *)
(* ===================================================================== *)

Lemma first_level_first_match (levels before after : list (string * (Z * Z)))
    (level : string) (lo hi score : Z) :
  levels = before ++ (level, (lo, hi)) :: after ->
  Forall (fun entry => ~ holds_score score entry) before ->
  lo <= score <= hi ->
  first_level levels score = level.
Proof.
  intros -> Hbefore Hin.
  induction Hbefore as [|[l [lo' hi']] before Hno _ IH]; simpl.
  - replace (lo <=? score) with true by (symmetry; apply Z.leb_le; lia).
    replace (score <=? hi) with true by (symmetry; apply Z.leb_le; lia).
    done.
  - unfold holds_score in Hno. simpl in Hno.
    destruct (Z.leb_spec lo' score), (Z.leb_spec score hi'); simpl;
      try apply IH. lia.
Qed.

Lemma first_level_unknown (levels : list (string * (Z * Z))) (score : Z) :
  Forall (fun entry => ~ holds_score score entry) levels ->
  first_level levels score = "unknown".
Proof.
  induction 1 as [|[l [lo' hi']] levels Hno _ IH]; simpl; [done|].
  unfold holds_score in Hno. simpl in Hno.
  destruct (Z.leb_spec lo' score), (Z.leb_spec score hi'); simpl;
    try apply IH. lia.
Qed.

Lemma first_level_sound (levels : list (string * (Z * Z))) (score : Z) :
  first_level levels score = "unknown" \/
  exists lo hi,
    (first_level levels score, (lo, hi)) ∈ levels /\ lo <= score <= hi.
Proof.
  induction levels as [|[l [lo' hi']] levels IH]; simpl; [by left|].
  destruct (Z.leb_spec lo' score), (Z.leb_spec score hi'); simpl;
    try (destruct IH as [IH|(lo & hi & IH & Hin)];
         [by left|right; exists lo, hi; split; [by apply list_elem_of_further|done]]).
  right. exists lo', hi'. split; [apply list_elem_of_here|lia].
Qed.

(** X1.  [get_risk_level] returns the name of the first entry of the
    [risk_levels] table, in the table's order, whose range holds the
    score — an earlier entry wins over a later one that also holds it —
    and ["unknown"] when no entry does; any other name it returns is that
    of an entry whose range holds the score. *)
Theorem get_risk_level_first_match (self : BiomechanicalScorer) (score : Z) :
  (forall before level lo hi after,
     risk_levels self = before ++ (level, (lo, hi)) :: after ->
     Forall (fun entry => ~ holds_score score entry) before ->
     lo <= score <= hi ->
     get_risk_level self score = level) /\
  (Forall (fun entry => ~ holds_score score entry) (risk_levels self) ->
   get_risk_level self score = "unknown") /\
  (get_risk_level self score = "unknown" \/
   exists lo hi,
     (get_risk_level self score, (lo, hi)) ∈ risk_levels self /\
     lo <= score <= hi).
Proof.
  unfold get_risk_level. split; [|split].
  - intros before level lo hi after. apply first_level_first_match.
  - apply first_level_unknown.
  - apply first_level_sound.
Qed.

Lemma get_risk_level_first_match_witness :
  get_risk_level
    (mkScorer ∅ ∅ [("low", (0, 50)); ("high", (40, 100)); ("top", (45, 60))]) 45
  = "low" /\
  get_risk_level
    (mkScorer ∅ ∅ [("low", (0, 50)); ("high", (40, 100)); ("top", (45, 60))]) 70
  = "high" /\
  get_risk_level default_scorer 101 = "unknown".
Proof.
  pose (table := [("low", (0, 50)); ("high", (40, 100)); ("top", (45, 60))]
                 : list (string * (Z * Z))).
  split; [|split].
  - apply (proj1 (get_risk_level_first_match (mkScorer ∅ ∅ table) 45)
             [] "low" 0 50 [("high", (40, 100)); ("top", (45, 60))]).
    + reflexivity.
    + constructor.
    + lia.
  - apply (proj1 (get_risk_level_first_match (mkScorer ∅ ∅ table) 70)
             [("low", (0, 50))] "high" 40 100 [("top", (45, 60))]).
    + reflexivity.
    + repeat constructor. unfold holds_score. simpl. lia.
    + lia.
  - apply (proj1 (proj2 (get_risk_level_first_match default_scorer 101))).
    repeat constructor; unfold holds_score; simpl; lia.
Defined.

Lemma default_risk_level (score : Z) :
  get_risk_level default_scorer score =
    if score <? 0 then "unknown"
    else if score <=? 20 then "negligible"
    else if score <=? 40 then "low"
    else if score <=? 60 then "medium"
    else if score <=? 80 then "high"
    else if score <=? 100 then "very_high"
    else "unknown".
Proof.
  unfold get_risk_level. simpl.
  repeat match goal with
  | |- context [Z.leb ?a ?b] => destruct (Z.leb_spec a b); simpl
  | |- context [Z.ltb ?a ?b] => destruct (Z.ltb_spec a b); simpl
  end; try reflexivity; lia.
Qed.

(** X2.  Under the default configuration the five bands cover the scores
    0 to 100 without a gap — a score is ["unknown"] exactly when it lies
    outside — and they agree with the traffic light: green is negligible
    or low, yellow is medium, red is high or very high. *)
Theorem default_bands_agree_with_traffic_light (score : Z) :
  (get_risk_level default_scorer score = "unknown"
   <-> score < 0 \/ 100 < score) /\
  (0 <= score <= 100 ->
   (get_traffic_light score = "green"
    <-> get_risk_level default_scorer score ∈ ["negligible"; "low"]) /\
   (get_traffic_light score = "yellow"
    <-> get_risk_level default_scorer score = "medium") /\
   (get_traffic_light score = "red"
    <-> get_risk_level default_scorer score ∈ ["high"; "very_high"])).
Proof.
  rewrite default_risk_level. unfold get_traffic_light.
  rewrite !elem_of_cons, !elem_of_nil.
  destruct (Z.ltb_spec score 0), (Z.leb_spec score 20), (Z.leb_spec score 40),
    (Z.leb_spec score 60), (Z.leb_spec score 80), (Z.leb_spec score 100);
    try lia; simpl; intuition (try congruence; try lia).
Qed.

Lemma default_bands_agree_with_traffic_light_witness :
  0 <= 41 <= 100 /\
  get_traffic_light 41 = "yellow" /\
  get_risk_level default_scorer 41 = "medium".
Proof.
  assert (0 <= 41 <= 100) as H by lia.
  split; [exact H|]. split; [reflexivity|].
  apply (proj1 (proj2 (proj2 (default_bands_agree_with_traffic_light 41) H))).
  reflexivity.
Defined.

(* ===================================================================== *)
(** ** Further properties: the assessment as a whole *)
(* ===================================================================== *)

Lemma compute_risk_inputs (scorer : BiomechanicalScorer)
    (inputs : gmap string Features) :
  compute_risk scorer inputs
  = compute_risk scorer (inputs_of (default ∅ (inputs !! "ergonomic_features"))).
Proof. unfold compute_risk. by rewrite inputs_of_get. Qed.

Lemma compute_risk_no_features (scorer : BiomechanicalScorer) :
  compute_risk scorer (inputs_of ∅) = null_result.
Proof. reflexivity. Qed.

(** The run of [compute_risk] when both scores exist and are in range. *)
Lemma compute_risk_run (scorer : BiomechanicalScorer) (f : Features)
    (ra : RebaResult) (ru : RulaResult) :
  f <> ∅ ->
  calculate_reba_score scorer f = Ok ra ->
  calculate_rula_score scorer f = Ok ru ->
  0 <= reba_score ra ->
  compute_risk scorer (inputs_of f) =
    let c := (reba_score ra + rula_score ru) / 2 in
    {| rula := Some (rula_score ru);
       reba := Some (reba_score ra);
       niosh := None;
       composite := Some c;
       confidence :=
         Some (round2 ((reba_confidence ra + rula_confidence ru) / 2)%float);
       traffic_light := Some (get_traffic_light c);
       risk_level := Some (get_risk_level scorer c);
       details := Some (ra, ru);
       error := None |}.
Proof.
  intros Hne Hra Hru Hpos. unfold compute_risk. rewrite inputs_of_get.
  case_decide as Hsize; [by apply map_size_empty_iff in Hsize|].
  rewrite Hra, Hru. cbn [mbind result_bind].
  pose proof (rula_score_range _ _ _ Hru) as Hrange.
  pose proof (reba_score_capped _ _ _ Hra) as Hcap.
  pose proof (composite_arithmetic (reba_score ra + rula_score ru)) as Hs.
  destruct (int_truediv _ 2) as [q|e]; cbn [mbind result_bind] in *;
    [|by discriminate Hs; lia].
  destruct (int q) as [c|e]; [|by discriminate Hs; lia].
  assert (Ok c = Ok ((reba_score ra + rula_score ru) / 2)) as Heq
    by (apply Hs; lia).
  injection Heq as ->. reflexivity.
Qed.

(** X3.  With the default weights (configured, or through the fallbacks)
    [compute_risk] never takes its [except] branch: the result carries no
    error, it is the all-null dictionary exactly when there are no
    features, and otherwise REBA lies in 0..80, RULA in 0..100 and the
    composite, their average rounded down, in 0..90, with the traffic light
    and the risk level those of the composite; with the default table the
    level is never ["unknown"]. *)
Theorem default_weights_never_fail (scorer : BiomechanicalScorer)
    (inputs : gmap string Features) :
  default_weights scorer ->
  let f := default ∅ (inputs !! "ergonomic_features") in
  let r := compute_risk scorer inputs in
  error r = None /\
  (r = null_result <-> f = ∅) /\
  (f <> ∅ ->
   exists a b,
     reba r = Some a /\ rula r = Some b /\ composite r = Some ((a + b) / 2) /\
     0 <= a <= 80 /\ 0 <= b <= 100 /\ 0 <= (a + b) / 2 <= 90 /\
     traffic_light r = Some (get_traffic_light ((a + b) / 2)) /\
     risk_level r = Some (get_risk_level scorer ((a + b) / 2)) /\
     (risk_levels scorer = risk_levels default_scorer ->
      risk_level r <> Some "unknown")).
Proof.
  intros Hw f r. unfold r. rewrite compute_risk_inputs. fold f.
  destruct (decide (f = ∅)) as [->|Hne].
  { rewrite compute_risk_no_features. by repeat split. }
  destruct (calculate_reba_score_default scorer f Hw) as (ra & Hra & Hrange).
  destruct (calculate_rula_score scorer f) as [ru|e] eqn:Hru.
  2:{ destruct (calculate_rula_score_unfold scorer f) as (c & _ & Hc).
      congruence. }
  pose proof (rula_score_range _ _ _ Hru) as Hrula.
  rewrite (compute_risk_run scorer f ra ru Hne Hra Hru) by lia.
  cbn zeta. split; [done|]. split; [split; [discriminate|done]|].
  intros _. exists (reba_score ra), (rula_score ru).
  assert (0 <= (reba_score ra + rula_score ru) / 2 <= 90) as Hc.
  { split; [apply Z.div_pos; lia|].
    apply Z.div_le_upper_bound; lia. }
  repeat split; try done; try lia.
  intros Htable. cbn. unfold get_risk_level. rewrite Htable.
  fold (get_risk_level default_scorer ((reba_score ra + rula_score ru) / 2)).
  rewrite default_risk_level.
  intros [= Hunknown]. revert Hunknown.
  repeat match goal with
  | |- context [Z.leb ?a ?b] => destruct (Z.leb_spec a b)
  | |- context [Z.ltb ?a ?b] => destruct (Z.ltb_spec a b)
  end; try discriminate; lia.
Qed.

Lemma default_weights_never_fail_witness :
  default_weights default_scorer /\
  default ∅ (inputs_of bent_worker !! "ergonomic_features") <> ∅ /\
  error (compute_risk default_scorer (inputs_of bent_worker)) = None /\
  exists a b,
    reba (compute_risk default_scorer (inputs_of bent_worker)) = Some a /\
    rula (compute_risk default_scorer (inputs_of bent_worker)) = Some b /\
    0 <= (a + b) / 2 <= 90.
Proof.
  assert (default ∅ (inputs_of bent_worker !! "ergonomic_features") <> ∅)
    as Hne.
  { intros H. apply (f_equal size) in H. vm_compute in H. discriminate. }
  split; [exact default_scorer_default_weights|]. split; [exact Hne|].
  destruct (default_weights_never_fail default_scorer (inputs_of bent_worker)
              default_scorer_default_weights) as (Herr & _ & Hscores).
  split; [exact Herr|].
  destruct (Hscores Hne) as (a & b & Ha & Hb & _ & _ & _ & Hc & _).
  exists a, b. split; [exact Ha|]. split; [exact Hb|exact Hc].
Defined.

Lemma mul_nan_r (x w : float) : is_nan w = true -> is_nan (x * w) = true.
Proof.
  unfold is_nan. rewrite mul_spec.
  destruct (Prim2SF w); try done. by destruct (Prim2SF x).
Qed.

Lemma mul_nan_l (x w : float) : is_nan x = true -> is_nan (x * w) = true.
Proof.
  unfold is_nan. rewrite mul_spec.
  destruct (Prim2SF x); try done.
Qed.

Lemma add_nan_l (x y : float) : is_nan x = true -> is_nan (x + y) = true.
Proof.
  unfold is_nan. rewrite add_spec.
  destruct (Prim2SF x); try done.
Qed.

Lemma add_nan_r (x y : float) : is_nan y = true -> is_nan (x + y) = true.
Proof.
  unfold is_nan. rewrite add_spec.
  destruct (Prim2SF y); try done. by destruct (Prim2SF x).
Qed.

Lemma int_of_nan (x : float) :
  is_nan x = true ->
  int x = Raise (ValueError "cannot convert float NaN to integer").
Proof. unfold is_nan, int. by destruct (Prim2SF x). Qed.

(** X4.  A NaN among the weights turns every assessment of a non-empty
    record into the error dictionary: the weighted sum is NaN whatever the
    angles are, [int] refuses it, and [compute_risk] reports the
    [ValueError] text with all scores null. *)
Theorem nan_weight_fails_every_assessment (scorer : BiomechanicalScorer)
    (f : Features) :
  f <> ∅ -> nan_weight scorer ->
  raises (calculate_reba_score scorer f) /\
  compute_risk scorer (inputs_of f)
  = error_result (ValueError "cannot convert float NaN to integer").
Proof.
  intros Hne Hnan.
  assert (calculate_reba_score scorer f
          = Raise (ValueError "cannot convert float NaN to integer")) as Hreba.
  { rewrite calculate_reba_score_unfold. cbn zeta.
    rewrite int_of_nan; [done|].
    apply mul_nan_l. unfold weighted_sum.
    destruct Hnan as [H|[H|[H|H]]].
    - by do 3 apply add_nan_l; apply mul_nan_r.
    - by do 2 apply add_nan_l; apply add_nan_r, mul_nan_r.
    - by apply add_nan_l, add_nan_r, mul_nan_r.
    - by apply add_nan_r, mul_nan_r. }
  split; [rewrite Hreba; by eexists|].
  unfold compute_risk. rewrite inputs_of_get.
  case_decide as Hsize; [by apply map_size_empty_iff in Hsize|].
  by rewrite Hreba.
Qed.

Lemma nan_weight_fails_every_assessment_witness :
  neck_only <> ∅ /\
  nan_weight (mkScorer ∅ {[ "trunk" := nan ]} []) /\
  error (compute_risk (mkScorer ∅ {[ "trunk" := nan ]} []) (inputs_of neck_only))
  = Some "cannot convert float NaN to integer".
Proof.
  assert (neck_only <> ∅) as Hne.
  { intros H. apply (f_equal size) in H. vm_compute in H. discriminate. }
  assert (nan_weight (mkScorer ∅ {[ "trunk" := nan ]} [])) as Hnan.
  { right. left. reflexivity. }
  split; [exact Hne|]. split; [exact Hnan|].
  rewrite (proj2 (nan_weight_fails_every_assessment _ _ Hne Hnan)).
  reflexivity.
Defined.

(* ===================================================================== *)
(** ** Further properties: what the scores depend on *)
(* ===================================================================== *)

Lemma insert_non_empty_features (f : Features) (k : string) (v : option float) :
  <[k := v]> f <> ∅.
Proof. apply insert_non_empty. Qed.

Lemma feature_get_insert_eq (f : Features) (k : string) (v : option float) :
  feature_get (<[k := v]> f) k = v.
Proof. unfold feature_get. by rewrite lookup_insert_eq. Qed.

(** X5.  The scores read six features — the two flexions of neck and
    trunk and the four arm angles — and read each through [get]: two
    non-empty records that give the same answer on these six get the same
    RULA, REBA and composite scores, traffic light, risk level and error,
    whatever their asymmetry score and reach ratio are, and whether an
    unknown feature is a missing key or a key bound to [None]. *)
Theorem scores_depend_on_six_angles (scorer : BiomechanicalScorer)
    (f g : Features) :
  f <> ∅ -> g <> ∅ ->
  (forall k, k ∈ scored_features -> feature_get f k = feature_get g k) ->
  same_scores (compute_risk scorer (inputs_of f))
              (compute_risk scorer (inputs_of g)).
Proof.
  intros Hf Hg Hsame. unfold compute_risk. rewrite !inputs_of_get.
  case_decide as Hsf; [by apply map_size_empty_iff in Hsf|].
  case_decide as Hsg; [by apply map_size_empty_iff in Hsg|].
  rewrite !calculate_reba_score_unfold. cbn zeta.
  destruct (calculate_rula_score_unfold scorer f) as (cf & Hcf & ->).
  destruct (calculate_rula_score_unfold scorer g) as (cg & Hcg & ->).
  rewrite Hcf, Hcg.
  rewrite <- !(Hsame "neck_flexion"), <- !(Hsame "trunk_flexion"),
    <- !(Hsame "left_shoulder_abduction"), <- !(Hsame "right_shoulder_abduction"),
    <- !(Hsame "left_elbow_flexion"), <- !(Hsame "right_elbow_flexion")
    by (apply list_elem_of_In; simpl; tauto).
  destruct (int (weighted_sum scorer _ _ _ _ * 25)) as [k|e];
    cbn [mbind result_bind]; [|by repeat split].
  cbn [reba_score rula_score].
  destruct (int_truediv _ 2) as [q|e]; cbn [mbind result_bind];
    [|by repeat split].
  destruct (int q) as [c|e]; by repeat split.
Qed.

Lemma scores_depend_on_six_angles_witness :
  bent_worker <> ∅ /\
  delete "reach_distance_ratio"
    (<["asymmetry_score" := Some 12%float]> bent_worker) <> ∅ /\
  composite (compute_risk default_scorer (inputs_of bent_worker))
  = composite
      (compute_risk default_scorer
         (inputs_of (delete "reach_distance_ratio"
                       (<["asymmetry_score" := Some 12%float]> bent_worker)))).
Proof.
  pose (g := delete "reach_distance_ratio"
               (<["asymmetry_score" := Some 12%float]> bent_worker)).
  assert (bent_worker <> ∅) as Hf.
  { intros H. apply (f_equal size) in H. vm_compute in H. discriminate. }
  assert (g <> ∅) as Hg.
  { intros H. apply (f_equal size) in H. vm_compute in H. discriminate. }
  assert (forall k, k ∈ scored_features ->
            feature_get bent_worker k = feature_get g k) as Hsame.
  { intros k Hk. unfold scored_features in Hk.
    rewrite !elem_of_cons, elem_of_nil in Hk.
    destruct Hk as [-> | [-> | [-> | [-> | [-> | [-> | []]]]]]]; reflexivity. }
  split; [exact Hf|]. split; [exact Hg|].
  exact (proj1 (proj2 (proj2 (proj2
           (scores_depend_on_six_angles default_scorer bent_worker g
              Hf Hg Hsame))))).
Defined.

Lemma score_angle_le (th : Thresholds) (a1 a2 : float) :
  (a1 <=? a2)%float = true ->
  _score_angle (Some a1) th <= _score_angle (Some a2) th.
Proof.
  intros Hle.
  pose proof (float_le_lt_trans a1 a2 (low th) Hle) as Hl.
  pose proof (float_le_lt_trans a1 a2 (medium th) Hle) as Hm.
  pose proof (float_le_lt_trans a1 a2 (high th) Hle) as Hh.
  unfold _score_angle.
  destruct (a2 <? low th)%float; [rewrite Hl by done; lia|].
  destruct (a2 <? medium th)%float;
    [rewrite Hm by done; destruct (a1 <? low th)%float; lia|].
  destruct (a2 <? high th)%float;
    [rewrite Hh by done; repeat case_match; lia|].
  repeat case_match; lia.
Qed.

Lemma calculate_rula_score_monotone (scorer : BiomechanicalScorer)
    (f : Features) (k : string) (a1 a2 : float) :
  k ∈ rula_features ->
  (a1 <=? a2)%float = true ->
  exists r1 r2,
    calculate_rula_score scorer (<[k := Some a1]> f) = Ok r1 /\
    calculate_rula_score scorer (<[k := Some a2]> f) = Ok r2 /\
    rula_score r1 <= rula_score r2.
Proof.
  intros Hk Hle.
  destruct (calculate_rula_score_unfold scorer (<[k := Some a1]> f))
    as (c1 & _ & ->).
  destruct (calculate_rula_score_unfold scorer (<[k := Some a2]> f))
    as (c2 & _ & ->).
  eexists _, _. split; [reflexivity|]. split; [reflexivity|].
  cbn [rula_score].
  pose proof (score_angle_le (shoulder_thresholds scorer) a1 a2 Hle).
  pose proof (score_angle_le (elbow_thresholds scorer) a1 a2 Hle).
  pose proof (score_angle_le (neck_thresholds scorer) a1 a2 Hle).
  pose proof (score_angle_le (trunk_thresholds scorer) a1 a2 Hle).
  unfold rula_features in Hk. rewrite !elem_of_cons, elem_of_nil in Hk.
  destruct Hk as [-> | [-> | [-> | [-> | []]]]];
    rewrite ?feature_get_insert_eq, ?feature_get_insert_ne by done;
    apply Z.min_le_compat_r, Z.div_le_mono; lia.
Qed.

(** X6.  RULA is monotone in each of the four angles it reads, for every
    configuration of thresholds: replacing the left shoulder abduction,
    the left elbow flexion, the neck flexion or the trunk flexion by a
    larger angle never lowers the RULA score, and it reaches its cap of
    100 as soon as the four ordinals add up to 8 of the possible 16. *)
Theorem rula_monotone_in_each_angle (scorer : BiomechanicalScorer)
    (f : Features) (k : string) (a1 a2 : float) :
  k ∈ rula_features ->
  (a1 <=? a2)%float = true ->
  exists r1 r2,
    calculate_rula_score scorer (<[k := Some a1]> f) = Ok r1 /\
    calculate_rula_score scorer (<[k := Some a2]> f) = Ok r2 /\
    rula_score r1 <= rula_score r2 /\
    (rula_score r2 = 100 <-> 8 <= group_a_score r2 + group_b_score r2).
Proof.
  intros Hk Hle.
  destruct (calculate_rula_score_monotone scorer f k a1 a2 Hk Hle)
    as (r1 & r2 & H1 & H2 & Hmono).
  exists r1, r2. split; [done|]. split; [done|]. split; [done|].
  destruct (calculate_rula_score_unfold scorer (<[k := Some a2]> f))
    as (c2 & _ & Hr2).
  rewrite H2 in Hr2. injection Hr2 as ->. cbn.
  split; intros H.
  - destruct (Z.le_gt_cases 8
               (_score_angle (feature_get (<[k:=Some a2]> f) "left_shoulder_abduction")
                  (shoulder_thresholds scorer) +
                _score_angle (feature_get (<[k:=Some a2]> f) "left_elbow_flexion")
                  (elbow_thresholds scorer) +
                (_score_angle (feature_get (<[k:=Some a2]> f) "neck_flexion")
                   (neck_thresholds scorer) +
                 _score_angle (feature_get (<[k:=Some a2]> f) "trunk_flexion")
                   (trunk_thresholds scorer)))) as [?|Hlt]; [done|].
    exfalso. revert H. apply Z.lt_neq, Z.min_lt_iff. left.
    apply Z.div_lt_upper_bound; lia.
  - apply Z.min_r, Z.div_le_lower_bound; lia.
Qed.

Lemma rula_monotone_in_each_angle_witness :
  "neck_flexion" ∈ rula_features /\ (30 <=? 50)%float = true /\
  exists r1 r2,
    calculate_rula_score default_scorer
      (<["neck_flexion" := Some 30%float]> bent_worker) = Ok r1 /\
    calculate_rula_score default_scorer
      (<["neck_flexion" := Some 50%float]> bent_worker) = Ok r2 /\
    rula_score r1 <= rula_score r2.
Proof.
  assert ("neck_flexion" ∈ rula_features) as Hk
    by (apply list_elem_of_In; simpl; tauto).
  assert ((30 <=? 50)%float = true) as Hle by reflexivity.
  split; [exact Hk|]. split; [exact Hle|].
  destruct (rula_monotone_in_each_angle default_scorer bent_worker
              "neck_flexion" 30 50 Hk Hle) as (r1 & r2 & H1 & H2 & Hmono & _).
  exists r1, r2. split; [exact H1|]. split; [exact H2|exact Hmono].
Defined.

(** Exhaustive run: under the default weights a larger neck or trunk
    ordinal never gives a smaller REBA number. *)
Lemma default_reba_monotone_checked :
  forallb (fun o1 => forallb (fun o2 => forallb (fun a => forallb (fun b =>
    forallb (fun c =>
      negb (o1 <=? o2) ||
      (result_le (default_reba_of o1 a b c) (default_reba_of o2 a b c) &&
       result_le (default_reba_of a o1 b c) (default_reba_of a o2 b c)))
    ordinals) ordinals) ordinals) ordinals) ordinals = true.
Proof. vm_compute. reflexivity. Qed.

Lemma default_reba_table_monotone (o1 o2 a b c : Z) :
  0 <= o1 <= 4 -> 0 <= o2 <= 4 -> 0 <= a <= 4 -> 0 <= b <= 4 -> 0 <= c <= 4 ->
  o1 <= o2 ->
  result_le (default_reba_of o1 a b c) (default_reba_of o2 a b c) = true /\
  result_le (default_reba_of a o1 b c) (default_reba_of a o2 b c) = true.
Proof.
  intros H1 H2 Ha Hb Hc Hle.
  pose proof (proj1 (forallb_forall _ _) default_reba_monotone_checked
                o1 (ordinal_in_table o1 H1)) as H.
  cbv beta in H.
  pose proof (proj1 (forallb_forall _ _) H o2 (ordinal_in_table o2 H2)) as G2.
  cbv beta in G2. clear H.
  pose proof (proj1 (forallb_forall _ _) G2 a (ordinal_in_table a Ha)) as G3.
  cbv beta in G3. clear G2.
  pose proof (proj1 (forallb_forall _ _) G3 b (ordinal_in_table b Hb)) as G4.
  cbv beta in G4. clear G3.
  pose proof (proj1 (forallb_forall _ _) G4 c (ordinal_in_table c Hc)) as H.
  cbv beta in H. clear G4.
  apply orb_true_iff in H as [H|H].
  - apply negb_true_iff, Z.leb_gt in H. lia.
  - by apply andb_true_iff in H.
Qed.

Lemma result_le_Ok (x y : result Z) :
  result_le x y = true -> exists a b, x = Ok a /\ y = Ok b /\ a <= b.
Proof.
  destruct x as [a|], y as [b|]; try done. simpl. intros H%Z.leb_le. eauto.
Qed.

Lemma calculate_reba_score_default_run (scorer : BiomechanicalScorer)
    (f : Features) :
  default_weights scorer ->
  let neck := _score_angle (feature_get f "neck_flexion") (neck_thresholds scorer) in
  let trunk := _score_angle (feature_get f "trunk_flexion") (trunk_thresholds scorer) in
  let upper_arm :=
    _score_angle (arm_angle (feature_get f "left_shoulder_abduction")
                            (feature_get f "right_shoulder_abduction"))
      (shoulder_thresholds scorer) in
  let lower_arm :=
    _score_angle (arm_angle (feature_get f "left_elbow_flexion")
                            (feature_get f "right_elbow_flexion"))
      (elbow_thresholds scorer) in
  forall k, default_reba_of neck trunk upper_arm lower_arm = Ok k ->
  exists r, calculate_reba_score scorer f = Ok r /\ reba_score r = Z.min k 100.
Proof.
  intros (Hn & Ht & Hu & Hl) neck trunk upper_arm lower_arm k Hk.
  rewrite calculate_reba_score_unfold. cbn zeta.
  fold neck trunk upper_arm lower_arm.
  unfold weighted_sum. rewrite Hn, Ht, Hu, Hl.
  unfold default_reba_of in Hk. rewrite Hk.
  destruct (calculate_confidence_total f) as [c ->].
  eexists. split; [reflexivity|done].
Qed.

(** X7.  Under the default weights a larger neck or trunk flexion never
    lowers a score: REBA, RULA and the composite of the record with the
    larger angle are each at least those of the record with the smaller
    one.  (The REBA number is a truncated binary product; that it is
    monotone in the ordinals is checked over all their combinations.) *)
Theorem larger_flexion_never_lowers_scores (scorer : BiomechanicalScorer)
    (f : Features) (k : string) (a1 a2 : float) :
  default_weights scorer ->
  k ∈ ["neck_flexion"; "trunk_flexion"] ->
  (a1 <=? a2)%float = true ->
  let r1 := compute_risk scorer (inputs_of (<[k := Some a1]> f)) in
  let r2 := compute_risk scorer (inputs_of (<[k := Some a2]> f)) in
  exists x1 y1 x2 y2,
    reba r1 = Some x1 /\ rula r1 = Some y1 /\ composite r1 = Some ((x1 + y1) / 2) /\
    reba r2 = Some x2 /\ rula r2 = Some y2 /\ composite r2 = Some ((x2 + y2) / 2) /\
    x1 <= x2 /\ y1 <= y2 /\ (x1 + y1) / 2 <= (x2 + y2) / 2.
Proof.
  intros Hw Hk Hle r1 r2.
  assert (k ∈ rula_features) as Hk'.
  { unfold rula_features. rewrite !elem_of_cons, elem_of_nil in *. tauto. }
  destruct (calculate_rula_score_monotone scorer f k a1 a2 Hk' Hle)
    as (u1 & u2 & Hu1 & Hu2 & Hrula).
  assert (exists v1 v2,
            calculate_reba_score scorer (<[k := Some a1]> f) = Ok v1 /\
            calculate_reba_score scorer (<[k := Some a2]> f) = Ok v2 /\
            0 <= reba_score v1 <= reba_score v2) as (v1 & v2 & Hv1 & Hv2 & Hreba).
  { pose proof (calculate_reba_score_default_run scorer (<[k := Some a1]> f) Hw)
      as Hrun1.
    pose proof (calculate_reba_score_default_run scorer (<[k := Some a2]> f) Hw)
      as Hrun2.
    destruct (calculate_reba_score_default scorer (<[k := Some a1]> f) Hw)
      as (v1 & Hv1 & Hpos).
    cbn zeta in Hrun1, Hrun2.
    pose proof (score_angle_le (neck_thresholds scorer) a1 a2 Hle) as Hneck.
    pose proof (score_angle_le (trunk_thresholds scorer) a1 a2 Hle) as Htrunk.
    rewrite !elem_of_cons, elem_of_nil in Hk.
    destruct Hk as [-> | [-> | []]];
      rewrite ?feature_get_insert_eq, ?feature_get_insert_ne in Hrun1, Hrun2
        by done.
    - edestruct (default_reba_table_monotone
                   (_score_angle (Some a1) (neck_thresholds scorer))
                   (_score_angle (Some a2) (neck_thresholds scorer)))
        as [Hmono _]; [apply score_angle_range..|exact Hneck|].
      apply result_le_Ok in Hmono as (x1 & x2 & Hx1 & Hx2 & Hx).
      destruct (Hrun1 _ Hx1) as (w1 & Hw1 & Hs1).
      destruct (Hrun2 _ Hx2) as (w2 & Hw2 & Hs2).
      exists w1, w2. split; [done|]. split; [done|].
      assert (w1 = v1) as -> by congruence. lia.
    - edestruct (default_reba_table_monotone
                   (_score_angle (Some a1) (trunk_thresholds scorer))
                   (_score_angle (Some a2) (trunk_thresholds scorer)))
        as [_ Hmono]; [apply score_angle_range..|exact Htrunk|].
      apply result_le_Ok in Hmono as (x1 & x2 & Hx1 & Hx2 & Hx).
      destruct (Hrun1 _ Hx1) as (w1 & Hw1 & Hs1).
      destruct (Hrun2 _ Hx2) as (w2 & Hw2 & Hs2).
      exists w1, w2. split; [done|]. split; [done|].
      assert (w1 = v1) as -> by congruence. lia. }
  unfold r1, r2.
  rewrite (compute_risk_run scorer _ v1 u1 (insert_non_empty_features _ _ _)
             Hv1 Hu1) by lia.
  rewrite (compute_risk_run scorer _ v2 u2 (insert_non_empty_features _ _ _)
             Hv2 Hu2) by lia.
  exists (reba_score v1), (rula_score u1), (reba_score v2), (rula_score u2).
  cbn. repeat split; try done; try lia.
  apply Z.div_le_mono; lia.
Qed.

Lemma larger_flexion_never_lowers_scores_witness :
  default_weights default_scorer /\
  "trunk_flexion" ∈ ["neck_flexion"; "trunk_flexion"] /\
  (30 <=? 50)%float = true /\
  exists x1 y1 x2 y2,
    composite (compute_risk default_scorer
                 (inputs_of (<["trunk_flexion" := Some 30%float]> neck_only)))
    = Some ((x1 + y1) / 2) /\
    composite (compute_risk default_scorer
                 (inputs_of (<["trunk_flexion" := Some 50%float]> neck_only)))
    = Some ((x2 + y2) / 2) /\
    (x1 + y1) / 2 <= (x2 + y2) / 2.
Proof.
  assert ("trunk_flexion" ∈ ["neck_flexion"; "trunk_flexion"]) as Hk
    by (apply list_elem_of_In; simpl; tauto).
  assert ((30 <=? 50)%float = true) as Hle by reflexivity.
  split; [exact default_scorer_default_weights|].
  split; [exact Hk|]. split; [exact Hle|].
  destruct (larger_flexion_never_lowers_scores default_scorer neck_only
              "trunk_flexion" 30 50 default_scorer_default_weights Hk Hle)
    as (x1 & y1 & x2 & y2 & _ & _ & H1 & _ & _ & H2 & _ & _ & Hc).
  exists x1, y1, x2, y2. split; [exact H1|]. split; [exact H2|exact Hc].
Defined.

(* ===================================================================== *)
(** ** Further properties: configuration *)
(* ===================================================================== *)

Lemma scorer_of_default_config :
  scorer_of_config scorer_config._get_default_config = default_scorer.
Proof. reflexivity. Qed.

Lemma same_lookups_same_scores (s s' : BiomechanicalScorer) (f : Features) :
  neck_thresholds s = neck_thresholds s' ->
  trunk_thresholds s = trunk_thresholds s' ->
  shoulder_thresholds s = shoulder_thresholds s' ->
  elbow_thresholds s = elbow_thresholds s' ->
  weights_get s "neck" 0.20 = weights_get s' "neck" 0.20 ->
  weights_get s "trunk" 0.25 = weights_get s' "trunk" 0.25 ->
  weights_get s "upper_arm" 0.20 = weights_get s' "upper_arm" 0.20 ->
  weights_get s "lower_arm" 0.15 = weights_get s' "lower_arm" 0.15 ->
  calculate_reba_score s f = calculate_reba_score s' f /\
  calculate_rula_score s f = calculate_rula_score s' f.
Proof.
  intros Hn Ht Hs He Hwn Hwt Hwu Hwl. split.
  - rewrite !calculate_reba_score_unfold. cbn zeta. unfold weighted_sum.
    by rewrite Hn, Ht, Hs, He, Hwn, Hwt, Hwu, Hwl.
  - destruct (calculate_rula_score_unfold s f) as (c & Hc & ->).
    destruct (calculate_rula_score_unfold s' f) as (c' & Hc' & ->).
    rewrite Hn, Ht, Hs, He. congruence.
Qed.

(** X8.  The fallback literals of the score computations are the values
    of the built-in default configuration: a configuration that has no
    thresholds and no weights is scored exactly like the default one —
    same RULA, REBA, composite, confidence, traffic light, details and
    error — and differs only in the risk level, which is looked up in its
    own table and is ["unknown"] for every score when it has no table. *)
Theorem missing_sections_fall_back_to_defaults (config : ScorerConfig)
    (inputs : gmap string Features) :
  thresholds (scorer_of_config config) = ∅ ->
  weights (scorer_of_config config) = ∅ ->
  let r := compute_risk (scorer_of_config config) inputs in
  let d := compute_risk default_scorer inputs in
  rula r = rula d /\ reba r = reba d /\ niosh r = niosh d /\
  composite r = composite d /\ confidence r = confidence d /\
  traffic_light r = traffic_light d /\ details r = details d /\
  error r = error d /\
  risk_level r = get_risk_level (scorer_of_config config) <$> composite d /\
  (risk_levels (scorer_of_config config) = [] ->
   risk_level r = (fun _ => "unknown") <$> composite d).
Proof.
  intros Hth Hw r d. unfold r, d, compute_risk.
  case_decide as Hsize; [by repeat split|].
  destruct (same_lookups_same_scores (scorer_of_config config) default_scorer
              (default ∅ (inputs !! "ergonomic_features")))
    as [-> ->];
    try (unfold neck_thresholds, trunk_thresholds, shoulder_thresholds,
           elbow_thresholds, thresholds_get; by rewrite Hth);
    try (unfold weights_get; by rewrite Hw).
  destruct (calculate_reba_score default_scorer _) as [ra|e];
    [|by repeat split].
  destruct (calculate_rula_score default_scorer _) as [ru|e];
    [|by repeat split].
  cbn [mbind result_bind].
  destruct (int_truediv _ 2) as [q|e]; [|by repeat split].
  cbn [mbind result_bind].
  destruct (int q) as [c|e]; [|by repeat split].
  cbn. repeat split. intros Hlevels. unfold get_risk_level.
  by rewrite Hlevels.
Qed.

Lemma missing_sections_fall_back_to_defaults_witness :
  thresholds (scorer_of_config levels_only) = ∅ /\
  weights (scorer_of_config levels_only) = ∅ /\
  reba (compute_risk (scorer_of_config levels_only) (inputs_of bent_worker))
  = reba (compute_risk default_scorer (inputs_of bent_worker)).
Proof.
  assert (thresholds (scorer_of_config levels_only) = ∅) as Hth by reflexivity.
  assert (weights (scorer_of_config levels_only) = ∅) as Hw by reflexivity.
  split; [exact Hth|]. split; [exact Hw|].
  exact (proj1 (proj2 (missing_sections_fall_back_to_defaults levels_only
                         (inputs_of bent_worker) Hth Hw))).
Defined.

(** X9.  The scorer is built once.  When [get_scorer] returns a scorer it
    keeps it, and every later call returns that same scorer without
    looking at the configuration file again, so that [compute_risk] cannot
    raise from then on.  Building it raises when loading the file raises,
    when the document loaded is not a mapping — an empty file loads as
    [None], on which [get] is an [AttributeError] — and when its
    ["risk_scoring"] entry is not one; nothing is kept then.  A missing
    configuration file gives the default scorer. *)
Theorem get_scorer_loads_once (World : Type)
    (path_exists : string -> World -> bool)
    (yaml_safe_load : string -> World -> result Document)
    (_scorer : option BiomechanicalScorer) (w : World) :
  (forall scorer kept,
     get_scorer World path_exists yaml_safe_load _scorer w = (Ok scorer, kept) ->
     kept = Some scorer /\
     forall w' inputs,
       get_scorer World path_exists yaml_safe_load kept w' = (Ok scorer, kept) /\
       compute_risk_call World path_exists yaml_safe_load inputs kept w'
       = (Ok (compute_risk scorer inputs), kept)) /\
  (forall e kept,
     get_scorer World path_exists yaml_safe_load _scorer w = (Raise e, kept) ->
     _scorer = None /\ kept = None /\
     path_exists "src/config/models.yaml" w = true /\
     (yaml_safe_load "src/config/models.yaml" w = Raise e \/
      yaml_safe_load "src/config/models.yaml" w = Ok DocumentNone /\
      e = AttributeError "'NoneType' object has no attribute 'get'" \/
      exists type_name,
        (yaml_safe_load "src/config/models.yaml" w = Ok (DocumentOther type_name) \/
         yaml_safe_load "src/config/models.yaml" w
         = Ok (DocumentSection type_name)) /\
        e = AttributeError
              ("'" +:+ type_name +:+ "' object has no attribute 'get'"))) /\
  (path_exists "src/config/models.yaml" w = true ->
   yaml_safe_load "src/config/models.yaml" w = Ok DocumentNone ->
   get_scorer World path_exists yaml_safe_load None w
   = (Raise (AttributeError "'NoneType' object has no attribute 'get'"), None)) /\
  (path_exists "src/config/models.yaml" w = false ->
   get_scorer World path_exists yaml_safe_load None w
   = (Ok default_scorer, Some default_scorer)).
Proof.
  unfold compute_risk_call, get_scorer, __init__, _load_config.
  split; [|split; [|split]].
  - intros scorer kept H. destruct _scorer as [s|].
    + injection H as <- <-. by repeat split.
    + destruct (negb _); cbn [mbind result_bind] in H.
      * injection H as <- <-. by repeat split.
      * destruct (yaml_safe_load _ w) as [[|t|c|t]|e];
          cbn [mbind result_bind] in H; try done.
        injection H as <- <-. by repeat split.
  - intros e kept H. destruct _scorer as [s|]; [done|].
    destruct (path_exists _ w); simpl negb in H; cbv iota in H;
      cbn [mbind result_bind] in H; [|done].
    destruct (yaml_safe_load _ w) as [[|t|c|t]|e'];
      cbn [mbind result_bind] in H; try done.
    + injection H as <- <-. repeat split; try done. right. left. by split.
    + injection H as <- <-. repeat split; try done. right. right.
      exists t. split; [by left|done].
    + injection H as <- <-. repeat split; try done. right. right.
      exists t. split; [by right|done].
    + injection H as <- <-. repeat split; try done. by left.
  - intros -> ->. reflexivity.
  - intros ->. reflexivity.
Qed.

Lemma get_scorer_loads_once_witness :
  get_scorer (option Document) sample_path_exists sample_yaml_safe_load
    None (Some (DocumentMapping levels_only))
  = (Ok (scorer_of_config levels_only), Some (scorer_of_config levels_only)) /\
  get_scorer (option Document) sample_path_exists sample_yaml_safe_load
    (Some (scorer_of_config levels_only)) None
  = (Ok (scorer_of_config levels_only), Some (scorer_of_config levels_only)) /\
  sample_path_exists "src/config/models.yaml" (Some DocumentNone) = true /\
  sample_yaml_safe_load "src/config/models.yaml" (Some DocumentNone)
  = Ok DocumentNone /\
  get_scorer (option Document) sample_path_exists sample_yaml_safe_load
    None (Some DocumentNone)
  = (Raise (AttributeError "'NoneType' object has no attribute 'get'"), None).
Proof.
  assert (get_scorer (option Document) sample_path_exists
            sample_yaml_safe_load None (Some (DocumentMapping levels_only))
          = (Ok (scorer_of_config levels_only),
             Some (scorer_of_config levels_only))) as Hfirst by reflexivity.
  assert (sample_path_exists "src/config/models.yaml" (Some DocumentNone)
          = true) as Hexists by reflexivity.
  assert (sample_yaml_safe_load "src/config/models.yaml" (Some DocumentNone)
          = Ok DocumentNone) as Hempty by reflexivity.
  split; [exact Hfirst|].
  destruct (get_scorer_loads_once (option Document) sample_path_exists
              sample_yaml_safe_load None (Some (DocumentMapping levels_only)))
    as [Hkept _].
  destruct (Hkept _ _ Hfirst) as [_ Hlater].
  split; [exact (proj1 (Hlater None ∅))|].
  split; [exact Hexists|]. split; [exact Hempty|].
  exact (proj1 (proj2 (proj2
           (get_scorer_loads_once (option Document) sample_path_exists
              sample_yaml_safe_load None (Some DocumentNone))))
           Hexists Hempty).
Defined.

(* ===================================================================== *)
(** ** Further properties: confidence *)
(* ===================================================================== *)

Lemma observed_le_size (f : Features) : (observed f <= size f)%nat.
Proof.
  unfold observed. etrans; [apply length_filter|].
  by rewrite length_fmap, length_map_to_list.
Qed.

Lemma calculate_confidence_observed (f : Features) :
  f <> ∅ ->
  _calculate_confidence f
  = int_truediv (Z.of_nat (observed f)) (Z.of_nat (size f)).
Proof.
  intros Hne. unfold _calculate_confidence.
  case_decide as Hsize; [by apply map_size_empty_iff in Hsize|done].
Qed.

Lemma confidence_of_eight (k : nat) (c : float) :
  (k <= 8)%nat ->
  int_truediv (Z.of_nat k) 8 = Ok c ->
  Some (round2 ((c + c) / 2)%float) = confidence_by_observed !! k.
Proof.
  intros Hk.
  do 9 (destruct k as [|k]; [by intros [= <-]; vm_compute|]). lia.
Qed.

(** X10.  The confidence [compute_risk] reports for a record of eight
    fields — any record the extractor builds — is the share of fields
    that hold a value, [k / 8], rounded to two decimals with ties to the
    even digit: 0, 0.12, 0.25, 0.38, 0.5, 0.62, 0.75, 0.88, 1 for
    [k] = 0 .. 8.  The asymmetry score and the reach ratio count in it,
    though no score reads them. *)
Theorem confidence_is_share_of_observed (scorer : BiomechanicalScorer)
    (f : Features) :
  default_weights scorer ->
  size f = 8%nat ->
  (observed f <= 8)%nat /\
  confidence (compute_risk scorer (inputs_of f))
  = confidence_by_observed !! observed f.
Proof.
  intros Hw Hsize. pose proof (observed_le_size f) as Hobs.
  rewrite Hsize in Hobs. split; [done|].
  assert (f <> ∅) as Hne by (intros ->; done).
  destruct (calculate_reba_score_default scorer f Hw) as (ra & Hra & Hrange).
  destruct (calculate_rula_score_unfold scorer f) as (c & Hc & Hru).
  rewrite (compute_risk_run scorer f ra _ Hne Hra Hru) by lia.
  cbn [confidence rula_confidence].
  assert (reba_confidence ra = c) as ->.
  { rewrite calculate_reba_score_unfold in Hra. cbn zeta in Hra.
    destruct (int _) as [k|e]; [|done]. cbn [mbind result_bind] in Hra.
    rewrite Hc in Hra. by injection Hra as <-. }
  apply confidence_of_eight; [done|].
  rewrite <- Hc, calculate_confidence_observed by done. by rewrite Hsize.
Qed.

Lemma confidence_is_share_of_observed_witness :
  default_weights default_scorer /\ size bent_worker = 8%nat /\
  confidence (compute_risk default_scorer (inputs_of bent_worker))
  = Some 0.38%float.
Proof.
  assert (size bent_worker = 8%nat) as Hsize by (vm_compute; reflexivity).
  split; [exact default_scorer_default_weights|]. split; [exact Hsize|].
  rewrite (proj2 (confidence_is_share_of_observed default_scorer bent_worker
                    default_scorer_default_weights Hsize)).
  vm_compute. reflexivity.
Defined.

(* ===================================================================== *)
(** ** Further properties: keypoints by name *)
(* ===================================================================== *)

(** X11.  [get_keypoint_by_name] returns the first keypoint of the list
    that bears the name — a later duplicate is never returned — and
    [None] exactly when no keypoint bears it. *)
Theorem get_keypoint_by_name_first_match (kps : list Keypoint) (name : string) :
  (forall kp,
     get_keypoint_by_name kps name = Some kp <->
     exists before after,
       kps = before ++ kp :: after /\ kp_name kp = name /\
       none_named name before) /\
  (get_keypoint_by_name kps name = None <-> none_named name kps).
Proof.
  unfold get_keypoint_by_name, none_named.
  induction kps as [|k kps [IHsome IHnone]]; simpl.
  { split.
    - intros kp. split; [done|]. intros (before & after & H & _).
      by destruct before.
    - split; [constructor|done]. }
  destruct (decide (kp_name k = name)) as [Hk|Hk].
  - rewrite bool_decide_eq_true_2 by done. split.
    + intros kp. split.
      * intros [= <-]. exists [], kps. by repeat split.
      * intros (before & after & H & Hname & Hbefore).
        destruct before as [|b before]; simpl in H.
        -- by injection H as <- _.
        -- injection H as <- _. by inversion Hbefore.
    + split; [done|]. by inversion 1.
  - rewrite bool_decide_eq_false_2 by done. split.
    + intros kp. rewrite IHsome. split.
      * intros (before & after & -> & Hname & Hbefore).
        exists (k :: before), after. repeat split; try done.
        by constructor.
      * intros (before & after & H & Hname & Hbefore).
        destruct before as [|b before]; simpl in H.
        -- injection H as <- _. done.
        -- injection H as <- ->. exists before, after.
           repeat split; try done. by inversion Hbefore.
    + rewrite IHnone. split; [by constructor|by inversion 1].
Qed.

Lemma get_keypoint_by_name_none (kps : list Keypoint) (name : string) :
  none_named name kps -> get_keypoint_by_name kps name = None.
Proof.
  unfold get_keypoint_by_name, none_named. induction 1 as [|k kps Hk _ IH];
    simpl; [done|]. by rewrite bool_decide_eq_false_2.
Qed.

Lemma keypoint_name_inj (names : list string) (i j : nat) :
  NoDup names -> (i < length names)%nat -> (j < length names)%nat ->
  keypoint_name names i = keypoint_name names j -> i = j.
Proof.
  intros Hnodup Hi Hj. unfold keypoint_name.
  rewrite !decide_True by done. intros Heq.
  destruct (lookup_lt_is_Some_2 names i Hi) as [x Hx].
  destruct (lookup_lt_is_Some_2 names j Hj) as [y Hy].
  rewrite (nth_lookup_Some _ _ ""%string _ Hx),
    (nth_lookup_Some _ _ ""%string _ Hy) in Heq. subst y.
  by eapply NoDup_lookup.
Qed.

Lemma decoded_at_name (T : ndarray) (t : float) (names : list string)
    (idx : nat) (kp : Keypoint) :
  decoded_at T t names idx = Some kp ->
  kp_id kp = idx /\ kp_name kp = keypoint_name names idx /\
  (t <=? kp_confidence kp)%float = true.
Proof.
  intros (y & x & c & _ & _ & _ & Hc & ->)%decoded_at_Some. by repeat split.
Qed.

Lemma find_decoded_absent (T : ndarray) (t : float) (names : list string)
    (idxs : list nat) (i : nat) :
  NoDup names -> (i < length names)%nat ->
  Forall (fun idx => idx < length names)%nat idxs ->
  i ∉ idxs ->
  get_keypoint_by_name (omap (decoded_at T t names) idxs) (keypoint_name names i)
  = None.
Proof.
  intros Hnodup Hi Hidxs Hnotin. apply get_keypoint_by_name_none.
  unfold none_named. apply Forall_forall. intros kp Hkp.
  apply list_elem_of_omap in Hkp as (j & Hj & Hkp).
  apply decoded_at_name in Hkp as (_ & -> & _). intros Heq.
  rewrite Forall_forall in Hidxs.
  apply keypoint_name_inj in Heq; [|done|by apply Hidxs|done].
  by subst j.
Qed.

Lemma find_decoded (T : ndarray) (t : float) (names : list string)
    (idxs : list nat) (i : nat) :
  NoDup names -> (i < length names)%nat ->
  Forall (fun idx => idx < length names)%nat idxs ->
  NoDup idxs -> i ∈ idxs ->
  get_keypoint_by_name (omap (decoded_at T t names) idxs) (keypoint_name names i)
  = decoded_at T t names i.
Proof.
  intros Hnodup Hi Hidxs Hdistinct Hin.
  induction idxs as [|j idxs IH]; [by apply elem_of_nil in Hin|].
  apply NoDup_cons in Hdistinct as [Hj Hdistinct].
  apply Forall_cons in Hidxs as [Hjlt Hidxs].
  destruct (decide (i = j)) as [<-|Hne].
  - simpl. destruct (decoded_at T t names i) as [kp|] eqn:Hkp.
    + unfold get_keypoint_by_name. simpl.
      apply decoded_at_name in Hkp as (_ & Hname & _).
      by rewrite bool_decide_eq_true_2.
    + by apply find_decoded_absent.
  - apply elem_of_cons in Hin as [?|Hin]; [done|].
    simpl. destruct (decoded_at T t names j) as [kp|] eqn:Hkp; [|by apply IH].
    unfold get_keypoint_by_name. simpl.
    apply decoded_at_name in Hkp as (_ & Hname & _).
    rewrite bool_decide_eq_false_2; [by apply IH|].
    rewrite Hname. intros Heq.
    apply keypoint_name_inj in Heq; [congruence|done..].
Qed.

(** X12.  Decoding and looking up by name compose: on a well-shaped
    tensor of [K] keypoints, with [K] or more distinct names configured,
    looking up the name of index [idx] in the decoded list returns the
    keypoint that index decodes to — its id is [idx] and its confidence
    reaches the threshold as the comparison takes it (the configured
    number rounded to the tensor's element type: to binary32 for a
    [float32] tensor) — and [None] when the confidence at [idx] is below
    that, whatever the other rows hold. *)
Theorem decoded_keypoint_found_by_name (config : Config) (T : ndarray)
    (B K idx : nat) :
  let threshold :=
    as_dtype (dtype T)
      (default 0.3%float (confidence_threshold (pose_config config))) in
  let names := default [] (keypoint_names (pose_config config)) in
  well_formed T -> shape T = [B; K; 3%nat] -> (0 < B)%nat ->
  NoDup names -> (K <= length names)%nat -> (idx < K)%nat ->
  exists kps,
    extract_keypoints config T = Ok kps /\
    get_keypoint_by_name kps (keypoint_name names idx)
    = decoded_at T threshold names idx /\
    (forall kp,
       get_keypoint_by_name kps (keypoint_name names idx) = Some kp ->
       kp_id kp = idx /\ (threshold <=? kp_confidence kp)%float = true).
Proof.
  intros threshold names Hwf Hshape HB Hnodup HK Hidx.
  rewrite (extract_keypoints_well_shaped config T B K Hwf Hshape HB).
  fold threshold names. eexists. split; [reflexivity|].
  assert (get_keypoint_by_name (omap (decoded_at T threshold names) (seq 0 K))
            (keypoint_name names idx) = decoded_at T threshold names idx) as ->.
  { apply find_decoded; try done; try lia.
    - apply Forall_forall. intros j Hj. apply elem_of_seq in Hj. lia.
    - apply NoDup_seq.
    - apply elem_of_seq. lia. }
  split; [done|]. intros kp Hkp.
  apply decoded_at_name in Hkp as (? & _ & ?). done.
Qed.

Lemma decoded_keypoint_found_by_name_witness :
  well_formed model_tensor /\ shape model_tensor = [1; 3; 3]%nat /\
  (0 < 1)%nat /\ NoDup ["nose"; "left_eye"; "right_eye"] /\
  (3 <= length ["nose"; "left_eye"; "right_eye"])%nat /\ (2 < 3)%nat /\
  exists kps,
    extract_keypoints (three_named 0.7) model_tensor = Ok kps /\
    get_keypoint_by_name kps "right_eye"
    = Some (mkKeypoint 2 "right_eye" 0.625 0.375 0.699999988079071044921875).
Proof.
  assert (well_formed model_tensor) as Hwf by reflexivity.
  assert (shape model_tensor = [1; 3; 3]%nat) as Hshape by reflexivity.
  assert (0 < 1)%nat as HB by lia.
  assert (NoDup ["nose"; "left_eye"; "right_eye"]) as Hnodup
    by (apply (bool_decide_unpack _); vm_compute; reflexivity).
  assert (3 <= length ["nose"; "left_eye"; "right_eye"])%nat as HK
    by (simpl; lia).
  assert (2 < 3)%nat as Hidx by lia.
  split; [exact Hwf|]. split; [exact Hshape|]. split; [exact HB|].
  split; [exact Hnodup|]. split; [exact HK|]. split; [exact Hidx|].
  destruct (decoded_keypoint_found_by_name (three_named 0.7) model_tensor
              1 3 2 Hwf Hshape HB Hnodup HK Hidx) as (kps & Hkps & Hfound & _).
  exists kps. split; [exact Hkps|]. exact Hfound.
Defined.

(* ===================================================================== *)
(** ** Further properties: the decoder's names and threshold *)
(* ===================================================================== *)

Lemma extract_loop_invariant (P : Keypoint -> Prop) (T : ndarray)
    (d0 d1 d2 : nat) (t : float)
    (names : list string) (idxs : list nat) (acc kps : list Keypoint) :
  (forall idx x y c,
     (as_dtype (dtype T) t <=? c)%float = true ->
     P (mkKeypoint idx
          (match names !! idx with
           | Some name => name
           | None => "keypoint_" +:+ pretty idx
           end) x y c)) ->
  Forall P acc ->
  extract_loop T d0 d1 d2 t names idxs acc = Ok kps ->
  Forall P kps.
Proof.
  intros Hnew. revert acc. induction idxs as [|idx idxs IH]; intros acc Hacc; simpl.
  { by intros [= <-]. }
  destruct (index_row d0 d1 d2 T 0 idx) as [row|e]; cbn [mbind result_bind];
    [|done].
  destruct (unpack3 row) as [[[y x] c]|e]; cbn [mbind result_bind]; [|done].
  apply IH. destruct (as_dtype (dtype T) t <=? c)%float eqn:Hc; [|done].
  apply Forall_app. split; [done|]. repeat constructor. by apply Hnew.
Qed.

Lemma extract_keypoints_invariant (P : Keypoint -> Prop) (config : Config)
    (T : ndarray) (kps : list Keypoint) :
  (forall idx x y c,
     (as_dtype (dtype T)
        (default 0.3%float (confidence_threshold (pose_config config)))
      <=? c)%float = true ->
     P (mkKeypoint idx
          (match default [] (keypoint_names (pose_config config)) !! idx with
           | Some name => name
           | None => "keypoint_" +:+ pretty idx
           end) x y c)) ->
  extract_keypoints config T = Ok kps ->
  Forall P kps.
Proof.
  intros Hnew. unfold extract_keypoints.
  destruct (shape T) as [|d0 [|d1 [|d2 [|d3 rest]]]];
    try (by intros [= <-]).
  by apply extract_loop_invariant.
Qed.

Lemma synthesized_not_joint (kps : list Keypoint) (name : string) :
  Forall synthesized_name kps -> name ∈ joint_names ->
  get_keypoint_by_name kps name = None.
Proof.
  intros Hkps Hname. apply get_keypoint_by_name_none.
  unfold none_named. eapply Forall_impl; [exact Hkps|].
  intros kp Hkp Heq. unfold synthesized_name in Hkp. rewrite Hkp in Heq.
  unfold joint_names in Hname. rewrite !elem_of_cons, elem_of_nil in Hname.
  destruct Hname as [-> | [-> | [-> | [-> | [-> | [-> | [-> | [-> | [-> | []]]]]]]]]];
    discriminate Heq.
Qed.

(** X13.  A configuration without keypoint names — the loader's built-in
    default is one — makes the decoder name every keypoint
    [keypoint_<id>]; the feature extractor, which looks keypoints up by
    their anatomical names, then finds none, and whatever the model
    returned its record is the one with all eight features unknown, which
    the default scorer assesses as 0 / 0 / 0, green, negligible, at
    confidence 0. *)
Theorem unnamed_keypoints_give_unknown_features
    (np_arctan2 : float -> float -> float) (np_arccos np_degrees : float -> float)
    (np_dot : float * float -> float * float -> float)
    (np_linalg_norm : float * float -> float)
    (config : Config) (T : ndarray) (kps : list Keypoint) :
  default [] (keypoint_names (pose_config config)) = [] ->
  extract_keypoints config T = Ok kps ->
  Forall synthesized_name kps /\
  (forall name, name ∈ joint_names -> get_keypoint_by_name kps name = None) /\
  calculate_ergonomic_features np_arctan2 np_arccos np_degrees np_dot
    np_linalg_norm kps = Ok unknown_features /\
  compute_risk default_scorer (inputs_of unknown_features) = all_zero_assessment.
Proof.
  intros Hnames Hkps.
  assert (Forall synthesized_name kps) as Hsyn.
  { apply (extract_keypoints_invariant _ config T kps); [|done].
    intros idx x y c _. rewrite Hnames. done. }
  assert (forall name, name ∈ joint_names -> get_keypoint_by_name kps name = None)
    as Hnone by (intros name; by apply synthesized_not_joint).
  split; [done|]. split; [done|]. split; [|by vm_compute].
  unfold calculate_ergonomic_features.
  rewrite !Hnone by (apply list_elem_of_In; simpl; tauto).
  reflexivity.
Qed.

Lemma unnamed_keypoints_give_unknown_features_witness :
  default [] (keypoint_names (pose_config model_loader._get_default_config)) = [] /\
  default_extract_keypoints three_keypoints
  = Ok [ mkKeypoint 0 "keypoint_0" 0.5 0.2 0.9;
         mkKeypoint 2 "keypoint_2" 0.6 0.35 0.85 ] /\
  sample_extract [ mkKeypoint 0 "keypoint_0" 0.5 0.2 0.9;
                   mkKeypoint 2 "keypoint_2" 0.6 0.35 0.85 ]
  = Ok unknown_features.
Proof.
  assert (default [] (keypoint_names
                        (pose_config model_loader._get_default_config)) = [])
    as Hnames by reflexivity.
  assert (default_extract_keypoints three_keypoints
          = Ok [ mkKeypoint 0 "keypoint_0" 0.5 0.2 0.9;
                 mkKeypoint 2 "keypoint_2" 0.6 0.35 0.85 ]) as Hkps
    by (vm_compute; reflexivity).
  split; [exact Hnames|]. split; [exact Hkps|].
  exact (proj1 (proj2 (proj2
           (unnamed_keypoints_give_unknown_features
              (fun _ _ => 0%float) (fun _ => 0%float) (fun a => a)
              (fun _ _ => 0%float) (fun _ => 0%float)
              model_loader._get_default_config three_keypoints _
              Hnames Hkps)))).
Defined.

Lemma SFleb_trans (x y z : spec_float) :
  SFleb x y = true -> SFleb y z = true -> SFleb x z = true.
Proof.
  unfold SFleb.
  destruct x as [[]|[]| |[] mx ex], y as [[]|[]| |[] my ey],
           z as [[]|[]| |[] mz ez];
    simpl; try congruence; intros Hxy Hyz;
    compare_cases; subst; try congruence; try lia.
Qed.

Lemma float_le_trans (x y z : float) :
  (x <=? y)%float = true -> (y <=? z)%float = true -> (x <=? z)%float = true.
Proof. rewrite !FloatAxioms.leb_spec. apply SFleb_trans. Qed.

Lemma decoded_at_higher_threshold (T : ndarray) (t1 t2 : float)
    (names : list string) (idxs : list nat) :
  (t1 <=? t2)%float = true ->
  omap (decoded_at T t2 names) idxs
  = filter (confident t2) (omap (decoded_at T t1 names) idxs).
Proof.
  intros Hle. induction idxs as [|idx idxs IH]; [done|]. simpl.
  destruct (decoded_at T t1 names idx) as [kp1|] eqn:H1,
           (decoded_at T t2 names idx) as [kp2|] eqn:H2.
  - apply decoded_at_Some in H1 as (y & x & c & Hy & Hx & Hc & Ht1 & ->).
    apply decoded_at_Some in H2 as (y' & x' & c' & Hy' & Hx' & Hc' & Ht2 & ->).
    assert (y' = y) as -> by congruence.
    assert (x' = x) as -> by congruence.
    assert (c' = c) as -> by congruence.
    rewrite filter_cons_True by exact Ht2. f_equal. exact IH.
  - rewrite filter_cons_False; [exact IH|]. intros Hconf.
    apply decoded_at_Some in H1 as (y & x & c & Hy & Hx & Hc & Ht1 & ->).
    assert (decoded_at T t2 names idx
            = Some (mkKeypoint idx (keypoint_name names idx) x y c)) as H
      by (apply decoded_at_Some; by exists y, x, c).
    congruence.
  - apply decoded_at_Some in H2 as (y & x & c & Hy & Hx & Hc & Ht2 & ->).
    assert (decoded_at T t1 names idx
            = Some (mkKeypoint idx (keypoint_name names idx) x y c)) as H.
    { apply decoded_at_Some. exists y, x, c. repeat split; try done.
      by apply (float_le_trans t1 t2 c). }
    congruence.
  - exact IH.
Qed.

(** X14.  Raising the confidence threshold only removes keypoints.  The
    decoder compares with the configured threshold rounded to the
    tensor's element type (to binary32 for a [float32] tensor); on a
    well-shaped tensor, when the threshold so taken under [config2] is
    at least that under [config1] and both configure the same names,
    decoding under [config2] gives the list decoded under [config1]
    filtered by [confidence >=] the threshold of [config2] — same
    keypoints, same names, same order. *)
Theorem higher_threshold_filters_keypoints (config1 config2 : Config)
    (T : ndarray) (B K : nat) :
  let t1 :=
    as_dtype (dtype T)
      (default 0.3%float (confidence_threshold (pose_config config1))) in
  let t2 :=
    as_dtype (dtype T)
      (default 0.3%float (confidence_threshold (pose_config config2))) in
  default [] (keypoint_names (pose_config config1))
  = default [] (keypoint_names (pose_config config2)) ->
  (t1 <=? t2)%float = true ->
  well_formed T -> shape T = [B; K; 3%nat] -> (0 < B)%nat ->
  exists kps1,
    extract_keypoints config1 T = Ok kps1 /\
    extract_keypoints config2 T = Ok (filter (confident t2) kps1) /\
    sublist (filter (confident t2) kps1) kps1.
Proof.
  intros t1 t2 Hnames Hle Hwf Hshape HB.
  rewrite (extract_keypoints_well_shaped config1 T B K Hwf Hshape HB).
  rewrite (extract_keypoints_well_shaped config2 T B K Hwf Hshape HB).
  fold t1 t2. rewrite <- Hnames. eexists. split; [reflexivity|].
  split; [|apply sublist_filter].
  by rewrite (decoded_at_higher_threshold T t1 t2).
Qed.

Lemma higher_threshold_filters_keypoints_witness :
  (np_float32 0.3 <=? np_float32 0.7)%float = true /\
  well_formed model_tensor /\
  shape model_tensor = [1; 3; 3]%nat /\ (0 < 1)%nat /\
  exists kps1,
    extract_keypoints (three_named 0.3) model_tensor = Ok kps1 /\
    extract_keypoints (three_named 0.7) model_tensor
    = Ok (filter (confident (np_float32 0.7)) kps1).
Proof.
  assert ((np_float32 0.3 <=? np_float32 0.7)%float = true) as Hle
    by (vm_compute; reflexivity).
  assert (well_formed model_tensor) as Hwf by reflexivity.
  assert (shape model_tensor = [1; 3; 3]%nat) as Hshape by reflexivity.
  assert (0 < 1)%nat as HB by lia.
  split; [exact Hle|]. split; [exact Hwf|]. split; [exact Hshape|].
  split; [exact HB|].
  destruct (higher_threshold_filters_keypoints (three_named 0.3)
              (three_named 0.7) model_tensor 1 3 eq_refl Hle Hwf Hshape HB)
    as (kps1 & H1 & H2 & _).
  exists kps1. split; [exact H1|exact H2].
Defined.

(* ===================================================================== *)
(** ** Further properties: the orchestrator's results *)
(* ===================================================================== *)

Section Results.

Variable np_arctan2 : float -> float -> float.
Variable np_arccos : float -> float.
Variable np_degrees : float -> float.
Variable np_dot : float * float -> float * float -> float.
Variable np_linalg_norm : float * float -> float.
Variable config : Config.
Variable World : Type.
Variable cv2_imread : string -> World -> option ndarray.
Variable cv2_to_batch : ndarray -> list nat -> result ndarray.
Variable session_loaded : World -> bool.
Variable session_run : ndarray -> World -> result ndarray * World.

#[local] Abbreviation run_features :=
  (calculate_ergonomic_features np_arctan2 np_arccos np_degrees np_dot
     np_linalg_norm).
#[local] Abbreviation run_image :=
  (process_image np_arctan2 np_arccos np_degrees np_dot np_linalg_norm
     config World cv2_imread cv2_to_batch session_loaded session_run).
#[local] Abbreviation run_batch :=
  (process_batch np_arctan2 np_arccos np_degrees np_dot np_linalg_norm
     config World cv2_imread cv2_to_batch session_loaded session_run).

Lemma process_image_cases (image_path : string) (w : World) :
  (exists e, (run_image image_path w).1 = failure e) \/
  (exists model_output kps f,
     extract_keypoints config model_output = Ok kps /\
     run_features kps = Ok f /\
     (run_image image_path w).1 = mkProcessResult true None kps f (length kps)).
Proof.
  unfold process_image.
  destruct (preprocess_image _ _ _ _ image_path w) as [image|e]; [|by eauto].
  destruct (run_inference _ _ _ image w) as [[model_output|e] w2]; [|by eauto].
  destruct (extract_keypoints config model_output) as [kps|e] eqn:Hkps;
    [|by eauto].
  cbn [mbind result_bind].
  destruct (run_features kps) as [f|e] eqn:Hf; cbn [mbind result_bind];
    [|by eauto].
  right. by exists model_output, kps, f.
Qed.

Lemma process_image_run (image_path : string) (w w2 : World)
    (image model_output : ndarray) :
  preprocess_image config World cv2_imread cv2_to_batch image_path w = Ok image ->
  run_inference World session_loaded session_run image w = (Ok model_output, w2) ->
  (exists e, (run_image image_path w).1 = failure e) \/
  (exists kps f,
     extract_keypoints config model_output = Ok kps /\
     run_features kps = Ok f /\
     (run_image image_path w).1 = mkProcessResult true None kps f (length kps)).
Proof.
  intros Himage Hinfer. unfold process_image. rewrite Himage, Hinfer.
  destruct (extract_keypoints config model_output) as [kps|e] eqn:Hkps;
    [|by eauto].
  cbn [mbind result_bind].
  destruct (run_features kps) as [f|e] eqn:Hf; cbn [mbind result_bind];
    [|by eauto].
  right. by exists kps, f.
Qed.

(** X15.  Every result of [process_image] is coherent: the reported
    number of keypoints is the length of the keypoint list; every listed
    keypoint has a confidence at or above the configured threshold as the
    decoder's comparison takes it, that is, rounded to the element type of
    the model output (to binary32 for the [float32] tensors the session
    returns); a successful result carries no error and a features record
    with exactly the eight feature keys, and a failed one carries an error
    text, no keypoints and an empty features record. *)
Theorem process_image_result_coherent (image_path : string) (w : World) :
  let r := (run_image image_path w).1 in
  let threshold :=
    default 0.3%float (confidence_threshold (pose_config config)) in
  num_keypoints_detected r = length (keypoints r) /\
  (exists dt, Forall (confident (as_dtype dt threshold)) (keypoints r)) /\
  (forall image model_output w2,
     preprocess_image config World cv2_imread cv2_to_batch image_path w
     = Ok image ->
     run_inference World session_loaded session_run image w
     = (Ok model_output, w2) ->
     Forall (confident (as_dtype (dtype model_output) threshold)) (keypoints r)) /\
  (success r = true /\ result_error r = None /\
   dom (ergonomic_features r) = list_to_set feature_names \/
   success r = false /\ is_Some (result_error r) /\
   keypoints r = [] /\ ergonomic_features r = ∅).
Proof.
  intros r threshold. unfold r. split; [|split; [|split]].
  - destruct (process_image_cases image_path w)
      as [[e ->]|(model_output & kps & f & Hkps & Hf & ->)]; done.
  - destruct (process_image_cases image_path w)
      as [[e ->]|(model_output & kps & f & Hkps & Hf & ->)]; simpl.
    + exists float64. constructor.
    + exists (dtype model_output).
      apply (extract_keypoints_invariant _ config model_output kps); [|done].
      intros idx x y c Hc. exact Hc.
  - intros image model_output w2 Himage Hinfer.
    destruct (process_image_run image_path w w2 image model_output Himage Hinfer)
      as [[e ->]|(kps & f & Hkps & Hf & ->)]; simpl; [constructor|].
    apply (extract_keypoints_invariant _ config model_output kps); [|done].
    intros idx x y c Hc. exact Hc.
  - destruct (process_image_cases image_path w)
      as [[e ->]|(model_output & kps & f & Hkps & Hf & ->)]; simpl.
    + right. by repeat split.
    + left. split; [done|]. split; [done|].
      destruct (calculate_ergonomic_features_run np_arctan2 np_arccos
                  np_degrees np_dot np_linalg_norm kps) as (f' & Hf' & Hdom & _).
      rewrite Hf in Hf'. by injection Hf' as <-.
Qed.

Lemma process_image_without_session (image_path : string) (w : World) :
  session_loaded w = false ->
  (run_image image_path w).2 = w /\ success (run_image image_path w).1 = false.
Proof.
  intros Hno. unfold process_image, run_inference. rewrite Hno. simpl negb.
  cbv iota. by destruct (preprocess_image _ _ _ _ image_path w) as [image|e].
Qed.

(** X16.  Without a loaded session nothing is inferred: [process_image]
    fails — with the loading error for an unreadable image, with "Model
    not loaded" for a readable one — and leaves the world as it was, and
    so does a whole batch, every result of which is a failure. *)
Theorem no_session_no_inference (image_paths : list string) (w : World) :
  session_loaded w = false ->
  (forall image_path,
     (run_image image_path w).2 = w /\
     success (run_image image_path w).1 = false /\
     (forall image,
        preprocess_image config World cv2_imread cv2_to_batch image_path w
        = Ok image ->
        result_error (run_image image_path w).1
        = Some "Model not loaded. Call model_loader.load_model() first.")) /\
  (run_batch image_paths w).2 = w /\
  Forall (fun r => success r = false) (run_batch image_paths w).1.
Proof.
  intros Hno. split.
  - intros image_path.
    destruct (process_image_without_session image_path w Hno) as [Hw Hfail].
    split; [done|]. split; [done|]. intros image Himage.
    unfold process_image, run_inference. by rewrite Himage, Hno.
  - induction image_paths as [|p paths [IHw IHr]]; [by split|].
    rewrite process_batch_cons.
    destruct (process_image_without_session p w Hno) as [Hw Hfail].
    rewrite Hw. simpl. split; [done|]. by constructor.
Qed.

(** X17.  Batches compose: processing [paths1 ++ paths2] gives the
    results of [paths1] followed by those of [paths2] run in the world
    the first batch left behind. *)
Theorem process_batch_app (paths1 paths2 : list string) (w : World) :
  let batch :=
    process_batch np_arctan2 np_arccos np_degrees np_dot np_linalg_norm
      config World cv2_imread cv2_to_batch session_loaded session_run in
  batch (paths1 ++ paths2) w
  = ((batch paths1 w).1 ++ (batch paths2 (batch paths1 w).2).1,
     (batch paths2 (batch paths1 w).2).2).
Proof.
  cbn zeta. revert w. induction paths1 as [|p paths1 IH]; intros w; simpl.
  { by destruct (run_batch paths2 w). }
  rewrite !process_batch_cons, IH. reflexivity.
Qed.

(** X24.  A model output whose rank is not 3 is not reported as an
    error: the decoder returns no keypoints for it, and [process_image]
    answers with success, zero keypoints and the features record in which
    all eight features are unknown — which the default scorer assesses as
    0 / 0 / 0, green, negligible, at confidence 0. *)
Theorem wrong_rank_is_not_an_error (image_path : string) (w w2 : World)
    (image model_output : ndarray) :
  preprocess_image config World cv2_imread cv2_to_batch image_path w = Ok image ->
  run_inference World session_loaded session_run image w = (Ok model_output, w2) ->
  ndim model_output <> 3%nat ->
  extract_keypoints config model_output = Ok [] /\
  run_image image_path w
  = (mkProcessResult true None [] unknown_features 0, w2) /\
  compute_risk default_scorer
    (inputs_of (ergonomic_features (run_image image_path w).1))
  = all_zero_assessment.
Proof.
  intros Himage Hinfer Hrank.
  assert (extract_keypoints config model_output = Ok []) as Hkps.
  { by apply extract_keypoints_other_rank. }
  assert (run_image image_path w
          = (mkProcessResult true None [] unknown_features 0, w2)) as Hrun.
  { unfold process_image. rewrite Himage, Hinfer, Hkps. reflexivity. }
  split; [done|]. split; [done|]. rewrite Hrun. by vm_compute.
Qed.

End Results.

Lemma wrong_rank_is_not_an_error_witness :
  ndim rank_four <> 3%nat /\
  rank_four_process_image "a.png" 0%nat
  = (mkProcessResult true None [] unknown_features 0, 1%nat).
Proof.
  assert (ndim rank_four <> 3%nat) as Hrank by (vm_compute; lia).
  split; [exact Hrank|].
  exact (proj1 (proj2
           (wrong_rank_is_not_an_error
              (fun _ _ => 0%float) (fun _ => 0%float) (fun a => a)
              (fun _ _ => 0%float) (fun _ => 0%float)
              nose_named nat sample_imread sample_to_batch (fun _ => true)
              (fun _ w => (Ok rank_four, S w)) "a.png" 0%nat 1%nat
              (mkArray float32 [1; 1; 1; 3]%nat [0; 0; 0]%float) rank_four
              eq_refl eq_refl Hrank))).
Defined.

Lemma no_session_no_inference_witness :
  stub_process_batch ["a.png"; "missing.png"] 7%nat
  = ([ mkProcessResult false
         (Some "Model not loaded. Call model_loader.load_model() first.") [] ∅ 0;
       mkProcessResult false (Some "Failed to load image: missing.png") [] ∅ 0 ],
     7%nat) /\
  Forall (fun r => success r = false)
    (stub_process_batch ["a.png"; "missing.png"] 7%nat).1.
Proof.
  split; [reflexivity|].
  exact (proj2 (proj2 (no_session_no_inference
           (fun _ _ => 0%float) (fun _ => 0%float) (fun a => a)
           (fun _ _ => 0%float) (fun _ => 0%float)
           nose_named nat sample_imread sample_to_batch (fun _ => false)
           sample_session_run ["a.png"; "missing.png"] 7%nat eq_refl))).
Defined.

(* ===================================================================== *)
(** ** Further properties: latency metrics *)
(* ===================================================================== *)

Lemma insort_perm (x : float) (l : list float) : insort x l ≡ₚ x :: l.
Proof.
  induction l as [|y l IH]; simpl; [done|].
  destruct (x <? y)%float; [done|]. rewrite IH. apply Permutation_swap.
Qed.

Lemma sorted_from_perm (acc l : list float) :
  foldl (fun acc x => insort x acc) acc l ≡ₚ l ++ acc.
Proof.
  revert acc. induction l as [|x l IH]; intros acc; simpl; [done|].
  rewrite IH, insort_perm. by rewrite Permutation_middle.
Qed.

Lemma sorted_perm (l : list float) : sorted l ≡ₚ l.
Proof. unfold sorted. rewrite sorted_from_perm. by rewrite app_nil_r. Qed.

Lemma sorted_length (l : list float) : length (sorted l) = length l.
Proof. apply Permutation_length, sorted_perm. Qed.

Lemma last_n_short (k : nat) (l : list float) :
  (length l <= k)%nat -> last_n k l = l.
Proof.
  intros H. unfold last_n. by replace (length l - k)%nat with 0%nat by lia.
Qed.

Lemma last_drop_lt (n : nat) (l : list float) :
  (n < length l)%nat -> last (drop n l) = last l.
Proof.
  revert n. induction l as [|x l IH]; intros [|n] Hn; simpl in *;
    try lia; try done.
  rewrite IH by lia. destruct l; [simpl in Hn; lia|done].
Qed.

Lemma last_n_length (k : nat) (l : list float) :
  length (last_n k l) = Nat.min k (length l).
Proof. unfold last_n. rewrite length_drop. lia. Qed.

(** Exhaustive run over the window sizes: the three percentile indices
    are in range and in order. *)
Lemma percentile_indices_checked :
  forallb (fun n =>
    match int (float_of_int n * 0.5)%float,
          int (float_of_int n * 0.95)%float,
          int (float_of_int n * 0.99)%float with
    | Ok i50, Ok i95, Ok i99 =>
        (0 <=? i50) && (i50 <=? i95) && (i95 <=? i99) && (i99 <? n)
    | _, _, _ => false
    end) (seqZ 1 1000) = true.
Proof. vm_compute. reflexivity. Qed.

Lemma percentile_indices (n : Z) :
  1 <= n <= 1000 ->
  exists i50 i95 i99,
    int (float_of_int n * 0.5)%float = Ok i50 /\
    int (float_of_int n * 0.95)%float = Ok i95 /\
    int (float_of_int n * 0.99)%float = Ok i99 /\
    0 <= i50 <= i95 /\ i95 <= i99 < n.
Proof.
  intros Hn.
  pose proof (proj1 (forallb_forall _ _) percentile_indices_checked n) as H.
  cbv beta in H.
  destruct (int (float_of_int n * 0.5)) as [i50|e];
    [|exfalso; assert (false = true) as Hf;
      [apply H, list_elem_of_In, elem_of_seqZ; lia|discriminate Hf]].
  destruct (int (float_of_int n * 0.95)) as [i95|e];
    [|exfalso; assert (false = true) as Hf;
      [apply H, list_elem_of_In, elem_of_seqZ; lia|discriminate Hf]].
  destruct (int (float_of_int n * 0.99)) as [i99|e];
    [|exfalso; assert (false = true) as Hf;
      [apply H, list_elem_of_In, elem_of_seqZ; lia|discriminate Hf]].
  exists i50, i95, i99.
  assert ((0 <=? i50) && (i50 <=? i95) && (i95 <=? i99) && (i99 <? n) = true)
    as Hok by (apply H, list_elem_of_In, elem_of_seqZ; lia).
  rewrite !andb_true_iff, !Z.leb_le, Z.ltb_lt in Hok. repeat split; lia.
Qed.

Lemma getitem_in_range (l : list float) (i : Z) :
  0 <= i < Z.of_nat (length l) ->
  exists x, getitem l i = Ok x /\ l !! Z.to_nat i = Some x.
Proof.
  intros Hi. unfold getitem.
  replace (i <? 0) with false by (symmetry; apply Z.ltb_ge; lia).
  replace (0 <=? i) with true by (symmetry; apply Z.leb_le; lia).
  replace (i <? Z.of_nat (length l)) with true by (symmetry; apply Z.ltb_lt; lia).
  simpl. destruct (lookup_lt_is_Some_2 l (Z.to_nat i)) as [x Hx]; [lia|].
  rewrite Hx. eauto.
Qed.

Lemma update_metrics_run (self : Metrics) (latency_ms : float) :
  let window := last_n 1000 (latencies self ++ [latency_ms]) in
  exists i50 i95 i99 p50 p95 p99,
    0 <= i50 <= i95 /\ i95 <= i99 < Z.of_nat (length window) /\
    sorted window !! Z.to_nat i50 = Some p50 /\
    sorted window !! Z.to_nat i95 = Some p95 /\
    sorted window !! Z.to_nat i99 = Some p99 /\
    update_metrics self latency_ms
    = Ok (mkMetrics p50 p95 p99 (inference_count self + 1) window).
Proof.
  intros window. unfold update_metrics.
  assert ((if decide (1000 < length (latencies self ++ [latency_ms]))%nat
           then last_n 1000 (latencies self ++ [latency_ms])
           else latencies self ++ [latency_ms]) = window) as ->.
  { case_decide; [done|]. unfold window. rewrite last_n_short; [done|lia]. }
  assert (1 <= length window <= 1000)%nat as Hlen.
  { unfold window. rewrite last_n_length, length_app. cbn [length]. lia. }
  rewrite decide_True by lia. rewrite sorted_length.
  destruct (percentile_indices (Z.of_nat (length window)))
    as (i50 & i95 & i99 & -> & -> & -> & H50 & H99); [lia|].
  cbn [mbind result_bind].
  destruct (getitem_in_range (sorted window) i50) as (p50 & -> & Hp50);
    [rewrite sorted_length; lia|].
  destruct (getitem_in_range (sorted window) i95) as (p95 & -> & Hp95);
    [rewrite sorted_length; lia|].
  destruct (getitem_in_range (sorted window) i99) as (p99 & -> & Hp99);
    [rewrite sorted_length; lia|].
  cbn [mbind result_bind].
  exists i50, i95, i99, p50, p95, p99. repeat split; try done; lia.
Qed.

Lemma sorted_lookup_elem (l : list float) (i : nat) (x : float) :
  sorted l !! i = Some x -> x ∈ l.
Proof.
  intros H. apply list_elem_of_lookup_2 in H. by rewrite sorted_perm in H.
Qed.

(** X18.  [update_metrics] never raises, counts every inference, and
    keeps a sliding window: after it the latency list is the last 1000
    entries of the old list followed by the new latency — between 1 and
    1000 entries, the new one last — and each of the three percentiles is
    one of the latencies in the window (the indices [int(n * 0.5)],
    [int(n * 0.95)] and [int(n * 0.99)] stay below [n] for every window
    size). *)
Theorem update_metrics_keeps_window (self : Metrics) (latency_ms : float) :
  exists m,
    update_metrics self latency_ms = Ok m /\
    inference_count m = inference_count self + 1 /\
    latencies m = last_n 1000 (latencies self ++ [latency_ms]) /\
    length (latencies m) = Nat.min 1000 (S (length (latencies self))) /\
    (1 <= length (latencies m) <= 1000)%nat /\
    last (latencies m) = Some latency_ms /\
    latency_p50 m ∈ latencies m /\
    latency_p95 m ∈ latencies m /\
    latency_p99 m ∈ latencies m.
Proof.
  destruct (update_metrics_run self latency_ms)
    as (i50 & i95 & i99 & p50 & p95 & p99 & _ & _ & H50 & H95 & H99 & ->).
  eexists. split; [reflexivity|]. cbn.
  assert (length (last_n 1000 (latencies self ++ [latency_ms]))
          = Nat.min 1000 (S (length (latencies self)))) as Hlen.
  { rewrite last_n_length, length_app. cbn [length]. lia. }
  repeat split; try done; try lia; try by eapply sorted_lookup_elem.
  unfold last_n. rewrite last_drop_lt; [apply last_snoc|].
  rewrite length_app. cbn [length]. lia.
Qed.

Lemma float_lt_le (x y : float) :
  (x <? y)%float = true -> (x <=? y)%float = true.
Proof.
  rewrite FloatAxioms.ltb_spec, FloatAxioms.leb_spec. unfold SFltb, SFleb.
  by destruct (SFcompare _ _) as [[]|].
Qed.

Lemma float_not_lt_le (x y : float) :
  is_nan x = false -> is_nan y = false ->
  (x <? y)%float = false -> (y <=? x)%float = true.
Proof.
  unfold is_nan. rewrite FloatAxioms.ltb_spec, FloatAxioms.leb_spec.
  unfold SFltb, SFleb.
  destruct (Prim2SF x) as [[]|[]| |[] mx ex], (Prim2SF y) as [[]|[]| |[] my ey];
    simpl; try congruence; intros _ _ H;
    compare_cases; subst; try congruence; try lia.
Qed.

Lemma float_le_refl (x : float) : is_nan x = false -> (x <=? x)%float = true.
Proof.
  intros Hx. apply float_not_lt_le; try done.
  destruct (x <? x)%float eqn:H; [|done].
  revert H. rewrite FloatAxioms.ltb_spec. unfold SFltb.
  destruct (Prim2SF x) as [[]|[]| |[] mx ex]; simpl; try congruence;
    compare_cases; subst; try congruence; try lia.
Qed.

Lemma insort_ascending (x : float) (l : list float) :
  is_nan x = false -> all_numbers l -> ascending l -> ascending (insort x l).
Proof.
  intros Hx. induction l as [|y l IH]; intros Hl Hasc; simpl.
  { by split. }
  apply Forall_cons in Hl as [Hy Hl]. destruct Hasc as [Hyl Hasc].
  destruct (x <? y)%float eqn:Hxy; simpl.
  - split; [|by split]. constructor; [by apply float_lt_le|].
    eapply Forall_impl; [exact Hyl|]. intros z Hz. simpl in Hz.
    eapply float_le_trans; [by apply float_lt_le|done].
  - split; [|by apply IH].
    rewrite insort_perm. constructor; [by apply float_not_lt_le|done].
Qed.

Lemma sorted_from_ascending (acc l : list float) :
  all_numbers acc -> all_numbers l -> ascending acc ->
  ascending (foldl (fun acc x => insort x acc) acc l).
Proof.
  revert acc. induction l as [|x l IH]; intros acc Hacc Hl Hasc; simpl; [done|].
  apply Forall_cons in Hl as [Hx Hl]. apply IH; [|done|by apply insort_ascending].
  unfold all_numbers. rewrite insort_perm. by constructor.
Qed.

Lemma sorted_ascending (l : list float) : all_numbers l -> ascending (sorted l).
Proof.
  intros Hl. unfold sorted.
  apply sorted_from_ascending; [constructor|done|done].
Qed.

Lemma ascending_lookup (l : list float) (i j : nat) (a b : float) :
  all_numbers l -> ascending l -> (i <= j)%nat ->
  l !! i = Some a -> l !! j = Some b -> (a <=? b)%float = true.
Proof.
  revert i j. induction l as [|x l IH]; intros i j Hl Hasc Hij Ha Hb; [done|].
  apply Forall_cons in Hl as [Hx Hl]. destruct Hasc as [Hxl Hasc].
  destruct i as [|i], j as [|j]; simpl in *; try lia.
  - injection Ha as <-. injection Hb as <-. by apply float_le_refl.
  - injection Ha as <-. rewrite Forall_forall in Hxl.
    by apply Hxl, list_elem_of_lookup_2 with j.
  - apply (IH i j); try done. lia.
Qed.

(** X19.  When no latency is a NaN the percentiles come out in order:
    after [update_metrics], p50 <= p95 <= p99. *)
Theorem percentiles_in_order (self : Metrics) (latency_ms : float) :
  all_numbers (latencies self) -> is_nan latency_ms = false ->
  exists m,
    update_metrics self latency_ms = Ok m /\
    (latency_p50 m <=? latency_p95 m)%float = true /\
    (latency_p95 m <=? latency_p99 m)%float = true.
Proof.
  intros Hold Hnew.
  destruct (update_metrics_run self latency_ms)
    as (i50 & i95 & i99 & p50 & p95 & p99 & Hi50 & Hi99 & H50 & H95 & H99 & ->).
  eexists. split; [reflexivity|]. cbn.
  assert (all_numbers (last_n 1000 (latencies self ++ [latency_ms]))) as Hwin.
  { unfold all_numbers, last_n. apply Forall_drop, Forall_app.
    split; [done|by constructor]. }
  assert (all_numbers (sorted (last_n 1000 (latencies self ++ [latency_ms]))))
    as Hnum by (unfold all_numbers; by rewrite sorted_perm).
  pose proof (sorted_ascending _ Hwin) as Hasc.
  split.
  - eapply (ascending_lookup _ (Z.to_nat i50) (Z.to_nat i95));
      [exact Hnum|exact Hasc|lia|exact H50|exact H95].
  - eapply (ascending_lookup _ (Z.to_nat i95) (Z.to_nat i99));
      [exact Hnum|exact Hasc|lia|exact H95|exact H99].
Qed.

Lemma percentiles_in_order_witness :
  all_numbers (latencies three_inferences) /\ is_nan 20.5 = false /\
  update_metrics three_inferences 20.5
  = Ok (mkMetrics 20.5 30.25 30.25 4 [30.25; 8; 12.5; 20.5]%float) /\
  (20.5 <=? 30.25)%float = true.
Proof.
  assert (all_numbers (latencies three_inferences)) as Hold
    by (repeat constructor).
  assert (is_nan 20.5 = false) as Hnew by reflexivity.
  assert (update_metrics three_inferences 20.5
          = Ok (mkMetrics 20.5 30.25 30.25 4 [30.25; 8; 12.5; 20.5]%float))
    as Hrun by (vm_compute; reflexivity).
  split; [exact Hold|]. split; [exact Hnew|]. split; [exact Hrun|].
  destruct (percentiles_in_order three_inferences 20.5 Hold Hnew)
    as (m & Hm & H50 & _).
  rewrite Hrun in Hm. injection Hm as <-. exact H50.
Defined.

Lemma get_metrics_total (self : Metrics) :
  exists report, get_metrics self = Ok report.
Proof.
  unfold get_metrics. destruct (0 <? latency_p50 self)%float eqn:Hpos.
  - rewrite (float_truediv_guarded _ _ Hpos). by eexists.
  - by eexists.
Qed.

(** X20.  [get_metrics] never raises: the division that gives the
    throughput is reached only with a median latency above zero.  The
    throughput reported is [1000 / p50] rounded to two decimals then, and
    0.0 when the median is zero, negative or a NaN — in particular before
    the first inference. *)
Theorem get_metrics_guarded (self : Metrics) :
  exists report,
    get_metrics self = Ok report /\
    report_inference_count report = inference_count self /\
    latency_p50_ms report = round2 (latency_p50 self) /\
    throughput_fps report =
      (if (0 <? latency_p50 self)%float
       then round2 (1000 / latency_p50 self)%float
       else 0%float) /\
    get_metrics initial_metrics = Ok (mkMetricsReport 0 0 0 0 0).
Proof.
  unfold get_metrics.
  destruct (0 <? latency_p50 self)%float eqn:Hpos.
  - rewrite (float_truediv_guarded _ _ Hpos). cbn [mbind result_bind].
    eexists. split; [reflexivity|]. by repeat split.
  - cbn [mbind result_bind]. eexists. split; [reflexivity|]. by repeat split.
Qed.

(* ===================================================================== *)
(** ** Further properties: the posture service and the endpoint *)
(* ===================================================================== *)

Section Endpoint.

Variable np_arctan2 : float -> float -> float.
Variable np_arccos : float -> float.
Variable np_degrees : float -> float.
Variable np_dot : float * float -> float * float -> float.
Variable np_linalg_norm : float * float -> float.
Variable config : Config.
Variable World : Type.
Variable cv2_imread : string -> World -> option ndarray.
Variable cv2_to_batch : ndarray -> list nat -> result ndarray.
Variable session_loaded : World -> bool.
Variable session_run : ndarray -> World -> result ndarray * World.
Variable ModelLoader : World -> result unit.
Variable load_model : World -> result bool * World.
Variable loader_metrics : World -> Metrics.
Variable path_exists : string -> World -> bool.
Variable yaml_safe_load : string -> World -> result Document.
Variable UploadFile : Type.
Variable save_upload : UploadFile -> World -> result string * World.
Variable unlink : string -> World -> result unit * World.

#[local] Abbreviation run_image :=
  (process_image np_arctan2 np_arccos np_degrees np_dot np_linalg_norm
     config World cv2_imread cv2_to_batch session_loaded session_run).
#[local] Abbreviation estimate :=
  (estimate_posture np_arctan2 np_arccos np_degrees np_dot np_linalg_norm
     config World cv2_imread cv2_to_batch session_loaded session_run
     loader_metrics).
#[local] Abbreviation initialize :=
  (initialize_models World ModelLoader load_model).
#[local] Abbreviation endpoint :=
  (process_router.process_image np_arctan2 np_arccos np_degrees np_dot
     np_linalg_norm config World cv2_imread cv2_to_batch session_loaded
     session_run loader_metrics path_exists yaml_safe_load UploadFile
     save_upload unlink).

Lemma estimate_posture_cases (g : Globals) (file_path : string) (w : World) :
  (_pose_pipeline g = false /\ estimate g file_path w = (stub_posture, w)) \/
  (_pose_pipeline g = true /\
   success (run_image file_path w).1 = false /\
   estimate g file_path w
   = (mkPostureResult [] None None (result_error (run_image file_path w).1),
      (run_image file_path w).2)) \/
  (_pose_pipeline g = true /\
   success (run_image file_path w).1 = true /\
   exists report,
     get_metrics (loader_metrics (run_image file_path w).2) = Ok report /\
     estimate g file_path w
     = (mkPostureResult
          [ mkPosture (keypoints (run_image file_path w).1)
              (ergonomic_features (run_image file_path w).1)
              (num_keypoints_detected (run_image file_path w).1) ]
          (Some report) None None,
        (run_image file_path w).2)).
Proof.
  unfold estimate_posture. destruct (_pose_pipeline g); simpl negb; cbv iota.
  2:{ left. by split. }
  right. destruct (run_image file_path w) as [r w2]. simpl.
  destruct (success r).
  - right. split; [done|]. split; [done|].
    destruct (get_metrics_total (loader_metrics w2)) as [report Hreport].
    rewrite Hreport. by exists report.
  - left. by repeat split.
Qed.

Lemma successful_result_features (file_path : string) (w : World) :
  success (run_image file_path w).1 = true ->
  result_error (run_image file_path w).1 = None /\
  num_keypoints_detected (run_image file_path w).1
  = length (keypoints (run_image file_path w).1) /\
  dom (ergonomic_features (run_image file_path w).1)
  = list_to_set feature_names.
Proof.
  destruct (process_image_cases np_arctan2 np_arccos np_degrees np_dot
              np_linalg_norm config World cv2_imread cv2_to_batch
              session_loaded session_run file_path w)
    as [[e ->]|(model_output & kps & f & Hkps & Hf & ->)]; simpl; [done|].
  intros _. split; [done|]. split; [done|].
  destruct (calculate_ergonomic_features_run np_arctan2 np_arccos
              np_degrees np_dot np_linalg_norm kps) as (f' & Hf' & Hdom & _).
  rewrite Hf in Hf'. by injection Hf' as <-.
Qed.

(** X21.  [estimate_posture] reports at most one posture, and one exactly
    when the pipeline is initialised and [process_image] succeeds on the
    file; that posture carries the keypoints and the eight-key features
    record of the result, its [num_keypoints] is the number of keypoints,
    and it comes with the loader's metrics and without an error.  An
    answer without a posture has empty metrics and says why: the stub
    warning when the pipeline is not initialised — the file is not even
    opened then — and the error of [process_image] otherwise. *)
Theorem estimate_posture_one_or_none (g : Globals) (file_path : string)
    (w : World) :
  let answer := (estimate g file_path w).1 in
  let r := (run_image file_path w).1 in
  (length (postures answer) <= 1)%nat /\
  (postures answer <> [] <-> _pose_pipeline g = true /\ success r = true) /\
  (forall p,
     p ∈ postures answer ->
     posture_keypoints p = keypoints r /\
     posture_ergonomic_features p = ergonomic_features r /\
     num_keypoints p = length (posture_keypoints p) /\
     dom (posture_ergonomic_features p) = list_to_set feature_names /\
     is_Some (metrics answer) /\
     warning answer = None /\ posture_error answer = None) /\
  (postures answer = [] ->
   metrics answer = None /\
   (_pose_pipeline g = false /\ estimate g file_path w = (stub_posture, w) \/
    _pose_pipeline g = true /\ warning answer = None /\
    posture_error answer = result_error r /\ is_Some (result_error r))).
Proof.
  intros answer r. unfold answer, r.
  destruct (estimate_posture_cases g file_path w)
    as [[Hg ->]|[(Hg & Hr & ->)|(Hg & Hr & report & Hreport & ->)]];
    cbn [fst postures metrics warning posture_error stub_posture length].
  - split; [lia|]. split; [split; [done|intros [? _]; congruence]|].
    split; [by intros p ?%elem_of_nil|]. intros _. split; [done|].
    left. by split.
  - split; [lia|]. split; [split; [done|intros [_ ?]; congruence]|].
    split; [by intros p ?%elem_of_nil|]. intros _. split; [done|].
    right. repeat split; try done.
    destruct (process_image_cases np_arctan2 np_arccos np_degrees np_dot
                np_linalg_norm config World cv2_imread cv2_to_batch
                session_loaded session_run file_path w)
      as [[e He]|(model_output & kps & f & _ & _ & He)];
      rewrite He in Hr |- *; [by eexists|done].
  - destruct (successful_result_features file_path w Hr) as (Herr & Hnum & Hdom).
    split; [lia|]. split; [done|]. split; [|done].
    intros p ->%list_elem_of_singleton. cbn. by repeat split.
Qed.

(** X22.  The model is loaded at most once per process.  With the loader
    set, [initialize_models] changes nothing and does not touch the
    world.  With the loader unset, an exception of the loader's
    constructor propagates and nothing is kept; once the constructor has
    returned, the loader is kept whatever [load_model] does — return
    [True], return [False], or raise, in which case the exception
    propagates with the loader already set and the pipeline as it was —
    and every further call is a no-op.  So a load that did not succeed is
    never retried: when the pipeline was unset before, every later
    [estimate_posture] gives the stub response and leaves the world
    alone. *)
Theorem failed_load_is_never_retried (g : Globals) (w : World) :
  let outcome := (initialize g w).1.1 in
  let g1 := (initialize g w).1.2 in
  let w1 := (initialize g w).2 in
  (_model_loader g = true -> outcome = Ok () /\ g1 = g /\ w1 = w) /\
  (forall e,
     _model_loader g = false -> ModelLoader w = Raise e ->
     outcome = Raise e /\ g1 = g /\ w1 = w) /\
  (_model_loader g = false -> ModelLoader w = Ok () ->
   _model_loader g1 = true /\
   w1 = (load_model w).2 /\
   (forall w2, initialize g1 w2 = (Ok (), g1, w2)) /\
   (forall loaded,
      (load_model w).1 = Ok loaded ->
      outcome = Ok () /\ _pose_pipeline g1 = loaded) /\
   (forall e,
      (load_model w).1 = Raise e ->
      outcome = Raise e /\ _pose_pipeline g1 = _pose_pipeline g) /\
   ((load_model w).1 <> Ok true -> _pose_pipeline g = false ->
    forall w3 file_path, estimate g1 file_path w3 = (stub_posture, w3))).
Proof.
  unfold initialize_models. destruct g as [loader pipeline].
  cbn [_model_loader _pose_pipeline]. split; [|split].
  - by intros ->.
  - intros e -> ->. done.
  - intros -> ->. cbn [negb].
    destruct (load_model w) as [[loaded|e] w0]; cbn [fst snd];
      cbn [_model_loader _pose_pipeline negb].
    + repeat split; try done; try congruence.
      intros Hfailed _ w3 file_path. destruct loaded; [done|reflexivity].
    + repeat split; try done; try congruence.
      intros _ -> w3 file_path. reflexivity.
Qed.

Lemma compute_risk_call_cases (inputs : gmap string Features)
    (_scorer : option BiomechanicalScorer) (w : World) :
  (exists e,
     compute_risk_call World path_exists yaml_safe_load inputs _scorer w
     = (Raise e, None)) \/
  (exists scorer,
     compute_risk_call World path_exists yaml_safe_load inputs _scorer w
     = (Ok (compute_risk scorer inputs), Some scorer)).
Proof.
  unfold compute_risk_call, get_scorer.
  destruct _scorer as [scorer|]; [right; by exists scorer|].
  destruct (__init__ World path_exists yaml_safe_load _ w) as [scorer|e].
  - right. by exists scorer.
  - left. by exists e.
Qed.

(** X23.  The [/image] endpoint always answers, with status ["success"]
    or ["error"].  In a success answer the risk assessment follows the
    posture: it is the all-null dictionary when no posture was found
    (model not loaded, or processing failed), and when there is a posture
    it is [compute_risk] of that posture's features under the cached
    scorer, which is never the all-null dictionary.  An error answer —
    the upload could not be stored, the scorer configuration could not be
    loaded, or the temporary file could not be removed — carries the
    exception text and neither posture nor risk. *)
Theorem image_endpoint_risk_follows_posture (file : UploadFile) (g : Globals)
    (_scorer : option BiomechanicalScorer) (w : World) :
  let answer := (endpoint file g _scorer w).1.1 in
  let kept := (endpoint file g _scorer w).1.2 in
  (process_router.status answer = "error" /\
   is_Some (process_router.response_error answer) /\
   process_router.posture answer = None /\
   process_router.risk_assessment answer = None) \/
  (process_router.status answer = "success" /\
   process_router.response_error answer = None /\
   exists found risk,
     process_router.posture answer = Some found /\
     process_router.risk_assessment answer = Some risk /\
     (postures found = [] /\ risk = null_result \/
      exists p scorer,
        postures found = [p] /\ kept = Some scorer /\
        risk = compute_risk scorer (inputs_of (posture_ergonomic_features p)) /\
        risk <> null_result)).
Proof.
  intros answer kept. unfold answer, kept, process_router.process_image.
  destruct (save_upload file w) as [[tmp_path|e] w1];
    [|left; by repeat split].
  destruct (estimate_posture_cases g tmp_path w1)
    as [[Hg ->]|[(Hg & Hr & ->)|(Hg & Hr & report & Hreport & ->)]];
    cbn [postures stub_posture].
  - destruct (unlink tmp_path w1) as [[[]|e] w2]; [|left; by repeat split].
    right. split; [done|]. split; [done|]. eexists _, _.
    split; [reflexivity|]. split; [reflexivity|]. by left.
  - destruct (unlink tmp_path _) as [[[]|e] w2]; [|left; by repeat split].
    right. split; [done|]. split; [done|]. eexists _, _.
    split; [reflexivity|]. split; [reflexivity|]. by left.
  - cbn [posture_ergonomic_features].
    destruct (compute_risk_call_cases
                {[ "ergonomic_features" :=
                     ergonomic_features (run_image tmp_path w1).1 ]}
                _scorer (run_image tmp_path w1).2)
      as [[e ->]|[scorer ->]]; [left; by repeat split|].
    destruct (unlink tmp_path _) as [[[]|e] w2]; [|left; by repeat split].
    right. split; [done|]. split; [done|]. eexists _, _.
    split; [reflexivity|]. split; [reflexivity|]. right.
    eexists _, scorer. split; [reflexivity|]. split; [done|].
    split; [done|]. apply compute_risk_not_null.
    destruct (successful_result_features tmp_path w1 Hr) as (_ & _ & Hdom).
    intros Hempty. cbn [posture_ergonomic_features] in Hempty.
    rewrite Hempty, dom_empty_L in Hdom.
    assert ("neck_flexion" ∈ (∅ : gset string)) as Hin
      by (rewrite Hdom; apply elem_of_list_to_set; feature_key).
    by apply elem_of_empty in Hin.
Qed.

End Endpoint.

Lemma failed_load_is_never_retried_witness :
  sample_initialize_models initial_globals 0%nat
  = (Ok (), mkGlobals true false, 0%nat) /\
  sample_initialize_models (mkGlobals true false) 1%nat
  = (Ok (), mkGlobals true false, 1%nat) /\
  sample_estimate_posture (mkGlobals true false) "a.png" 2%nat
  = (stub_posture, 2%nat) /\
  empty_config_initialize_models initial_globals 0%nat
  = (Raise (AttributeError "'NoneType' object has no attribute 'get'"),
     mkGlobals true false, 0%nat) /\
  empty_config_initialize_models (mkGlobals true false) 1%nat
  = (Ok (), mkGlobals true false, 1%nat).
Proof.
  split; [reflexivity|].
  destruct (proj2 (proj2 (failed_load_is_never_retried
              (fun _ _ => 0%float) (fun _ => 0%float) (fun a => a)
              (fun _ _ => 0%float) (fun _ => 0%float)
              nose_named nat sample_imread sample_to_batch (fun _ => true)
              sample_session_run (fun _ => Ok ()) missing_model
              (fun _ => initial_metrics) initial_globals 0%nat))
              eq_refl eq_refl) as (_ & _ & Hagain & _ & _ & Hstub).
  split; [exact (Hagain 1%nat)|].
  split; [exact (Hstub ltac:(discriminate) eq_refl 2%nat "a.png")|].
  destruct (proj2 (proj2 (failed_load_is_never_retried
              (fun _ _ => 0%float) (fun _ => 0%float) (fun a => a)
              (fun _ _ => 0%float) (fun _ => 0%float)
              nose_named nat sample_imread sample_to_batch (fun _ => true)
              sample_session_run (fun _ => Ok ()) empty_config
              (fun _ => initial_metrics) initial_globals 0%nat))
              eq_refl eq_refl) as (_ & _ & Hnoop & _ & _ & _).
  split; [reflexivity|]. exact (Hnoop 1%nat).
Defined.

Lemma estimate_posture_one_or_none_witness :
  exists p,
    p ∈ postures (sample_estimate_posture (mkGlobals true true) "a.png" 0%nat).1 /\
    num_keypoints p = 2%nat /\
    dom (posture_ergonomic_features p) = list_to_set feature_names.
Proof.
  pose (p := mkPosture
               (keypoints (sample_process_image "a.png" 0%nat).1)
               (ergonomic_features (sample_process_image "a.png" 0%nat).1)
               (num_keypoints_detected (sample_process_image "a.png" 0%nat).1)).
  assert (p ∈ postures
                (sample_estimate_posture (mkGlobals true true) "a.png" 0%nat).1)
    as Hp by (apply list_elem_of_singleton; reflexivity).
  exists p. split; [exact Hp|].
  destruct (estimate_posture_one_or_none
              (fun _ _ => 0%float) (fun _ => 0%float) (fun a => a)
              (fun _ _ => 0%float) (fun _ => 0%float)
              nose_named nat sample_imread sample_to_batch (fun _ => true)
              sample_session_run (fun _ => initial_metrics)
              (mkGlobals true true) "a.png" 0%nat) as (_ & _ & Hposture & _).
  destruct (Hposture p Hp) as (_ & _ & Hnum & Hdom & _).
  split; [|exact Hdom]. reflexivity.
Defined.
